(** * acts_downloader: a shallow embedding of [acts_downloader.py]

    The development follows the layout of the Python module.  The library
    calls the module makes ([str] and [bytes] methods, [re], [urllib.parse],
    [os.path], BeautifulSoup, [requests], the filesystem and the logger) are
    modelled first, each in a module of its own; the functions of
    [acts_downloader.py] follow, under their own names, inside one section
    whose variables are the external collaborators (the HTTP transport and
    the HTML parser). *)

From Stdlib Require Import NArith List String Ascii Bool Lia.
From Stdlib.Strings Require Import Byte.
From stdpp Require Import base option list gmap.

Open Scope N_scope.

(** ** Python strings and bytes *)

(** A Python [str] is a sequence of code points, a [bytes] a sequence of
    octets. *)
Abbreviation str := (list N).
Abbreviation bytes := (list byte).

#[global] Instance byte_eq_decision : EqDecision byte := Byte.byte_eq_dec.

Module Py.

(** An ASCII literal as a [str]. *)
Definition s (lit : string) : str := N_of_ascii <$> list_ascii_of_string lit.
Arguments s lit : simpl never.

(** An ASCII literal as a [bytes]. *)
Definition b (lit : string) : bytes := list_byte_of_string lit.

(** Truthiness of a [str]: [if x:]. *)
Definition truthy {A} (x : list A) : bool :=
  match x with [] => false | _ :: _ => true end.

(** [x or y] on strings. *)
Definition or_else {A} (x y : list A) : list A := if truthy x then x else y.

(** [c in chars] for a single character. *)
Definition mem (c : N) (chars : str) : bool := bool_decide (c ∈ chars).

(** [str.isspace] for one code point ([Py_UNICODE_ISSPACE], as of
    CPython 3.11); it is what [str.strip()] removes and what [\s] matches
    in a [str] pattern. *)
Definition isspace (c : N) : bool :=
  ((9 <=? c) && (c <=? 13)) || ((28 <=? c) && (c <=? 32))
  || (c =? 133) || (c =? 160) || (c =? 5760)
  || ((8192 <=? c) && (c <=? 8202))
  || (c =? 8232) || (c =? 8233) || (c =? 8239) || (c =? 8287) || (c =? 12288).

(** Whitespace of [bytes.lstrip()]: space, tab, LF, VT, FF, CR. *)
Definition isspace_byte (c : byte) : bool :=
  match c with
  | x20 | x09 | x0a | x0b | x0c | x0d => true
  | _ => false
  end.

(** [lstrip], [rstrip] and [strip], for the characters selected by [p]. *)
Fixpoint lstrip_by {A} (p : A → bool) (x : list A) : list A :=
  match x with
  | c :: x' => if p c then lstrip_by p x' else x
  | [] => []
  end.

Definition rstrip_by {A} (p : A → bool) (x : list A) : list A :=
  reverse (lstrip_by p (reverse x)).

Definition strip_by {A} (p : A → bool) (x : list A) : list A :=
  rstrip_by p (lstrip_by p x).

(** [x.strip()] *)
Definition strip (x : str) : str := strip_by isspace x.

(** [x.strip(chars)] and [x.rstrip(chars)] *)
Definition strip_chars (chars x : str) : str := strip_by (λ c, mem c chars) x.
Definition rstrip_chars (chars x : str) : str := rstrip_by (λ c, mem c chars) x.

(** [content.lstrip()] on bytes. *)
Definition lstrip_bytes (x : bytes) : bytes := lstrip_by isspace_byte x.

(** [x.startswith(pre)] *)
Fixpoint startswith (x pre : str) : bool :=
  match pre, x with
  | [], _ => true
  | c :: pre', d :: x' => (c =? d) && startswith x' pre'
  | _ :: _, [] => false
  end.

(** [x.endswith(suf)] *)
Definition endswith (x suf : str) : bool := startswith (reverse x) (reverse suf).

(** [needle in x] *)
Fixpoint contains (x needle : str) : bool :=
  startswith x needle
  || match x with [] => false | _ :: x' => contains x' needle end.

(** [x.split(sep, 1)] for a one-character separator that is known to
    occur: the text before and after its first occurrence.  Without an
    occurrence the whole string is the first component. *)
Fixpoint split1 (sep : N) (x : str) : str * str :=
  match x with
  | [] => ([], [])
  | c :: x' => if c =? sep then ([], x')
               else let '(l, r) := split1 sep x' in (c :: l, r)
  end.

(** [x.rsplit(sep, 1)[-1]]: the text after the last occurrence of [sep],
    the whole string when there is none. *)
Fixpoint after_last (sep : N) (x : str) : str :=
  match x with
  | [] => []
  | c :: x' => if mem sep x' then after_last sep x'
               else if c =? sep then x' else x
  end.

(** [x.replace(c, empty)]: every occurrence of the character [c] removed. *)
Definition remove_char (c : N) (x : str) : str :=
  filter (λ d, d ≠ c) x.

(** [str.lower()].  Exact on ASCII and Latin-1 and on the two other code
    points whose lower-case form contains an ASCII letter (U+0130 and the
    Kelvin sign U+212A); the remaining code points, whose lower-case forms
    are not ASCII, are left as they are.  Every test the program runs on a
    lower-cased string looks for an ASCII needle, so it cannot tell the
    difference. *)
Definition lower_cp (c : N) : str :=
  if (65 <=? c) && (c <=? 90) then [c + 32]
  else if (192 <=? c) && (c <=? 222) && negb (c =? 215) then [c + 32]
  else if c =? 304 then [105; 775]
  else if c =? 8490 then [107]
  else [c].

Definition lower (x : str) : str := x ≫= lower_cp.

(** [c.isascii() and c.isalpha()] *)
Definition is_ascii_alpha (c : N) : bool :=
  ((65 <=? c) && (c <=? 90)) || ((97 <=? c) && (c <=? 122)).

Definition is_digit (c : N) : bool := (48 <=? c) && (c <=? 57).

End Py.

(** ** The [re] module *)

Module Re.

(** The patterns of the program are sequences of single characters and of
    greedy repetitions of one character class, with at most one capturing
    group, which always wraps a [+] repetition.  A class is a predicate on
    code points. *)
Inductive item :=
| Chr (p : N → bool)        (* one character of the class *)
| Star (p : N → bool)       (* [p*], greedy *)
| Plus (p : N → bool)       (* [p+], greedy *)
| GroupPlus (p : N → bool). (* [(p+)], greedy, captured as group 1 *)

Definition regex := list item.

(** The simple (one code point) lower-casing the matcher applies under
    [re.I]; as for [Py.lower_cp], exact wherever the result is ASCII. *)
Definition sre_lower (c : N) : N :=
  if (65 <=? c) && (c <=? 90) then c + 32
  else if (192 <=? c) && (c <=? 222) && negb (c =? 215) then c + 32
  else if c =? 304 then 105
  else if c =? 8490 then 107
  else c.

(** A literal lower-case ASCII letter under [re.I].  The letter [i] also
    matches the dotless i (U+0131), its case-folding equivalent. *)
Definition ci (l : N) : N → bool :=
  λ c, (sre_lower c =? l) || ((l =? 105) && (sre_lower c =? 305)).

(** A literal character, and the classes [\s] and [[^...]]. *)
Definition lit (l : N) : N → bool := λ c, c =? l.
Definition ws : N → bool := Py.isspace.
Definition none_of (chars : str) : N → bool := λ c, negb (Py.mem c chars).
Definition one_of (chars : str) : N → bool := λ c, Py.mem c chars.

(** A word matched letter by letter under [re.I]. *)
Definition word_ci (w : str) : regex := (λ l, Chr (ci l)) <$> w.

Section Matcher.
Context {R : Type}.

(** Greedy repetition: take characters of the class while they last,
    then give them back one at a time until the continuation [k]
    accepts.  [k] receives the text matched and the text left. *)
Fixpoint rep (p : N → bool) (k : str → str → option R) (acc x : str)
  : option R :=
  match x with
  | c :: x' =>
      if p c then
        match rep p k (acc ++ [c]) x' with
        | Some r => Some r
        | None => k acc x
        end
      else k acc x
  | [] => k acc x
  end.
End Matcher.

(** Matching a pattern at the start of [x]: group 1 and the rest. *)
Fixpoint match_here (r : regex) (grp : option str) (x : str)
  : option (option str * str) :=
  match r with
  | [] => Some (grp, x)
  | Chr p :: r' =>
      match x with
      | c :: x' => if p c then match_here r' grp x' else None
      | [] => None
      end
  | Star p :: r' => rep p (λ _ rest, match_here r' grp rest) [] x
  | Plus p :: r' =>
      match x with
      | c :: x' =>
          if p c then rep p (λ _ rest, match_here r' grp rest) [c] x'
          else None
      | [] => None
      end
  | GroupPlus p :: r' =>
      match x with
      | c :: x' =>
          if p c then rep p (λ m rest, match_here r' (Some m) rest) [c] x'
          else None
      | [] => None
      end
  end.

(** [re.search(r, x)]: the leftmost match; the result is [m.group(1)]. *)
Fixpoint search (r : regex) (x : str) : option (option str) :=
  match match_here r None x with
  | Some (g, _) => Some g
  | None => match x with [] => None | _ :: x' => search r x' end
  end.

(** [m.group(1)] of a successful search of a pattern with one group. *)
Definition search_group1 (r : regex) (x : str) : option str :=
  g ← search r x; g.

(** [re.sub(r, repl, x)] for a pattern [[class]+]: every maximal run of
    characters of the class is replaced by one copy of [repl]. [in_run]
    tells that the previous character belonged to a run. *)
Fixpoint sub_plus_from (p : N → bool) (repl : str) (in_run : bool) (x : str)
  : str :=
  match x with
  | [] => []
  | c :: x' =>
      if p c then (if in_run then [] else repl) ++ sub_plus_from p repl true x'
      else c :: sub_plus_from p repl false x'
  end.

Definition sub_plus (p : N → bool) (repl x : str) : str :=
  sub_plus_from p repl false x.

End Re.

(** ** [urllib.parse] *)

Module Url.

(** The six components [urlparse] returns. *)
Record ParseResult := {
  scheme : str;
  netloc : str;
  path : str;
  params : str;
  query : str;
  fragment : str
}.

(** The longest prefix of characters satisfying [p], and what follows. *)
Fixpoint span (p : N → bool) (x : str) : str * str :=
  match x with
  | c :: x' => if p c then let '(l, r) := span p x' in (c :: l, r) else ([], x)
  | [] => ([], [])
  end.

(** [_WHATWG_C0_CONTROL_OR_SPACE] and [scheme_chars]. *)
Definition c0_control_or_space (c : N) : bool := c <=? 32.

Definition scheme_char (c : N) : bool :=
  Py.is_ascii_alpha c || Py.is_digit c || Py.mem c (Py.s "+-.").

(** [uses_params], [uses_relative] and [uses_netloc] *)
Definition uses_params : list str :=
  Py.s <$> [""; "ftp"; "hdl"; "prospero"; "http"; "imap"; "https"; "shttp";
            "rtsp"; "rtspu"; "sip"; "sips"; "mms"; "sftp"; "tel"]%string.

Definition uses_relative : list str :=
  Py.s <$> [""; "ftp"; "http"; "gopher"; "nntp"; "imap"; "wais"; "file";
            "https"; "shttp"; "mms"; "prospero"; "rtsp"; "rtspu"; "sftp";
            "svn"; "svn+ssh"; "ws"; "wss"]%string.

Definition uses_netloc : list str :=
  Py.s <$> [""; "ftp"; "http"; "gopher"; "nntp"; "telnet"; "imap"; "wais";
            "file"; "mms"; "https"; "shttp"; "snews"; "prospero"; "rtsp";
            "rtspu"; "rsync"; "svn"; "svn+ssh"; "sftp"; "nfs"; "git";
            "git+ssh"; "ws"; "wss"]%string.

(** The scheme test of [urlsplit]: a colon at an index [i > 0], an ASCII
    letter first and only scheme characters before the colon.  The result
    is the lower-cased scheme and the text after the colon. *)
Definition split_scheme (url : str) : option (str * str) :=
  let '(pre, rest) := span (λ c, negb (c =? 58)) url in
  match pre, rest with
  | c :: _, _ :: after =>
      if Py.is_ascii_alpha c && forallb scheme_char pre
      then Some (Py.lower pre, after) else None
  | _, _ => None
  end.

(** [_splitnetloc(url, 2)] after the test [url[:2] == '//']. *)
Definition split_netloc (url : str) : str * str :=
  match url with
  | 47 :: 47 :: rest => span (Re.none_of (Py.s "/?#")) rest
  | _ => ([], url)
  end.

(** [url.split(sep, 1)] guarded by [sep in url]. *)
Definition split_if_present (sep : N) (url : str) : str * str :=
  if Py.mem sep url then Py.split1 sep url else (url, []).

(** [_splitparams]: the parameters of the last path segment. *)
Fixpoint splitparams (url : str) : str * str :=
  match url with
  | [] => ([], [])
  | c :: url' =>
      if Py.mem 47 url' then let '(l, r) := splitparams url' in (c :: l, r)
      else if c =? 47 then let '(l, r) := split_if_present 59 url' in (c :: l, r)
      else split_if_present 59 url
  end.

(** The removal of tab, line feed and carriage return by [urlsplit]. *)
Definition remove_unsafe (x : str) : str :=
  Py.remove_char 10 (Py.remove_char 13 (Py.remove_char 9 x)).

(** [urlparse(url, scheme)], as of CPython 3.11; [scheme] is the default
    for a URL without one.  The [ValueError]s [urlsplit] raises on a
    malformed bracketed host or on a host that changes under NFKC
    normalisation are not modelled. *)
Definition urlparse_default (default_scheme url : str) : ParseResult :=
  let url := Py.lstrip_by c0_control_or_space url in
  let sch := Py.strip_by c0_control_or_space default_scheme in
  let url := remove_unsafe url in
  let sch := remove_unsafe sch in
  let '(sch, url) :=
    match split_scheme url with
    | Some found => found
    | None => (sch, url)
    end in
  let '(loc, url) := split_netloc url in
  let '(url, frag) := split_if_present 35 url in
  let '(url, qry) := split_if_present 63 url in
  let '(url, prm) :=
    if bool_decide (sch ∈ uses_params) && Py.mem 59 url
    then splitparams url else (url, []) in
  {| scheme := sch; netloc := loc; path := url; params := prm;
     query := qry; fragment := frag |}.

(** [urlparse(url)] *)
Definition urlparse (url : str) : ParseResult := urlparse_default [] url.

(** [urlunsplit] and [urlunparse] *)
Definition urlunsplit (scheme netloc url query fragment : str) : str :=
  let url :=
    if Py.truthy netloc
       || (Py.truthy scheme && bool_decide (scheme ∈ uses_netloc)
           && negb (bool_decide (take 2 url = Py.s "//")))
    then
      let url :=
        if Py.truthy url && negb (bool_decide (take 1 url = Py.s "/"))
        then Py.s "/" ++ url else url in
      Py.s "//" ++ netloc ++ url
    else url in
  let url := if Py.truthy scheme then scheme ++ Py.s ":" ++ url else url in
  let url := if Py.truthy query then url ++ Py.s "?" ++ query else url in
  let url := if Py.truthy fragment then url ++ Py.s "#" ++ fragment else url in
  url.

Definition urlunparse (scheme netloc url params query fragment : str) : str :=
  let url := if Py.truthy params then url ++ Py.s ";" ++ params else url in
  urlunsplit scheme netloc url query fragment.

(** [x.split(sep)] for a one-character separator, and [sep.join(parts)]. *)
Fixpoint split_on (sep : N) (x : str) : list str :=
  match x with
  | [] => [[]]
  | c :: x' =>
      if c =? sep then [] :: split_on sep x'
      else match split_on sep x' with
           | seg :: segs => (c :: seg) :: segs
           | [] => [[c]]
           end
  end.

Fixpoint join_with (sep : str) (parts : list str) : str :=
  match parts with
  | [] => []
  | [x] => x
  | x :: parts' => x ++ sep ++ join_with sep parts'
  end.

(** [segments[1:-1] = filter(None, segments[1:-1])] *)
Definition drop_empty_middle (segments : list str) : list str :=
  match segments with
  | first :: (_ :: _) as rest =>
      first :: List.filter Py.truthy (removelast rest) ++ [List.last rest []]
  | _ => segments
  end.

(** The loop over the segments: a dot-dot pops (when there is something to
    pop), a dot is passed over, anything else is appended. *)
Definition resolve_step (resolved_path : list str) (seg : str) : list str :=
  if bool_decide (seg = Py.s "..") then removelast resolved_path
  else if bool_decide (seg = Py.s ".") then resolved_path
  else resolved_path ++ [seg].

(** [urljoin(base, url)], as of CPython 3.11. *)
Definition urljoin (base url : str) : str :=
  if negb (Py.truthy base) then url else
  if negb (Py.truthy url) then base else
  let b := urlparse_default [] base in
  let u := urlparse_default (scheme b) url in
  if negb (bool_decide (scheme u = scheme b))
     || negb (bool_decide (scheme u ∈ uses_relative))
  then url else
  if bool_decide (scheme u ∈ uses_netloc) && Py.truthy (netloc u)
  then urlunparse (scheme u) (netloc u) (path u) (params u) (query u) (fragment u)
  else
  let loc := if bool_decide (scheme u ∈ uses_netloc) then netloc b else netloc u in
  if negb (Py.truthy (path u)) && negb (Py.truthy (params u)) then
    let qry := if negb (Py.truthy (query u)) then query b else query u in
    urlunparse (scheme u) loc (path b) (params b) qry (fragment u)
  else
  let base_parts := split_on 47 (path b) in
  let base_parts :=
    if negb (bool_decide (List.last base_parts [] = []))
    then removelast base_parts else base_parts in
  let segments :=
    if bool_decide (take 1 (path u) = Py.s "/") then split_on 47 (path u)
    else drop_empty_middle (base_parts ++ split_on 47 (path u)) in
  let resolved_path := foldl resolve_step [] segments in
  let resolved_path :=
    if bool_decide (List.last segments [] ∈ [Py.s "."; Py.s ".."])
    then resolved_path ++ [[]] else resolved_path in
  urlunparse (scheme u) loc
    (Py.or_else (join_with (Py.s "/") resolved_path) (Py.s "/"))
    (params u) (query u) (fragment u).

(** *** Where [urlsplit] raises

    [urlsplit] (hence [urlparse] and [urljoin]) raises [ValueError] on a
    netloc it does not accept.  The functions above give the result of a
    call that returns; the ones below tell when a call raises, as of the
    CPython 3.11 of the development (with the check of bracketed hosts). *)

(** [x.partition(sep)] for a one-character separator: the text before its
    first occurrence, whether there is one, and the text after it. *)
Definition partition (sep : N) (x : str) : str * bool * str :=
  if Py.mem sep x then let '(l, r) := Py.split1 sep x in (l, true, r)
  else (x, false, []).

(** [int(x)] for a string of ASCII digits. *)
Definition decimal (x : str) : N := foldl (λ n c, 10 * n + (c - 48)) 0 x.

(** [IPv4Address._parse_octet] returns: one to three ASCII digits, no
    leading zero, at most 255. *)
Definition valid_octet (o : str) : bool :=
  Py.truthy o && forallb Py.is_digit o && (length o <=? 3)%nat
  && (bool_decide (o = Py.s "0") || negb (bool_decide (take 1 o = Py.s "0")))
  && (decimal o <=? 255).

(** [IPv4Address(x)] returns: four such octets between dots. *)
Definition valid_ipv4 (x : str) : bool :=
  let octets := split_on 46 x in
  (length octets =? 4)%nat && forallb valid_octet octets.

Definition is_hex (c : N) : bool :=
  Py.is_digit c || ((65 <=? c) && (c <=? 70)) || ((97 <=? c) && (c <=? 102)).

(** [IPv6Address._parse_hextet] returns: one to four hexadecimal digits. *)
Definition valid_hextet (h : str) : bool :=
  Py.truthy h && forallb is_hex h && (length h <=? 4)%nat.

(** The indices [i] from [start] on at which an element of the list is the
    empty string. *)
Fixpoint empty_at (start : nat) (parts : list str) : list nat :=
  match parts with
  | [] => []
  | x :: parts' =>
      (if Py.truthy x then [] else [start]) ++ empty_at (S start) parts'
  end.

(** [IPv6Address._ip_int_from_string(x)] returns.  A dotted-quad last part
    is replaced by the two hextets it stands for (any two valid hextets
    will do here); the empty parts strictly inside tell where the double
    colon is. *)
Definition valid_ipv6_address (x : str) : bool :=
  Py.truthy x &&
  let parts := split_on 58 x in
  (3 <=? length parts)%nat &&
  let tail := List.last parts [] in
  let ok4 := if Py.mem 46 tail then valid_ipv4 tail else true in
  let parts :=
    if Py.mem 46 tail then removelast parts ++ [Py.s "0"; Py.s "0"]
    else parts in
  ok4 && (length parts <=? 9)%nat &&
  let n := length parts in
  let first_empty := negb (Py.truthy (default [] (head parts))) in
  let last_empty := negb (Py.truthy (List.last parts [])) in
  match empty_at 1 (removelast (drop 1 parts)) with
  | [] =>
      (n =? 8)%nat && negb first_empty && negb last_empty
      && forallb valid_hextet parts
  | [skip_index] =>
      let parts_hi := if first_empty then (skip_index - 1)%nat else skip_index in
      let parts_lo :=
        if last_empty then (n - skip_index - 1 - 1)%nat
        else (n - skip_index - 1)%nat in
      (if first_empty then (parts_hi =? 0)%nat else true)
      && (if last_empty then (parts_lo =? 0)%nat else true)
      && (parts_hi + parts_lo <? 8)%nat
      && forallb valid_hextet (take parts_hi parts)
      && forallb valid_hextet (drop (n - parts_lo) parts)
  | _ => false
  end.

(** [IPv6Address(x)] returns: an address, and after a percent sign, if
    there is one, a scope id that is not empty and holds no percent sign. *)
Definition valid_ipv6 (x : str) : bool :=
  let '(addr, sep, scope_id) := partition 37 x in
  (if sep then Py.truthy scope_id && negb (Py.mem 37 scope_id) else true)
  && valid_ipv6_address addr.

(** The pattern of an IPvFuture host: the letter v, hexadecimal digits, a
    dot, and at least one more character (none of them a line feed). *)
Definition ipvfuture (x : str) : bool :=
  match x with
  | 118 :: rest =>
      let '(digits, rest) := span is_hex rest in
      Py.truthy digits
      && match rest with
         | 46 :: more => Py.truthy more && negb (Py.mem 10 more)
         | _ => false
         end
  | _ => false
  end.

(** [_check_bracketed_host] raises: the host is neither an IPvFuture
    address nor an IPv6 address. *)
Definition check_bracketed_host_raises (hostname : str) : bool :=
  if Py.startswith hostname (Py.s "v") then negb (ipvfuture hostname)
  else negb (valid_ipv6 hostname).

(** [_check_bracketed_netloc] raises. *)
Definition check_bracketed_netloc_raises (netloc : str) : bool :=
  let hostname_and_port := Py.after_last 64 netloc in
  let '(before_bracket, have_open_br, bracketed) :=
    partition 91 hostname_and_port in
  if have_open_br then
    if Py.truthy before_bracket then true else
    let '(hostname, _, port) := partition 93 bracketed in
    if Py.truthy port && negb (Py.startswith port (Py.s ":")) then true
    else check_bracketed_host_raises hostname
  else
    let '(hostname, _, _) := partition 58 hostname_and_port in
    check_bracketed_host_raises hostname.

(** The code points whose NFKC form holds a slash, a question mark, a
    number sign, an at sign or a colon (Unicode 14): what [_checknetloc]
    looks for. *)
Definition nfkc_delimiter (c : N) : bool :=
  Py.mem c [8263; 8264; 8265; 8448; 8449; 8453; 8454; 10868; 65043; 65046;
            65109; 65110; 65119; 65131; 65283; 65295; 65306; 65311; 65312].

(** [urlsplit] raises on this netloc: a bracket without its partner, a
    bracketed host that is not an address, or a character that would turn
    into a delimiter. *)
Definition netloc_raises (netloc : str) : bool :=
  let opening := Py.mem 91 netloc in
  let closing := Py.mem 93 netloc in
  (opening && negb closing) || (closing && negb opening)
  || (opening && closing && check_bracketed_netloc_raises netloc)
  || existsb nfkc_delimiter netloc.

(** [urlsplit(url)], [urlparse(url)] raise. *)
Definition urlsplit_raises (url : str) : bool :=
  netloc_raises (netloc (urlparse url)).

(** [urljoin(base, url)] raises: both arguments are parsed, unless one of
    them is empty. *)
Definition urljoin_raises (base url : str) : bool :=
  Py.truthy base && Py.truthy url
  && (urlsplit_raises base || urlsplit_raises url).

End Url.

(** ** [os.path] (POSIX flavour) *)

Module OsPath.

(** [os.path.join(a, b)] *)
Definition join (a b : str) : str :=
  if Py.startswith b (Py.s "/") then b
  else if negb (Py.truthy a) || Py.endswith a (Py.s "/") then a ++ b
  else a ++ Py.s "/" ++ b.

(** [os.path.basename(p)] *)
Definition basename (p : str) : str := Py.after_last 47 p.

End OsPath.

(** ** HTTP messages *)

(** Response headers are a [requests] case-insensitive dictionary: the
    store is keyed by the lower-cased header name. *)
Abbreviation headers := (gmap str str).

Definition headers_get (h : headers) (name : str) : option str :=
  h !! Py.lower name.

(** What [_download_once] needs of a response: its headers and the body
    read to the end; what the page functions need: [response.text]. *)
Record response := {
  resp_headers : headers;
  resp_content : bytes;
  resp_text : str
}.

(** ** Pure helpers of [acts_downloader.py] *)

(** The extended form: the word filename, a star, optional blanks, an
    equals sign, optional blanks, a charset (one or more characters other
    than an apostrophe), an apostrophe, a language (zero or more such
    characters), an apostrophe, and the value: the group of one or more
    characters other than a semicolon.  Compiled with [re.I]. *)
Definition re_filename_ext : Re.regex :=
  Re.word_ci (Py.s "filename") ++
  [Re.Chr (Re.lit 42); Re.Star Re.ws; Re.Chr (Re.lit 61); Re.Star Re.ws;
   Re.Plus (Re.none_of [39]); Re.Chr (Re.lit 39);
   Re.Star (Re.none_of [39]); Re.Chr (Re.lit 39);
   Re.GroupPlus (Re.none_of [59])].

(** The quoted form: the word filename, optional blanks, an equals sign,
    optional blanks, and between two double quotes the group of one or more
    characters other than a double quote.  Compiled with [re.I]. *)
Definition re_filename_quoted : Re.regex :=
  Re.word_ci (Py.s "filename") ++
  [Re.Star Re.ws; Re.Chr (Re.lit 61); Re.Star Re.ws;
   Re.Chr (Re.lit 34); Re.GroupPlus (Re.none_of [34]); Re.Chr (Re.lit 34)].

(** The bare form: the word filename, optional blanks, an equals sign,
    optional blanks, and the group of one or more characters other than a
    semicolon.  Compiled with [re.I]. *)
Definition re_filename_bare : Re.regex :=
  Re.word_ci (Py.s "filename") ++
  [Re.Star Re.ws; Re.Chr (Re.lit 61); Re.Star Re.ws;
   Re.GroupPlus (Re.none_of [59])].

Definition _filename_from_cd (content_disposition : option str) : option str :=
  match content_disposition with
  | None => None
  | Some cd =>
      if negb (Py.truthy cd) then None else
      match Re.search_group1 re_filename_ext cd with
      | Some g => Some g
      | None =>
      match Re.search_group1 re_filename_quoted cd with
      | Some g => Some g
      | None =>
      match Re.search_group1 re_filename_bare cd with
      | Some g => Some (Py.strip g)
      | None => None
      end end end
  end.

Definition pdf_magic : bytes := Py.b "%PDF".

Definition _looks_like_pdf (content : bytes) (h : headers) : bool :=
  if bool_decide (take 4 content = pdf_magic) then true else
  let start := take 4 (Py.lstrip_bytes content) in
  if bool_decide (start = pdf_magic) then true else
  let ct := Py.lower (default [] (headers_get h (Py.s "Content-Type"))) in
  Py.contains ct (Py.s "pdf").

(** The character class of [_safe_dirname]: less-than, greater-than, colon,
    double quote, slash, backslash, vertical bar, question mark, star. *)
Definition forbidden_chars : str := Py.s "<>:" ++ [34] ++ Py.s "/\|?*".

Definition _safe_dirname (name : str) : str :=
  let sanitized := Py.strip (Re.sub_plus (Re.one_of forbidden_chars) (Py.s "_") name) in
  let sanitized := take 120 (Py.strip_chars (Py.s " .") sanitized) in
  Py.or_else sanitized (Py.s "untitled").

(** ** BeautifulSoup documents and CSS selection *)

Module Bs.

(** A parsed document.  [Text] is a [NavigableString] (or [CData]); [Other]
    stands for the strings [get_text] leaves out (comments, declarations,
    the contents of script and style elements).  Tag and attribute names
    are lower-case, as [html.parser] delivers them.  The [BeautifulSoup]
    object itself is the root tag, named [[document]], without
    attributes. *)
#[warnings="-register-all"] Inductive node :=
| Text (t : str)
| Other (t : str)
| Tag (name : str) (attrs : gmap str str) (children : list node).

(** An element of the program is a reference into the document: the child
    indices leading from the root to it.  Reading goes through the document
    as it is at that moment, so that a mutation of the tree is seen through
    every reference. *)
Abbreviation ref := (list nat).

Fixpoint node_at (t : node) (p : ref) : option node :=
  match p with
  | [] => Some t
  | i :: p' =>
      match t with
      | Tag _ _ ch => c ← ch !! i; node_at c p'
      | _ => None
      end
  end.

(** [el.name]; a string has no tag name. *)
Definition name_of (t : node) : str :=
  match t with Tag n _ _ => n | _ => [] end.

(** The test [el.name == name] on a tag. *)
Definition is_named (name : str) (t : node) : bool :=
  match t with Tag n _ _ => bool_decide (n = name) | _ => false end.

(** [el.get(attr)] *)
Definition get (t : node) (attr : str) : option str :=
  match t with Tag _ a _ => a !! attr | _ => None end.

(** [el.descendants], in document order, each with its reference relative
    to [el]. *)
Fixpoint descendants (t : node) : list (ref * node) :=
  match t with
  | Tag _ _ ch =>
      (fix go (i : nat) (l : list node) : list (ref * node) :=
         match l with
         | [] => []
         | c :: l' =>
             ([i], c) :: (prod_map (cons i) id <$> descendants c) ++ go (S i) l'
         end) 0%nat ch
  | _ => []
  end.

(** [el.get_text(strip=True)]: the text strings below [el], each stripped,
    the empty ones dropped, concatenated without separator. *)
Definition get_text_strip (t : node) : str :=
  concat (omap (λ '(_, d),
                 match d with
                 | Text x => let v := Py.strip x in
                             if Py.truthy v then Some v else None
                 | _ => None
                 end) (descendants t)).

(** [el.find(name)]: the first descendant tag of that name. *)
Definition find (t : node) (name : str) : option (ref * node) :=
  head (List.filter (λ '(_, d), is_named name d) (descendants t)).

(** The proper ancestors of the node at [p], nearest first, each with its
    reference. *)
Fixpoint ancestors (t : node) (p : ref) : list (ref * node) :=
  match p with
  | [] => []
  | i :: p' =>
      match t with
      | Tag _ _ ch =>
          match ch !! i with
          | Some c => (prod_map (cons i) id <$> ancestors c p') ++ [([], t)]
          | None => []
          end
      | _ => []
      end
  end.

(** [el.find_parent(name)]: the nearest proper ancestor of that name. *)
Definition find_parent (t : node) (p : ref) (name : str) : option (ref * node) :=
  head (List.filter (λ '(_, d), is_named name d) (ancestors t p)).

(** [el.append(child)] for the element at [p]: the mutated document. *)
Fixpoint append (p : ref) (child : node) (t : node) : node :=
  match t with
  | Tag n a ch =>
      match p with
      | [] => Tag n a (ch ++ [child])
      | i :: p' => Tag n a (alter (append p' child) i ch)
      end
  | _ => t
  end.

(** *** Selectors *)

(** An attribute test of a compound selector. *)
Inductive attr_test :=
| Has (attr : str)                 (* [attr] *)
| StartsWith (attr value : str)    (* [attr^=value] *)
| EndsWith (attr value : str)      (* [attr$=value] *)
| Contains (attr value : str).     (* [attr*=value] *)

(** A compound selector: an optional tag name, an optional id, classes and
    attribute tests. *)
Record compound := {
  c_tag : option str;
  c_id : option str;
  c_classes : list str;
  c_attrs : list attr_test
}.

(** A complex selector is a chain of compounds joined by the descendant
    combinator, outermost first; a selector list is a comma-separated list
    of them. *)
Abbreviation complex := (list compound).
Abbreviation selector_list := (list complex).

(** The class list of an element: its [class] attribute split on blanks. *)
Fixpoint words_from (cur : str) (x : str) : list str :=
  match x with
  | [] => if Py.truthy cur then [cur] else []
  | c :: x' =>
      if Py.isspace c
      then (if Py.truthy cur then [cur] else []) ++ words_from [] x'
      else words_from (cur ++ [c]) x'
  end.

Definition classes_of (t : node) : list str :=
  words_from [] (default [] (get t (Py.s "class"))).

(** The ends-with test is the search of the value followed by [$], which
    also accepts one line feed after the value. *)
Definition attr_matches (t : node) (a : attr_test) : bool :=
  match a with
  | Has attr => bool_decide (is_Some (get t attr))
  | StartsWith attr v =>
      match get t attr with Some x => Py.startswith x v | None => false end
  | EndsWith attr v =>
      match get t attr with
      | Some x => Py.endswith x v || Py.endswith x (v ++ [10])
      | None => false
      end
  | Contains attr v =>
      match get t attr with Some x => Py.contains x v | None => false end
  end.

Definition compound_matches (c : compound) (t : node) : bool :=
  match t with
  | Tag n _ _ =>
      match c_tag c with Some x => bool_decide (n = x) | None => true end
      && match c_id c with
         | Some i => bool_decide (default [] (get t (Py.s "id")) = i)
         | None => true
         end
      && forallb (λ k, bool_decide (k ∈ classes_of t)) (c_classes c)
      && forallb (attr_matches t) (c_attrs c)
  | _ => false
  end.

(** The compounds left of the subject, innermost first, against the
    ancestors, nearest first. *)
Fixpoint ancestors_match (cs : list compound) (anc : list node) : bool :=
  match cs with
  | [] => true
  | c :: cs' =>
      (fix go (anc : list node) : bool :=
         match anc with
         | [] => false
         | a :: anc' =>
             (compound_matches c a && ancestors_match cs' anc') || go anc'
         end) anc
  end.

Definition complex_matches (sel : complex) (anc : list node) (t : node) : bool :=
  match reverse sel with
  | [] => false
  | subject :: outer => compound_matches subject t && ancestors_match outer anc
  end.

(** [el.select(sel)], for [el] at [p] in the document [doc]: the tags
    below [el] matching one of the selectors, in document order, once each.
    Ancestors are taken in the whole document. *)
Definition select (doc : node) (p : ref) (sel : selector_list) : list ref :=
  match node_at doc p with
  | None => []
  | Some el =>
      omap (λ '(q, d),
             let anc := snd <$> ancestors doc (p ++ q) in
             if existsb (λ cx, complex_matches cx anc d) sel
             then Some (p ++ q) else None)
           (descendants el)
  end.

(** [el.select_one(sel)] *)
Definition select_one (doc : node) (p : ref) (sel : selector_list) : option ref :=
  head (select doc p sel).

(** Shorthands for writing compounds. *)
Definition tag (n : string) : compound :=
  {| c_tag := Some (Py.s n); c_id := None; c_classes := []; c_attrs := [] |}.
Definition class (k : string) : compound :=
  {| c_tag := None; c_id := None; c_classes := [Py.s k]; c_attrs := [] |}.
Definition with_id (c : compound) (i : string) : compound :=
  {| c_tag := c_tag c; c_id := Some (Py.s i); c_classes := c_classes c;
     c_attrs := c_attrs c |}.
Definition with_class (c : compound) (k : string) : compound :=
  {| c_tag := c_tag c; c_id := c_id c; c_classes := c_classes c ++ [Py.s k];
     c_attrs := c_attrs c |}.
Definition with_attr (c : compound) (a : attr_test) : compound :=
  {| c_tag := c_tag c; c_id := c_id c; c_classes := c_classes c;
     c_attrs := c_attrs c ++ [a] |}.

End Bs.

(** ** Effects: filesystem, console, logger and exceptions *)

(** What a run leaves behind, in the order it happens. *)
Inductive event :=
| EvGet (url : str)                      (* an HTTP GET was issued *)
| EvMakedirs (dir : str)                 (* [os.makedirs(dir, exist_ok=True)] *)
| EvWrite (path : str) (content : bytes) (* a file opened with [wb] and written *)
| EvPrint (line : str)                   (* [print] *)
| EvLogError (msg : str)                 (* [logger.error] *)
| EvLogWarning (msg : str).              (* [logger.warning] *)

(** The filesystem is a finite map from path strings to file contents: two
    paths name the same file exactly when they are the same string.
    Directories are not files of this map. *)
Record world := {
  files : gmap str bytes;
  trace : list event
}.

(** A computation returns, raises [requests.RequestException] (with the
    text the exception prints as), or raises the [ValueError] of
    [urllib.parse].  Two things stay outside the model.  The filesystem
    operations always succeed ([OSError] is not modelled), and a file is
    known by the string that names it.  And the URL a function of the
    module is called with is taken to be one that [urlsplit] accepts: only
    an href read from a page can make [urljoin] raise. *)
Inductive outcome (A : Type) :=
| Return (a : A)
| Raise (e : str)
| RaiseValueError.
Arguments Return {A} a.
Arguments Raise {A} e.
Arguments RaiseValueError {A}.

Definition M (A : Type) : Type := world → outcome A * world.

Definition ret {A} (a : A) : M A := λ w, (Return a, w).

Definition bind {A B} (m : M A) (k : A → M B) : M B :=
  λ w, match m w with
       | (Return a, w') => k a w'
       | (Raise e, w') => (Raise e, w')
       | (RaiseValueError, w') => (RaiseValueError, w')
       end.

(** [try: m  except requests.RequestException as e: handler e]; a
    [ValueError] passes through. *)
Definition try_except {A} (m : M A) (handler : str → M A) : M A :=
  λ w, match m w with
       | (Return a, w') => (Return a, w')
       | (Raise e, w') => handler e w'
       | (RaiseValueError, w') => (RaiseValueError, w')
       end.

(** [raise ValueError] *)
Definition raise_value_error {A} : M A := λ w, (RaiseValueError, w).

Notation "'let*' x := m 'in' k" := (bind m (λ x, k))
  (at level 10, x name, m at level 200, k at level 200, only parsing).
Notation "'let*' ' p := m 'in' k" := (bind m (λ p, k))
  (at level 10, p pattern, m at level 200, k at level 200, only parsing).

(** The world once the events [evs] have happened, the files untouched. *)
Definition after (w : world) (evs : list event) : world :=
  {| files := files w; trace := trace w ++ evs |}.

(** The world once [content] has been written at [path]. *)
Definition written (w : world) (path : str) (content : bytes) : world :=
  {| files := <[path := content]> (files w);
     trace := trace w ++ [EvWrite path content] |}.

Definition emit (ev : event) : M unit :=
  λ w, (Return tt, {| files := files w; trace := trace w ++ [ev] |}).

(** [os.path.exists(path)] *)
Definition path_exists (path : str) : M bool :=
  λ w, (Return (bool_decide (is_Some (files w !! path))), w).

(** [with open(path, "wb") as f: f.write(content)] *)
Definition write_file (path : str) (content : bytes) : M unit :=
  λ w, (Return tt, {| files := <[path := content]> (files w);
                      trace := trace w ++ [EvWrite path content] |}).

(** [for x in xs: body x] *)
Fixpoint for_each {A} (xs : list A) (body : A → M unit) : M unit :=
  match xs with
  | [] => ret tt
  | x :: xs' => let* _ := body x in for_each xs' body
  end.

(** The text [logger.error] receives in the three page functions. *)
Definition fetch_failed (url e : str) : str :=
  Py.s "Failed to fetch RCL page " ++ url ++ Py.s ": " ++ e.

(** The outcome of [requests.get] followed by [raise_for_status] (and, for
    a download, by reading the body): a response, or a
    [RequestException]. *)
Inductive http_result :=
| HttpOk (r : response)
| HttpError (e : str).

(** One of the dictionaries the link normaliser emits. *)
Record record := {
  rec_title : str;
  rec_link : str
}.

(** What [get_title_from_url] returns: a string, or the empty list of its
    exception handler. *)
Inductive title_value :=
| TitleText (t : str)
| TitleEmptyList.

(** Passing a [title_value] where [download_file] expects an optional
    string: the empty list is falsy, as [None] is. *)
Definition as_optional (t : title_value) : option str :=
  match t with TitleText x => Some x | TitleEmptyList => None end.

(** [x or y] for an optional string [x]. *)
Definition opt_or (x : option str) (y : str) : str :=
  Py.or_else (default [] x) y.

(** [if x:] for an optional string. *)
Definition opt_truthy (x : option str) : bool := Py.truthy (default [] x).

(** ** The functions of [acts_downloader.py] *)

Section Program.

(** The collaborators: the HTTP transport ([requests.get] with the given
    request headers, then [raise_for_status]) and the HTML parser
    ([BeautifulSoup(text, "html.parser")]). *)
Variable http_get : str → gmap str str → http_result.
Variable parse_html : str → Bs.node.

Definition HEADERS : gmap str str :=
  {[ Py.s "User-Agent" :=
       Py.s ("Mozilla/5.0 (Windows NT 10.0; Win64; x64) "
             ++ "AppleWebKit/537.36 (KHTML, like Gecko) "
             ++ "Chrome/91.0.4472.124 Safari/537.36") ]}.

(** What the transport answers: the response, or the exception raised. *)
Definition transport (url : str) (hdrs : gmap str str) : M response :=
  λ w, match http_get url hdrs with
       | HttpOk r => (Return r, w)
       | HttpError e => (Raise e, w)
       end.

(** [requests.get(url, headers=hdrs, ...)] and [raise_for_status()] *)
Definition requests_get (url : str) (hdrs : gmap str str) : M response :=
  let* _ := emit (EvGet url) in transport url hdrs.

(** The selectors the module uses. *)
Definition sel_cbp_tmlabel : Bs.selector_list :=
  [[Bs.tag "li"; Bs.class "cbp_tmlabel"]].

Definition sel_rcl_acts : Bs.selector_list :=
  [[Bs.tag "li"; Bs.class "cbp_tmlabel"; Bs.tag "ul"; Bs.class "clearbox";
    Bs.tag "ul"; Bs.tag "ul"; Bs.tag "li"]].

Definition sel_druk : Bs.selector_list := [[Bs.class "druk"]].

Definition href_pdf : Bs.attr_test := Bs.EndsWith (Py.s "href") (Py.s ".pdf").

Definition sel_dziennik : Bs.selector_list :=
  [ [Bs.tag "td"; Bs.tag "p"; Bs.with_attr (Bs.tag "a") href_pdf];
    [Bs.with_attr (Bs.with_attr (Bs.tag "a")
                     (Bs.StartsWith (Py.s "href") (Py.s "/DU/"))) href_pdf];
    [Bs.with_attr (Bs.with_attr (Bs.tag "a")
                     (Bs.Contains (Py.s "href") (Py.s "/DU/"))) href_pdf] ].

Definition main_content : Bs.compound := Bs.with_id (Bs.tag "article") "main-content".

Definition a_file_download : Bs.compound :=
  Bs.with_attr (Bs.with_class (Bs.tag "a") "file-download") (Bs.Has (Py.s "href")).

Definition a_attachment : Bs.compound :=
  Bs.with_attr (Bs.tag "a") (Bs.Contains (Py.s "href") (Py.s "/attachment/")).

Definition a_pdf : Bs.compound := Bs.with_attr (Bs.tag "a") href_pdf.

Definition sel_finanse_1 : Bs.selector_list := [[main_content; a_file_download]].
Definition sel_finanse_2 : Bs.selector_list :=
  [[main_content; a_attachment]; [main_content; a_pdf]].
Definition sel_finanse_3 : Bs.selector_list :=
  [[a_file_download]; [a_attachment]; [a_pdf]].

Definition sel_a_href : Bs.selector_list :=
  [[Bs.with_attr (Bs.tag "a") (Bs.Has (Py.s "href"))]].

Definition find_articles (url : str) (soup : Bs.node) : list Bs.ref :=
  let host := Py.lower (Url.netloc (Url.urlparse url)) in
  if Py.contains host (Py.s "legislacja.rcl.gov.pl")
  then Bs.select soup [] sel_cbp_tmlabel
  else [].

(** The body of the loop shared, word for word, by [fetch_subpages] and
    [downloadable_acts]: the record of one element, or nothing where the
    loop says [continue] or skips the [append]. *)
Definition anchor_record (base : str) (soup : Bs.node) (article : Bs.ref)
  : option record :=
  el ← Bs.node_at soup article;
  a ← (if Bs.is_named (Py.s "a") el && opt_truthy (Bs.get el (Py.s "href"))
       then Some article
       else Bs.select_one soup article sel_a_href);
  a_el ← Bs.node_at soup a;
  href ← Bs.get a_el (Py.s "href");
  if negb (Py.truthy href) then None else
  let link := Url.urljoin base href in
  let title := Bs.get_text_strip a_el in
  if Py.truthy title && Py.truthy link
  then Some {| rec_title := title; rec_link := link |}
  else None.

Definition link_records (base : str) (soup : Bs.node) (articles : list Bs.ref)
  : list record :=
  omap (anchor_record base soup) articles.

(** The href the loop hands to [urljoin] for one element, when it gets
    that far: the non-empty href of the anchor chosen. *)
Definition anchor_href (soup : Bs.node) (article : Bs.ref) : option str :=
  el ← Bs.node_at soup article;
  a ← (if Bs.is_named (Py.s "a") el && opt_truthy (Bs.get el (Py.s "href"))
       then Some article
       else Bs.select_one soup article sel_a_href);
  a_el ← Bs.node_at soup a;
  href ← Bs.get a_el (Py.s "href");
  if negb (Py.truthy href) then None else Some href.

(** The loop itself, [for article in articles: ...], on the list
    [news_list] built so far: [urljoin] is called before the title is
    looked at, and its [ValueError] ends the loop. *)
Fixpoint news_loop (base : str) (soup : Bs.node) (articles : list Bs.ref)
    (news_list : list record) : M (list record) :=
  match articles with
  | [] => ret news_list
  | article :: articles' =>
      match anchor_href soup article with
      | None => news_loop base soup articles' news_list
      | Some href =>
          if Url.urljoin_raises base href then raise_value_error else
          news_loop base soup articles'
            (news_list ++ option_list (anchor_record base soup article))
      end
  end.

Definition fetch_subpages (main_url : str) : M (list record) :=
  try_except
    (let* response := requests_get main_url HEADERS in
     let soup := parse_html (resp_text response) in
     let articles := find_articles main_url soup in
     news_loop main_url soup articles [])
    (λ e,
     let* _ := emit (EvLogError (fetch_failed main_url e)) in
     ret []).

(** The label [find_acts] recovers for a DZIENNIK anchor without text. *)
Definition dziennik_label (soup : Bs.node) (a : Bs.ref) (el : Bs.node) : str :=
  let label : option str := None in
  let label :=
    match Bs.find_parent soup a (Py.s "p") with
    | Some (_, p) =>
        match Bs.find p (Py.s "b") with
        | Some (_, b) =>
            if Py.truthy (Bs.get_text_strip b)
            then Some (Bs.get_text_strip b) else label
        | None => label
        end
    | None => label
    end in
  let label :=
    if negb (opt_truthy label) then
      match Bs.find el (Py.s "img") with
      | Some (_, img) =>
          if opt_truthy (Bs.get img (Py.s "title"))
          then Bs.get img (Py.s "title") else Bs.get img (Py.s "alt")
      | None => label
      end
    else label in
  let label :=
    if negb (opt_truthy label)
    then Some (Py.after_last 47 (default [] (Bs.get el (Py.s "href"))))
    else label in
  default [] label.

(** One turn of the DZIENNIK loop, on the document as it is and the list
    [fixed] built so far. *)
Definition fix_anchor (st : Bs.node * list Bs.ref) (a : Bs.ref)
  : Bs.node * list Bs.ref :=
  let '(soup, fixed) := st in
  match Bs.node_at soup a with
  | None => st
  | Some el =>
      if negb (opt_truthy (Bs.get el (Py.s "href"))) then st else
      let soup :=
        if negb (Py.truthy (Bs.get_text_strip el))
        then Bs.append a (Bs.Text (Py.s " " ++ dziennik_label soup a el)) soup
        else soup in
      (soup, fixed ++ [a])
  end.

(** [find_acts] returns the elements found; since the DZIENNIK branch
    appends text to anchors of [soup], the document after the call is
    returned with them. *)
Definition find_acts (url : str) (soup : Bs.node) : list Bs.ref * Bs.node :=
  let host := Py.lower (Url.netloc (Url.urlparse url)) in
  let path := Py.lower (Url.path (Url.urlparse url)) in
  if Py.contains host (Py.s "legislacja.rcl.gov.pl") then
    (Bs.select soup [] sel_rcl_acts, soup)
  else if Py.contains host (Py.s "sejm.gov.pl") then
    (Bs.select soup [] sel_druk, soup)
  else if Py.contains host (Py.s "dziennikustaw.gov.pl") then
    let anchors := Bs.select soup [] sel_dziennik in
    let '(soup, fixed) := foldl fix_anchor (soup, []) anchors in
    (fixed, soup)
  else if Py.endswith host (Py.s "gov.pl")
          && Py.contains path (Py.s "/web/finanse") then
    let nodes := Bs.select soup [] sel_finanse_1 in
    if Py.truthy nodes then (nodes, soup) else
    let nodes := Bs.select soup [] sel_finanse_2 in
    if Py.truthy nodes then (nodes, soup) else
    (Bs.select soup [] sel_finanse_3, soup)
  else ([], soup).

Definition downloadable_acts (url : str) : M (list record) :=
  try_except
    (let* response := requests_get url HEADERS in
     let soup := parse_html (resp_text response) in
     let '(articles, soup) := find_acts url soup in
     news_loop url soup articles [])
    (λ e,
     let* _ := emit (EvLogError (fetch_failed url e)) in
     ret []).

(** [_download_once]: the response and its body read to the end. *)
Definition _download_once (url : str) (hdrs : gmap str str)
  : M (response * bytes) :=
  let* r := requests_get url hdrs in
  ret (r, resp_content r).

(** The directory of a download: [folder], then the sanitised title and
    subtitle where they are given and not empty. *)
Definition download_dir (folder : str) (title subtitle : option str) : str :=
  let base_dir := folder in
  let base_dir :=
    if opt_truthy title
    then OsPath.join base_dir (_safe_dirname (default [] title))
    else base_dir in
  let base_dir :=
    if opt_truthy subtitle
    then OsPath.join base_dir (_safe_dirname (default [] subtitle))
    else base_dir in
  base_dir.

(** The request headers of a download. *)
Definition download_headers (referer : option str) : gmap str str :=
  let req_headers := HEADERS in
  let req_headers :=
    <[Py.s "Accept" :=
        Py.s "application/pdf,application/octet-stream;q=0.9,*/*;q=0.8"]>
      req_headers in
  if opt_truthy referer
  then <[Py.s "Referer" := default [] referer]> req_headers
  else req_headers.

(** The file name of the first response (line 211). *)
Definition primary_filename (url : str) (resp : response) : str :=
  Py.or_else
    (opt_or (_filename_from_cd
               (headers_get (resp_headers resp) (Py.s "Content-Disposition")))
            (OsPath.basename (Url.path (Url.urlparse url))))
    (Py.s "pobrany_plik").

(** The file name of an alternate response (line 227). *)
Definition alternate_filename (filename : str) (resp2 : response) : str :=
  opt_or (_filename_from_cd
            (headers_get (resp_headers resp2) (Py.s "Content-Disposition")))
         filename.

(** The condition under which alternates are tried, apart from the sniff. *)
Definition is_gov_attachment (url : str) : bool :=
  let p := Url.urlparse url in
  Py.endswith (Url.netloc p) (Py.s "gov.pl")
  && Py.contains (Url.path p) (Py.s "/attachment/").

(** The list [candidates]. *)
Definition candidates (url : str) : list str :=
  let candidates := [] in
  let candidates := candidates ++ [Py.rstrip_chars (Py.s "/") url ++ Py.s "/download"] in
  let candidates :=
    candidates ++ [url ++ (if Py.contains url (Py.s "?")
                           then Py.s "&download=1" else Py.s "?download=1")] in
  candidates.

(** The [try] block for one alternate: the path to return from
    [download_file], or nothing when the loop goes on. *)
Definition try_alternate (base_dir filename : str) (req_headers : gmap str str)
    (alt : str) : M (option str) :=
  try_except
    (let* '(resp2, content2) := _download_once alt req_headers in
     if _looks_like_pdf content2 (resp_headers resp2) then
       let filename2 := alternate_filename filename resp2 in
       let dest_path := OsPath.join base_dir filename2 in
       let* present := path_exists dest_path in
       if present then ret (Some dest_path) else
       let* _ := write_file dest_path content2 in
       ret (Some dest_path)
     else ret None)
    (λ _, ret None).

(** [for alt in candidates: ...] *)
Fixpoint try_alternates (base_dir filename : str) (req_headers : gmap str str)
    (alts : list str) : M (option str) :=
  match alts with
  | [] => ret None
  | alt :: alts' =>
      let* r := try_alternate base_dir filename req_headers alt in
      match r with
      | Some dest_path => ret (Some dest_path)
      | None => try_alternates base_dir filename req_headers alts'
      end
  end.

Definition download_file (url folder : str) (title subtitle referer : option str)
  : M str :=
  let base_dir := download_dir folder title subtitle in
  let* _ := emit (EvMakedirs base_dir) in
  let req_headers := download_headers referer in
  let* '(resp, content) := _download_once url req_headers in
  let filename := primary_filename url resp in
  let dest_path := OsPath.join base_dir filename in
  let* present := path_exists dest_path in
  if present then ret dest_path else
  let* r := (if negb (_looks_like_pdf content (resp_headers resp))
          && is_gov_attachment url
       then try_alternates base_dir filename req_headers (candidates url)
       else ret None) in
  match r with
  | Some dest_path => ret dest_path
  | None =>
      let* _ := write_file dest_path content in
      ret dest_path
  end.

Definition get_title_from_url (url : str) : M title_value :=
  try_except
    (let* response := requests_get url HEADERS in
     let soup := parse_html (resp_text response) in
     let host := Py.lower (Url.netloc (Url.urlparse url)) in
     let title : option Bs.ref := None in
     let title :=
       if Py.contains host (Py.s "legislacja.rcl.gov.pl")
       then Bs.select_one soup [] [[Bs.class "rcl-title"]] else title in
     let title :=
       if Py.contains host (Py.s "sejm.gov.pl")
       then Bs.select_one soup [] [[Bs.class "h2"]] else title in
     let title :=
       if Py.contains host (Py.s "dziennikustaw.gov.pl")
          || Py.contains host (Py.s "gov.pl/web/finanse")
       then fst <$> Bs.find soup (Py.s "h2")
       else fst <$> Bs.find soup (Py.s "title") in
     ret (TitleText
             match title ≫= Bs.node_at soup with
             | Some el => Bs.get_text_strip el
             | None => Py.s "untitled"
             end))
    (λ e,
     let* _ := emit (EvLogError (fetch_failed url e)) in
     ret TitleEmptyList).

Definition found_document (act : record) : event :=
  EvPrint (Py.s " - Found document: " ++ rec_title act ++ Py.s " at "
           ++ rec_link act).

Definition get_acts (url : str) : M unit :=
  let host := Py.lower (Url.netloc (Url.urlparse url)) in
  let path := Py.lower (Url.path (Url.urlparse url)) in
  let* _ :=
  (if Py.contains host (Py.s "legislacja.rcl.gov.pl") then
     let* title := get_title_from_url url in
     let* subpages := fetch_subpages url in
     for_each subpages (λ subpage,
       let* acts := downloadable_acts (rec_link subpage) in
       for_each acts (λ act,
         let* _ := emit (found_document act) in
         let* _ := download_file (rec_link act) (Py.s "legal_acts")
                                 (as_optional title)
                                 (Some (rec_title subpage)) None in
         ret tt))
   else ret tt) in
  if Py.contains host (Py.s "sejm.gov.pl")
     || Py.contains host (Py.s "dziennikustaw.gov.pl")
     || (Py.endswith host (Py.s "gov.pl")
         && Py.contains path (Py.s "/web/finanse"))
  then
    let* title := get_title_from_url url in
    let* acts := downloadable_acts url in
    for_each acts (λ act,
      let link := rec_link act in
      let* _ := emit (found_document act) in
      let* _ := download_file link (Py.s "legal_acts") (as_optional title)
                              None None in
      ret tt)
  else
    emit (EvLogWarning (Py.s "Unsupported host for acts downloading: " ++ host)).

End Program.

(** ** Vocabulary of the statements *)

(** An alternate passes when its fetch answers and the body fetched passes
    the sniff; the response is then the one to save. *)
Definition alternate_passes (http_get : str → gmap str str → http_result)
    (hdrs : gmap str str) (alt : str) : option response :=
  match http_get alt hdrs with
  | HttpOk resp2 =>
      if _looks_like_pdf (resp_content resp2) (resp_headers resp2)
      then Some resp2 else None
  | HttpError _ => None
  end.

(** Saving [content] at [path] unless a file is already there. *)
Definition saved (w : world) (path : str) (content : bytes) : world :=
  if bool_decide (is_Some (files w !! path)) then w
  else written w path content.

(** The events of a run: what the trace of [w'] adds to that of [w]. *)
Definition new_events (w w' : world) : list event :=
  drop (length (trace w)) (trace w').

Definition is_write (ev : event) : bool :=
  match ev with EvWrite _ _ => true | _ => false end.

Definition is_warning (ev : event) : bool :=
  match ev with EvLogWarning _ => true | _ => false end.

(** A computation whose events all satisfy [P], from whatever world it is
    run. *)
Definition emits_only (P : event → Prop) {A} (m : M A) : Prop :=
  ∀ w, ∃ evs, trace (snd (m w)) = trace w ++ evs ∧ Forall P evs.

Definition is_get (ev : event) : bool :=
  match ev with EvGet _ => true | _ => false end.

(** [path] names an entry of the directory [dir] itself: [dir], a slash,
    and a name that holds no slash and is neither dot nor dot-dot. *)
Definition direct_child (dir path : str) : bool :=
  let prefix := dir ++ Py.s "/" in
  Py.startswith path prefix
  && (let name := drop (length prefix) path in
      Py.truthy name && negb (Py.mem 47 name)
      && negb (bool_decide (name = Py.s ".")) && negb (bool_decide (name = Py.s ".."))).

(** [dir] is [folder], an entry of it, or an entry of an entry of it. *)
Definition within_two_levels (folder dir : str) : Prop :=
  dir = folder
  ∨ direct_child folder dir = true
  ∨ ∃ mid, direct_child folder mid = true ∧ direct_child mid dir = true.

(** The events allowed: any, except the creation of a directory that is
    not within two levels of legal_acts. *)
Definition inside_legal_acts (ev : event) : Prop :=
  ∀ dir, ev = EvMakedirs dir → within_two_levels (Py.s "legal_acts") dir.

(** The files of [w'] are those of [w], each with the content it had, and
    possibly new ones, each holding the body of a response the transport
    gives. *)
Definition only_adds_downloads (http_get : str → gmap str str → http_result)
    (w w' : world) : Prop :=
  files w ⊆ files w'
  ∧ ∀ path c, files w' !! path = Some c →
      files w !! path = Some c
      ∨ ∃ url hdrs resp, http_get url hdrs = HttpOk resp ∧ resp_content resp = c.

(** A computation that moves the world along [R], whatever its outcome. *)
Definition moves_along (R : world → world → Prop) {A} (m : M A) : Prop :=
  ∀ w, R w (snd (m w)).

(** Two nodes that differ at most by their children: tags of one name
    with the same attributes, or strings with the same text. *)
Definition same_tag (t t' : Bs.node) : Prop :=
  match t, t' with
  | Bs.Tag n a _, Bs.Tag n' a' _ => n = n' ∧ a = a'
  | Bs.Text x, Bs.Text y => x = y
  | Bs.Other x, Bs.Other y => x = y
  | _, _ => False
  end.

(** Every node of [doc] is found at the same place in [doc'], changed at
    most in its children. *)
Definition keeps_nodes (doc doc' : Bs.node) : Prop :=
  ∀ p el, Bs.node_at doc p = Some el →
          ∃ el', Bs.node_at doc' p = Some el' ∧ same_tag el el'.

(** A computation that has nothing left to write once it has returned:
    run again on files that include those its first run left, it returns
    the same value and only adds events to the trace, none of them a
    write. *)
Definition settles {A} (m : M A) : Prop :=
  ∀ w a w1, m w = (Return a, w1) →
  ∀ w2, files w1 ⊆ files w2 →
  ∃ evs, m w2 = (Return a, after w2 evs)
         ∧ Forall (λ ev, is_write ev = false) evs.

(** The turn of the loop for [article] raises: [urljoin] rejects the href
    it is handed. *)
Definition href_raises (base : str) (soup : Bs.node) (article : Bs.ref) : bool :=
  match anchor_href soup article with
  | Some href => Url.urljoin_raises base href
  | None => false
  end.

(** What the loop over [articles] ends with: the records of the anchors,
    unless [urljoin] raises on one of them. *)
Definition listing (base : str) (soup : Bs.node) (articles : list Bs.ref)
  : outcome (list record) :=
  if existsb (href_raises base soup) articles then RaiseValueError
  else Return (link_records base soup articles).

(** A run of the computation adds events to the trace, and when it raises
    a [RequestException], [Q] holds of the exception and of the events
    added. *)
Definition raises_as (Q : str → list event → Prop) {A} (m : M A) : Prop :=
  ∀ w, ∃ evs, trace (snd (m w)) = trace w ++ evs
              ∧ ∀ e, fst (m w) = Raise e → Q e evs.

(** [act] is a record of the list of acts of the page at [page_url]. *)
Definition listed_on (http_get : str → gmap str str → http_result)
    (parse_html : str → Bs.node) (page_url : str) (act : record) : Prop :=
  ∃ page, http_get page_url HEADERS = HttpOk page
    ∧ act ∈ link_records page_url
              (snd (find_acts page_url (parse_html (resp_text page))))
              (fst (find_acts page_url (parse_html (resp_text page)))).

(** [subpage] is a record of the list of subpages of the page at
    [main_url]. *)
Definition subpage_of (http_get : str → gmap str str → http_result)
    (parse_html : str → Bs.node) (main_url : str) (subpage : record) : Prop :=
  ∃ page, http_get main_url HEADERS = HttpOk page
    ∧ subpage ∈ link_records main_url (parse_html (resp_text page))
                  (find_articles main_url (parse_html (resp_text page))).

(** [act] is a document a run of [get_acts url] can reach: listed on the
    page of [url], or on a subpage listed there. *)
Definition document_of (http_get : str → gmap str str → http_result)
    (parse_html : str → Bs.node) (url : str) (act : record) : Prop :=
  listed_on http_get parse_html url act
  ∨ ∃ subpage, subpage_of http_get parse_html url subpage
               ∧ listed_on http_get parse_html (rec_link subpage) act.

(** The events of a raising run end as follows: a document among [acts]
    is announced, its directory made and its link fetched, and that fetch
    raises the exception. *)
Definition ends_with_document (http_get : str → gmap str str → http_result)
    (acts : record → Prop) (e : str) (evs : list event) : Prop :=
  ∃ act pre dir,
    acts act
    ∧ http_get (rec_link act) (download_headers None) = HttpError e
    ∧ evs = pre ++ [found_document act; EvMakedirs dir; EvGet (rec_link act)].

(** [doc'] is [doc] with text appended to elements among [anchors] and
    nothing else changed: every node of [doc] is at its place in [doc'],
    and a node of [doc'] at a place where [doc] has none is a string, child
    of one of the [anchors]. *)
Definition appends_text_to (anchors : list Bs.ref) (doc doc' : Bs.node) : Prop :=
  keeps_nodes doc doc'
  ∧ ∀ p el', Bs.node_at doc' p = Some el' → Bs.node_at doc p = None →
      ∃ x q i, el' = Bs.Text x ∧ p = q ++ [i] ∧ q ∈ anchors.

(** [seg] is the last segment of [x], a string cut at its slashes: it
    holds no slash, and is all of [x] or what follows a slash of [x]. *)
Definition last_segment_of (x seg : str) : Prop :=
  ¬ 47 ∈ seg ∧ (x = seg ∨ ∃ pre, x = pre ++ [47] ++ seg).

(** The bytes [bytes.lstrip()] takes for whitespace: space, tab, line
    feed, vertical tab, form feed, carriage return. *)
Definition ascii_whitespace : list byte := [x20; x09; x0a; x0b; x0c; x0d].

(** *** Names on the disk

    The world keeps the files and the history of a run; directories are
    those above a file and those the run has made.  The predicates below
    tell when [os.makedirs(base_dir, exist_ok=True)] followed by
    [open(os.path.join(base_dir, name), "wb")] reach a file, and
    [os.path.exists] of that path tells whether a file is there. *)






(** The descendants of the children [l] of a tag, the first of which has
    index [i]: what [Bs.descendants] computes for the tag with [i = 0]. *)
Fixpoint descendants_from (i : nat) (l : list Bs.node) : list (Bs.ref * Bs.node) :=
  match l with
  | [] => []
  | c :: l' =>
      ([i], c) :: (prod_map (cons i) id <$> Bs.descendants c)
      ++ descendants_from (S i) l'
  end.

(** ** Sample inputs *)

Module Sample.

(** A world with no file and no history. *)
Definition empty_world : world := {| files := ∅; trace := [] |}.

(** A Content-Disposition value carrying the extended and the quoted form,
    in that order and in the opposite one. *)
Definition cd_both : str :=
  Py.s "attachment; filename*=UTF-8''a.pdf; filename=" ++ [34]
  ++ Py.s "b.pdf" ++ [34].

Definition cd_both_swapped : str :=
  Py.s "attachment; filename=" ++ [34] ++ Py.s "b.pdf" ++ [34]
  ++ Py.s "; filename*=UTF-8''a.pdf".

(** A response with the given Content-Disposition header and body. *)
Definition response_with_cd (cd : str) (body : bytes) : response :=
  {| resp_headers := {[ Py.s "content-disposition" := cd ]};
     resp_content := body;
     resp_text := [] |}.


(** A document without content, and the parser that always yields it. *)
Definition blank_page : Bs.node := Bs.Tag (Py.s "[document]") ∅ [].


(** The title of the DZIENNIK scenario; its eighth letter is U+0105. *)
Definition rozporzadzenie : str := Py.s "Rozporz" ++ [261] ++ Py.s "dzenie".

(** The document of the scenario: a paragraph holding a bold title, a blank
    and an anchor without text. *)
Definition dziennik_page : Bs.node :=
  Bs.Tag (Py.s "[document]") ∅
    [Bs.Tag (Py.s "p") ∅
       [Bs.Tag (Py.s "b") ∅ [Bs.Text rozporzadzenie];
        Bs.Text (Py.s " ");
        Bs.Tag (Py.s "a") {[ Py.s "href" := Py.s "/DU/2024/123.pdf" ]} []]].

(** A document with an element that holds no anchor, an anchor whose text
    is blank, and a well-formed anchor. *)
Definition mixed_page : Bs.node :=
  Bs.Tag (Py.s "[document]") ∅
    [Bs.Tag (Py.s "div") ∅ [Bs.Text (Py.s "no link here")];
     Bs.Tag (Py.s "a") {[ Py.s "href" := Py.s "/DU/2024/1.pdf" ]}
       [Bs.Text (Py.s "  ")];
     Bs.Tag (Py.s "div") ∅
       [Bs.Tag (Py.s "a") {[ Py.s "href" := Py.s "/DU/2024/2.pdf" ]}
          [Bs.Text (Py.s " Ustawa ")]]].

(** A document whose anchor has no text and no bold neighbour, but an
    image with an alt attribute. *)
Definition image_page : Bs.node :=
  Bs.Tag (Py.s "[document]") ∅
    [Bs.Tag (Py.s "p") ∅
       [Bs.Tag (Py.s "a") {[ Py.s "href" := Py.s "/DU/2024/77.pdf" ]}
          [Bs.Tag (Py.s "img") {[ Py.s "alt" := Py.s "Dz.U. 2024 poz. 77" ]} []]]].

(** A document whose anchor has no text, no bold neighbour and no image. *)
Definition bare_page : Bs.node :=
  Bs.Tag (Py.s "[document]") ∅
    [Bs.Tag (Py.s "td") ∅
       [Bs.Tag (Py.s "a") {[ Py.s "href" := Py.s "/DU/2024/123.pdf" ]} []]].


Definition pdf_act : response :=
  {| resp_headers :=
       {[ Py.s "content-disposition" := Py.s "attachment; filename=act.pdf" ]};
     resp_content := Py.b "%PDF-1.7 act";
     resp_text := [] |}.

Definition attachment_url : str := Py.s "https://www.gov.pl/attachment/42".



(** A project of the RCL portal: the project page with one timeline entry,
    the page of that entry with one document, and the document. *)
Definition rcl_url : str := Py.s "https://legislacja.rcl.gov.pl/projekt/12400101".

Definition rcl_stage_url : str :=
  Py.s "https://legislacja.rcl.gov.pl/projekt/12400101/katalog/1".

Definition rcl_document_url : str :=
  Py.s "https://legislacja.rcl.gov.pl/docs/2/12400101/dokument1.pdf".

Definition rcl_project_page : Bs.node :=
  Bs.Tag (Py.s "[document]") ∅
    [Bs.Tag (Py.s "title") ∅ [Bs.Text (Py.s "Projekt ustawy")];
     Bs.Tag (Py.s "ul") ∅
       [Bs.Tag (Py.s "li") ∅
          [Bs.Tag (Py.s "div") {[ Py.s "class" := Py.s "cbp_tmlabel" ]}
             [Bs.Tag (Py.s "a")
                {[ Py.s "href" := Py.s "/projekt/12400101/katalog/1" ]}
                [Bs.Text (Py.s "Uzgodnienia")]]]]].

Definition rcl_stage_page : Bs.node :=
  Bs.Tag (Py.s "[document]") ∅
    [Bs.Tag (Py.s "li") ∅
       [Bs.Tag (Py.s "div") {[ Py.s "class" := Py.s "cbp_tmlabel" ]}
          [Bs.Tag (Py.s "ul") ∅
             [Bs.Tag (Py.s "li") {[ Py.s "class" := Py.s "clearbox" ]}
                [Bs.Tag (Py.s "ul") ∅
                   [Bs.Tag (Py.s "li") ∅
                      [Bs.Tag (Py.s "ul") ∅
                         [Bs.Tag (Py.s "li") ∅
                            [Bs.Tag (Py.s "a")
                               {[ Py.s "href" :=
                                    Py.s "/docs/2/12400101/dokument1.pdf" ]}
                               [Bs.Text (Py.s "Projekt")]]]]]]]]]].

Definition rcl_transport (url : str) (hdrs : gmap str str) : http_result :=
  if bool_decide (url = rcl_url) then
    HttpOk {| resp_headers := ∅; resp_content := []; resp_text := Py.s "project" |}
  else if bool_decide (url = rcl_stage_url) then
    HttpOk {| resp_headers := ∅; resp_content := []; resp_text := Py.s "stage" |}
  else if bool_decide (url = rcl_document_url) then
    HttpOk {| resp_headers := {[ Py.s "content-type" := Py.s "application/pdf" ]};
              resp_content := Py.b "%PDF-1.7 projekt";
              resp_text := [] |}
  else HttpError (Py.s "404 Client Error").

Definition rcl_parse (text : str) : Bs.node :=
  if bool_decide (text = Py.s "project") then rcl_project_page
  else if bool_decide (text = Py.s "stage") then rcl_stage_page
  else blank_page.

(** A variant: the [/download] form is refused, the [download=1] form
    answers with a PDF that carries no file name. *)
Definition pdf_unnamed : response :=
  {| resp_headers := {[ Py.s "content-type" := Py.s "application/pdf" ]};
     resp_content := Py.b "%PDF-1.4 unnamed";
     resp_text := [] |}.


(** A server that names its error page and serves the document, without
    a name, under the [/download] form. *)
Definition named_error : response :=
  {| resp_headers :=
       {[ Py.s "content-type" := Py.s "text/html";
          Py.s "content-disposition" := Py.s "attachment; filename=err.html" ]};
     resp_content := Py.b "<html>error</html>";
     resp_text := [] |}.

Definition named_error_transport (url : str) (hdrs : gmap str str) : http_result :=
  if bool_decide (url = attachment_url) then HttpOk named_error
  else if bool_decide (url = attachment_url ++ Py.s "/download")
  then HttpOk pdf_unnamed
  else HttpError (Py.s "404 Client Error").

(** A server that never names its files, and a URL without a last path
    segment. *)
Definition unnamed_transport (url : str) (hdrs : gmap str str) : http_result :=
  HttpOk pdf_unnamed.

Definition root_url : str := Py.s "https://www.gov.pl/".


(** A server that names its file with a path that climbs out of the
    directory. *)
Definition climbing_cd : str :=
  Py.s "attachment; filename=" ++ [34] ++ Py.s "../../evil.pdf" ++ [34].

Definition climbing_transport (url : str) (hdrs : gmap str str) : http_result :=
  HttpOk (response_with_cd climbing_cd (Py.b "%PDF-1.7 evil")).

(** A list of prints of the SEJM site with two documents, served by a
    host whose documents are out of reach. *)
Definition sejm_url : str := Py.s "https://www.sejm.gov.pl/Sejm10.nsf/druki.xsp".

Definition sejm_page : Bs.node :=
  Bs.Tag (Py.s "[document]") ∅
    [Bs.Tag (Py.s "title") ∅ [Bs.Text (Py.s "Druki sejmowe")];
     Bs.Tag (Py.s "a")
       {[ Py.s "class" := Py.s "druk"; Py.s "href" := Py.s "/druk1.pdf" ]}
       [Bs.Text (Py.s "Druk nr 1")];
     Bs.Tag (Py.s "a")
       {[ Py.s "class" := Py.s "druk"; Py.s "href" := Py.s "/druk2.pdf" ]}
       [Bs.Text (Py.s "Druk nr 2")]].

Definition sejm_parse (text : str) : Bs.node := sejm_page.

Definition sejm_transport (url : str) (hdrs : gmap str str) : http_result :=
  if bool_decide (url = sejm_url) then
    HttpOk {| resp_headers := ∅; resp_content := []; resp_text := Py.s "druki" |}
  else HttpError (Py.s "503 Server Error").

(** A list whose second print has an anchor with a blank text and an href
    with an opening bracket that is never closed. *)
Definition unclosed_bracket : str := Py.s "http://[x".

Definition sejm_broken_page : Bs.node :=
  Bs.Tag (Py.s "[document]") ∅
    [Bs.Tag (Py.s "title") ∅ [Bs.Text (Py.s "Druki sejmowe")];
     Bs.Tag (Py.s "a")
       {[ Py.s "class" := Py.s "druk"; Py.s "href" := Py.s "/druk1.pdf" ]}
       [Bs.Text (Py.s "Druk nr 1")];
     Bs.Tag (Py.s "a")
       {[ Py.s "class" := Py.s "druk"; Py.s "href" := unclosed_bracket ]}
       [Bs.Text (Py.s "  ")]].

Definition sejm_broken_parse (text : str) : Bs.node := sejm_broken_page.

(** A project page of the RCL portal whose timeline entry links to that
    href. *)
Definition rcl_broken_page : Bs.node :=
  Bs.Tag (Py.s "[document]") ∅
    [Bs.Tag (Py.s "title") ∅ [Bs.Text (Py.s "Projekt ustawy")];
     Bs.Tag (Py.s "ul") ∅
       [Bs.Tag (Py.s "li") ∅
          [Bs.Tag (Py.s "div") {[ Py.s "class" := Py.s "cbp_tmlabel" ]}
             [Bs.Tag (Py.s "a") {[ Py.s "href" := unclosed_bracket ]}
                [Bs.Text (Py.s "Uzgodnienia")]]]]].

Definition rcl_broken_parse (text : str) : Bs.node := rcl_broken_page.

End Sample.

(** * Properties *)

(** ** The PDF sniff *)

Lemma pdf_magic_bytes : pdf_magic = [x25; x50; x44; x46].
Proof. reflexivity. Qed.

Lemma magic_prefix_not_blank (content : bytes) :
  take 4 content = pdf_magic → Py.lstrip_bytes content = content.
Proof.
  rewrite pdf_magic_bytes. destruct content as [|c rest]; [done|].
  simpl. intros H. injection H as -> _. reflexivity.
Qed.

Lemma isspace_byte_whitespace (c : byte) :
  Py.isspace_byte c = true ↔ c ∈ ascii_whitespace.
Proof.
  unfold ascii_whitespace. split.
  - destruct c; intros H; try discriminate H; repeat constructor.
  - intros H. repeat (apply elem_of_cons in H as [->|H]; [reflexivity|]).
    by apply elem_of_nil in H.
Qed.

(** What [lstrip] removes and what it leaves. *)
Lemma lstrip_bytes_split (content : bytes) :
  ∃ ws, content = ws ++ Py.lstrip_bytes content
        ∧ Forall (λ c, c ∈ ascii_whitespace) ws.
Proof.
  unfold Py.lstrip_bytes.
  induction content as [|c content (ws & IH & Hws)]; cbn [Py.lstrip_by].
  - by exists [].
  - destruct (Py.isspace_byte c) eqn:Hc.
    + exists (c :: ws). split; [by rewrite IH at 1|].
      constructor; [by apply isspace_byte_whitespace|done].
    + by exists [].
Qed.

Lemma lstrip_bytes_whitespace (ws rest : bytes) :
  Forall (λ c, c ∈ ascii_whitespace) ws →
  Py.lstrip_bytes (ws ++ [x25] ++ rest) = [x25] ++ rest.
Proof.
  unfold Py.lstrip_bytes. induction 1 as [|c ws Hc _ IH];
    cbn [app Py.lstrip_by]; [reflexivity|].
  apply isspace_byte_whitespace in Hc. by rewrite Hc.
Qed.

(** C5: [_looks_like_pdf] holds exactly when the body is the four bytes of
    the signature %PDF after nothing or after a run of whitespace (space,
    tab, line feed, vertical tab, form feed, carriage return), whatever
    follows them, or the lower-cased Content-Type value contains pdf; a body
    that starts with the signature and version 1.4 passes whatever the
    headers, and any body passes under the Content-Type application/pdf. *)
Theorem looks_like_pdf_spec (content : bytes) (h : headers) :
  (_looks_like_pdf content h = true ↔
     (∃ ws rest, Forall (λ c, c ∈ [x20; x09; x0a; x0b; x0c; x0d]) ws
                 ∧ content = ws ++ [x25; x50; x44; x46] ++ rest)
     ∨ Py.contains (Py.lower (default [] (headers_get h (Py.s "Content-Type"))))
                   (Py.s "pdf") = true)
  ∧ (∀ rest, _looks_like_pdf (Py.b "%PDF-1.4" ++ rest) h = true)
  ∧ (headers_get h (Py.s "Content-Type") = Some (Py.s "application/pdf") →
     _looks_like_pdf content h = true).
Proof.
  assert (Hsig : take 4 (Py.lstrip_bytes content) = pdf_magic
                 ↔ ∃ ws rest, Forall (λ c, c ∈ ascii_whitespace) ws
                              ∧ content = ws ++ [x25; x50; x44; x46] ++ rest).
  { split.
    - intros H. destruct (lstrip_bytes_split content) as (ws & Hc & Hws).
      exists ws, (drop 4 (Py.lstrip_bytes content)). split; [done|].
      rewrite Hc at 1. f_equal.
      rewrite <- (take_drop 4 (Py.lstrip_bytes content)) at 1. by rewrite H.
    - intros (ws & rest & Hws & ->).
      change (ws ++ [x25; x50; x44; x46] ++ rest)
        with (ws ++ [x25] ++ ([x50; x44; x46] ++ rest)).
      by rewrite lstrip_bytes_whitespace. }
  split; [|split].
  - unfold _looks_like_pdf. change [x20; x09; x0a; x0b; x0c; x0d] with ascii_whitespace.
    rewrite <- Hsig.
    destruct (bool_decide (take 4 content = pdf_magic)) eqn:E1.
    + apply bool_decide_eq_true in E1. split; [intros _; left|done].
      by rewrite magic_prefix_not_blank.
    + destruct (bool_decide (take 4 (Py.lstrip_bytes content) = pdf_magic)) eqn:E2.
      * apply bool_decide_eq_true in E2. split; [by left|done].
      * apply bool_decide_eq_false in E2. split; [by right|].
        by intros [?|?].
  - intros rest. reflexivity.
  - intros Hct. unfold _looks_like_pdf. rewrite Hct.
    repeat case_match; reflexivity.
Qed.

Lemma looks_like_pdf_spec_witness :
  _looks_like_pdf (Py.b "<html>")
    {[ Py.s "content-type" := Py.s "application/pdf" ]} = true
  ∧ _looks_like_pdf ([x20; x0a; x09] ++ Py.b "%PDF-1.4 after blanks") ∅ = true
  ∧ _looks_like_pdf (Py.b "x%PDF-1.4") ∅ = false.
Proof.
  refine (conj _ (conj _ _)).
  - apply (looks_like_pdf_spec (Py.b "<html>")
             {[ Py.s "content-type" := Py.s "application/pdf" ]}).
    vm_compute. reflexivity.
  - destruct (looks_like_pdf_spec ([x20; x0a; x09] ++ Py.b "%PDF-1.4 after blanks") ∅)
      as [Hiff _].
    apply Hiff. left. exists [x20; x0a; x09], (Py.b "-1.4 after blanks").
    split; [repeat constructor|reflexivity].
  - apply not_true_is_false. intros H.
    destruct (looks_like_pdf_spec (Py.b "x%PDF-1.4") ∅) as [Hiff _].
    apply Hiff in H.
    destruct H as [(ws & rest & Hws & Heq)|H]; [|by vm_compute in H].
    destruct ws as [|c ws].
    + vm_compute in Heq. discriminate Heq.
    + apply Forall_cons in Hws as [Hc _].
      vm_compute in Heq. injection Heq as <- _.
      repeat (apply elem_of_cons in Hc as [Hc|Hc]; [discriminate Hc|]).
      by apply elem_of_nil in Hc.
Defined.

(** ** Directory names *)

Section Strip.
Context {A : Type} (p : A → bool).

Lemma lstrip_by_suffix (x : list A) : Py.lstrip_by p x `suffix_of` x.
Proof.
  induction x as [|c x IH]; simpl; [done|].
  destruct (p c); [by apply suffix_cons_r|done].
Qed.

Lemma lstrip_by_head (x : list A) (c : A) :
  head (Py.lstrip_by p x) = Some c → p c = false.
Proof.
  induction x as [|d x IH]; simpl; [done|].
  destruct (p d) eqn:E; [done|]. simpl. by intros [= <-].
Qed.

Lemma rstrip_by_last (x : list A) (c : A) :
  last (Py.rstrip_by p x) = Some c → p c = false.
Proof. unfold Py.rstrip_by. rewrite last_reverse. apply lstrip_by_head. Qed.

Lemma lstrip_by_Forall (P : A → Prop) (x : list A) :
  Forall P x → Forall P (Py.lstrip_by p x).
Proof.
  intros H. destruct (lstrip_by_suffix x) as [k Hk].
  rewrite Hk in H. by apply Forall_app in H as [_ ?].
Qed.

Lemma strip_by_Forall (P : A → Prop) (x : list A) :
  Forall P x → Forall P (Py.strip_by p x).
Proof.
  intros H. unfold Py.strip_by, Py.rstrip_by.
  apply Forall_reverse, lstrip_by_Forall, Forall_reverse.
  by apply lstrip_by_Forall.
Qed.

Lemma lstrip_by_length (x : list A) :
  (length (Py.lstrip_by p x) ≤ length x)%nat.
Proof. apply suffix_length, lstrip_by_suffix. Qed.

Lemma strip_by_length (x : list A) :
  (length (Py.strip_by p x) ≤ length x)%nat.
Proof.
  unfold Py.strip_by, Py.rstrip_by. rewrite length_reverse.
  etrans; [apply lstrip_by_length|]. rewrite length_reverse.
  apply lstrip_by_length.
Qed.

End Strip.

Lemma sub_plus_from_Forall (p : N → bool) (repl : str) (P : N → Prop) :
  Forall P repl → (∀ c, p c = false → P c) →
  ∀ x in_run, Forall P (Re.sub_plus_from p repl in_run x).
Proof.
  intros Hrepl HP x. induction x as [|c x IH]; intros in_run; simpl; [done|].
  destruct (p c) eqn:E.
  - apply Forall_app. split; [by destruct in_run|done].
  - constructor; auto.
Qed.

Lemma sub_plus_from_length (p : N → bool) (c0 : N) (x : str) (in_run : bool) :
  (length (Re.sub_plus_from p [c0] in_run x) ≤ length x)%nat.
Proof.
  revert in_run. induction x as [|c x IH]; intros in_run; simpl; [done|].
  destruct (p c).
  - rewrite length_app. specialize (IH true). destruct in_run; simpl; lia.
  - simpl. specialize (IH false). lia.
Qed.

(** What [_safe_dirname] does guarantee, for every name: no forbidden
    character, at most 120 characters, never empty; and a name of at most
    120 characters comes out without a space or a dot at its end. *)
Lemma safe_dirname_sound (name : str) :
  Forall (λ c, c ∉ forbidden_chars) (_safe_dirname name)
  ∧ (length (_safe_dirname name) ≤ 120)%nat
  ∧ _safe_dirname name ≠ []
  ∧ ((length name ≤ 120)%nat →
     ∀ c, last (_safe_dirname name) = Some c → c ≠ 32 ∧ c ≠ 46).
Proof.
  unfold _safe_dirname.
  set (subbed := Re.sub_plus _ _ name).
  set (stripped := Py.strip_chars _ (Py.strip subbed)).
  assert (Hsub : Forall (λ c, c ∉ forbidden_chars) subbed).
  { apply sub_plus_from_Forall.
    - repeat constructor. vm_compute. intros H.
      repeat (apply elem_of_cons in H as [H|H]; [done|]). by apply elem_of_nil in H.
    - intros c Hc. unfold Re.one_of, Py.mem in Hc.
      by apply bool_decide_eq_false in Hc. }
  assert (Hstr : Forall (λ c, c ∉ forbidden_chars) stripped).
  { by apply strip_by_Forall, strip_by_Forall. }
  assert (Huntitled : Forall (λ c, c ∉ forbidden_chars) (Py.s "untitled")).
  { vm_compute. repeat constructor; intros H;
      repeat (apply elem_of_cons in H as [H|H]; [done|]); by apply elem_of_nil in H. }
  assert (Hlast : (length name ≤ 120)%nat →
            ∀ c, last (take 120 stripped) = Some c → c ≠ 32 ∧ c ≠ 46).
  { intros Hlen c Hc. rewrite take_ge in Hc.
    - apply rstrip_by_last in Hc. unfold Py.mem in Hc.
      apply bool_decide_eq_false in Hc. vm_compute in Hc.
      split; intros ->; apply Hc; set_solver.
    - unfold stripped, Py.strip_chars, Py.strip.
      etrans; [apply strip_by_length|]. etrans; [apply strip_by_length|].
      etrans; [apply (sub_plus_from_length _ 95)|]. done. }
  assert (Hlen : (length (take 120 stripped) ≤ 120)%nat).
  { rewrite length_take. lia. }
  apply (Forall_take _ 120) in Hstr.
  unfold Py.or_else.
  destruct (take 120 stripped) as [|c0 t]; simpl Py.truthy; cbv iota.
  - split; [done|]. split; [vm_compute; lia|]. split; [done|].
    intros _ c. vm_compute. by intros [= <-].
  - done.
Qed.

(** C6: on a name of more than 120 characters the truncation follows the
    trimming, and so a space or a dot can end the result: 119 letters, a
    space (or a dot) and one more letter come out as the 119 letters and
    the space (or the dot). *)
Theorem safe_dirname_trailing_space :
  _safe_dirname (replicate 119 97 ++ Py.s " b") = replicate 119 97 ++ Py.s " "
  ∧ last (_safe_dirname (replicate 119 97 ++ Py.s " b")) = Some 32
  ∧ length (replicate 119 97 ++ Py.s " b") = 121%nat
  ∧ _safe_dirname (replicate 119 97 ++ Py.s ".b") = replicate 119 97 ++ Py.s "."
  ∧ last (_safe_dirname (replicate 119 97 ++ Py.s ".b")) = Some 46.
Proof. vm_compute. done. Qed.

(** ** File names *)

(** The matcher on a text whose first part is known. *)

Section Matching.
Context {R : Type}.

(** A greedy repetition stops where the class stops; if the rest of the
    pattern matches from there, that is the match. *)
Lemma rep_greedy (p : N → bool) (k : str → str → option R)
    (acc v rest : str) (r : R) :
  Forall (λ c, p c = true) v →
  head (p <$> rest) ≠ Some true →
  k (acc ++ v) rest = Some r →
  Re.rep p k acc (v ++ rest) = Some r.
Proof.
  intros Hv Hrest. revert acc. induction Hv as [|c v Hc Hv IH]; intros acc Hk.
  - rewrite app_nil_r in Hk. destruct rest as [|c rest]; [done|].
    cbn [app Re.rep]. cbn in Hrest. by destruct (p c).
  - cbn [app Re.rep]. rewrite Hc. rewrite (IH (acc ++ [c])); [done|].
    by rewrite <- app_assoc.
Qed.

End Matching.

Section MatchHere.
Variables (p : N → bool) (r : Re.regex) (g : option str).

Lemma match_here_chr (c : N) (x : str) :
  p c = true →
  Re.match_here (Re.Chr p :: r) g (c :: x) = Re.match_here r g x.
Proof. intros H. cbn [Re.match_here]. by rewrite H. Qed.

Lemma match_here_star (v rest : str) (res : option str * str) :
  Forall (λ c, p c = true) v → head (p <$> rest) ≠ Some true →
  Re.match_here r g rest = Some res →
  Re.match_here (Re.Star p :: r) g (v ++ rest) = Some res.
Proof.
  intros Hv Hrest Hr. cbn [Re.match_here].
  by apply (rep_greedy p (λ _ rest, Re.match_here r g rest) [] v rest res).
Qed.

Lemma match_here_plus (v rest : str) (res : option str * str) :
  v ≠ [] → Forall (λ c, p c = true) v → head (p <$> rest) ≠ Some true →
  Re.match_here r g rest = Some res →
  Re.match_here (Re.Plus p :: r) g (v ++ rest) = Some res.
Proof.
  intros Hne Hv Hrest Hr. destruct v as [|c v]; [done|].
  apply Forall_cons in Hv as [Hc Hv]. cbn [app Re.match_here]. rewrite Hc.
  by apply (rep_greedy p (λ _ rest, Re.match_here r g rest) [c] v rest res).
Qed.

Lemma match_here_group (v rest : str) (res : option str * str) :
  v ≠ [] → Forall (λ c, p c = true) v → head (p <$> rest) ≠ Some true →
  Re.match_here r (Some v) rest = Some res →
  Re.match_here (Re.GroupPlus p :: r) g (v ++ rest) = Some res.
Proof.
  intros Hne Hv Hrest Hr. destruct v as [|c v]; [done|].
  apply Forall_cons in Hv as [Hc Hv]. cbn [app Re.match_here]. rewrite Hc.
  by apply (rep_greedy p (λ m rest, Re.match_here r (Some m) rest) [c] v rest res).
Qed.

End MatchHere.

Lemma search_skip (r : Re.regex) (c : N) (x : str) :
  Re.match_here r None (c :: x) = None →
  Re.search r (c :: x) = Re.search r x.
Proof. intros H. cbn [Re.search]. by rewrite H. Qed.

Lemma search_here (r : Re.regex) (x : str) (res : option str * str) :
  Re.match_here r None x = Some res → Re.search r x = Some (fst res).
Proof. intros H. destruct x; cbn [Re.search]; rewrite H; by destruct res. Qed.

(** The extended form wins whatever the names: after the usual prefix, a
    non-empty extended value free of semicolons is the file name, whatever
    quoted name follows it. *)
Lemma extended_form_wins (name other : str) :
  name ≠ [] → 59 ∉ name →
  _filename_from_cd
    (Some (Py.s "attachment; filename*=UTF-8''" ++ name
           ++ Py.s "; filename=" ++ [34] ++ other ++ [34]))
  = Some name.
Proof.
  intros Hne Hsemi.
  assert (Hv : Forall (λ c, Re.none_of [59] c = true) name).
  { apply Forall_forall. intros c Hc. unfold Re.none_of, Py.mem.
    rewrite bool_decide_eq_false_2; [done|].
    intros ->%list_elem_of_singleton. done. }
  set (rest := Py.s "; filename=" ++ [34] ++ other ++ [34]).
  assert (Hhere :
    Re.match_here re_filename_ext None
      ([102; 105; 108; 101; 110; 97; 109; 101; 42; 61]
       ++ [85; 84; 70; 45; 56] ++ [39; 39] ++ name ++ rest)
    = Some (Some name, rest)).
  { unfold re_filename_ext, Re.word_ci.
    change (Py.s "filename") with [102; 105; 108; 101; 110; 97; 109; 101].
    cbn [fmap list_fmap app].
    do 9 (rewrite match_here_chr by reflexivity).
    apply (match_here_star _ _ _ []); [constructor|by vm_compute|].
    cbn [app]. rewrite match_here_chr by reflexivity.
    apply (match_here_star _ _ _ []); [constructor|by vm_compute|].
    cbn [app].
    apply (match_here_plus _ _ _ [85; 84; 70; 45; 56]);
      [done|by repeat constructor|by vm_compute|].
    cbn [app]. rewrite match_here_chr by reflexivity.
    apply (match_here_star _ _ _ []); [constructor|by vm_compute|].
    cbn [app]. rewrite match_here_chr by reflexivity.
    apply match_here_group; [done|done|by vm_compute|reflexivity]. }
  unfold _filename_from_cd.
  change (Py.s "attachment; filename*=UTF-8''" ++ name ++ rest)
    with ([97; 116; 116; 97; 99; 104; 109; 101; 110; 116; 59; 32]
          ++ [102; 105; 108; 101; 110; 97; 109; 101; 42; 61]
          ++ [85; 84; 70; 45; 56] ++ [39; 39] ++ name ++ rest).
  cbn [app Py.truthy negb].
  unfold Re.search_group1.
  do 12 (rewrite search_skip by reflexivity).
  cbn [app] in Hhere. by rewrite (search_here _ _ _ Hhere).
Qed.

(** C4, as the code has it.  For the first response of a call: among the
    forms of a Content-Disposition file name the extended one wins, then
    the quoted one, then the bare one (stripped); a name found and not
    empty is the file name; without one the last segment of the path of the
    URL is, and the literal pobrany_plik when that segment is empty.  A
    header with both the extended name a.pdf and the quoted name b.pdf
    gives a.pdf, in either order of the two.  For an alternate response the
    Content-Disposition name is found in the same way, but without one the
    file name of the first response is kept. *)
Theorem filename_precedence (url : str) (resp : response) :
  let cd := headers_get (resp_headers resp) (Py.s "Content-Disposition") in
  let from_cd := _filename_from_cd cd in
  let from_url := OsPath.basename (Url.path (Url.urlparse url)) in
  (∀ v g, cd = Some v → v ≠ [] →
     Re.search_group1 re_filename_ext v = Some g → from_cd = Some g)
  ∧ (∀ v g, cd = Some v → v ≠ [] →
     Re.search_group1 re_filename_ext v = None →
     Re.search_group1 re_filename_quoted v = Some g → from_cd = Some g)
  ∧ (∀ v g, cd = Some v → v ≠ [] →
     Re.search_group1 re_filename_ext v = None →
     Re.search_group1 re_filename_quoted v = None →
     Re.search_group1 re_filename_bare v = Some g →
     from_cd = Some (Py.strip g))
  ∧ (∀ v, cd = Some v →
     Re.search_group1 re_filename_ext v = None →
     Re.search_group1 re_filename_quoted v = None →
     Re.search_group1 re_filename_bare v = None → from_cd = None)
  ∧ (cd = None ∨ cd = Some [] → from_cd = None)
  ∧ (∀ f, from_cd = Some f → f ≠ [] → primary_filename url resp = f)
  ∧ (from_cd = None ∨ from_cd = Some [] → from_url ≠ [] →
     primary_filename url resp = from_url)
  ∧ (from_cd = None ∨ from_cd = Some [] → from_url = [] →
     primary_filename url resp = Py.s "pobrany_plik")
  ∧ (cd = Some Sample.cd_both ∨ cd = Some Sample.cd_both_swapped →
     primary_filename url resp = Py.s "a.pdf")
  ∧ (∀ filename f, from_cd = Some f → f ≠ [] →
     alternate_filename filename resp = f)
  ∧ (∀ filename, from_cd = None ∨ from_cd = Some [] →
     alternate_filename filename resp = filename).
Proof.
  intros cd from_cd from_url.
  assert (Hne : ∀ v : str, v ≠ [] → Py.truthy v = true) by (by intros []).
  repeat split.
  - intros v g Hcd Hv He. unfold from_cd. rewrite Hcd. simpl.
    by rewrite (Hne v Hv), He.
  - intros v g Hcd Hv He Hq. unfold from_cd. rewrite Hcd. simpl.
    by rewrite (Hne v Hv), He, Hq.
  - intros v g Hcd Hv He Hq Hb. unfold from_cd. rewrite Hcd. simpl.
    by rewrite (Hne v Hv), He, Hq, Hb.
  - intros v Hcd He Hq Hb. unfold from_cd. rewrite Hcd. simpl.
    rewrite He, Hq, Hb. by destruct (Py.truthy v).
  - intros [Hcd|Hcd]; unfold from_cd; by rewrite Hcd.
  - intros f Hf Hfne. unfold primary_filename, opt_or, Py.or_else.
    fold cd. fold from_cd. rewrite Hf. simpl. by rewrite !(Hne f Hfne).
  - intros Hf Hu. unfold primary_filename, opt_or, Py.or_else.
    fold cd. fold from_cd. fold from_url.
    destruct Hf as [-> | ->]; simpl; by rewrite !(Hne from_url Hu).
  - intros Hf Hu. unfold primary_filename, opt_or, Py.or_else.
    fold cd. fold from_cd. fold from_url.
    destruct Hf as [-> | ->]; simpl; by rewrite Hu.
  - intros Hcd. unfold primary_filename. fold cd.
    destruct Hcd as [-> | ->]; reflexivity.
  - intros filename f Hf Hfne. unfold alternate_filename, opt_or, Py.or_else.
    fold cd. fold from_cd. rewrite Hf. simpl. by rewrite (Hne f Hfne).
  - intros filename Hf. unfold alternate_filename, opt_or, Py.or_else.
    fold cd. fold from_cd. by destruct Hf as [-> | ->].
Qed.

Lemma filename_precedence_witness :
  primary_filename (Py.s "https://www.gov.pl/attachment/42")
    (Sample.response_with_cd Sample.cd_both (Py.b "%PDF-1.7")) = Py.s "a.pdf"
  ∧ primary_filename (Py.s "https://www.gov.pl/attachment/42")
      (Sample.response_with_cd (Py.s "inline") (Py.b "%PDF-1.7")) = Py.s "42"
  ∧ primary_filename (Py.s "https://www.gov.pl/")
      (Sample.response_with_cd (Py.s "inline") (Py.b "%PDF-1.7"))
    = Py.s "pobrany_plik"
  ∧ _filename_from_cd (Some Sample.cd_both) = Some (Py.s "a.pdf")
  ∧ _filename_from_cd (Some (Py.s "attachment; filename=" ++ [34]
                              ++ Py.s "b.pdf" ++ [34])) = Some (Py.s "b.pdf")
  ∧ _filename_from_cd (Some (Py.s "attachment; filename= c.pdf ; size=1"))
    = Some (Py.s "c.pdf")
  ∧ _filename_from_cd (Some (Py.s "inline")) = None
  ∧ primary_filename (Py.s "https://www.gov.pl/attachment/42")
      (Sample.response_with_cd (Py.s "attachment; filename=c.pdf") [])
    = Py.s "c.pdf"
  ∧ alternate_filename (Py.s "42") Sample.pdf_act = Py.s "act.pdf"
  ∧ alternate_filename (Py.s "err.html") Sample.pdf_unnamed = Py.s "err.html".
Proof.
  pose (u := Py.s "https://www.gov.pl/attachment/42").
  pose (quoted := Py.s "attachment; filename=" ++ [34] ++ Py.s "b.pdf" ++ [34]).
  pose (bare := Py.s "attachment; filename= c.pdf ; size=1").
  refine (conj _ (conj _ (conj _ (conj _ (conj _ (conj _ (conj _
            (conj _ (conj _ _))))))))).
  - destruct (filename_precedence u
                (Sample.response_with_cd Sample.cd_both (Py.b "%PDF-1.7")))
      as (_ & _ & _ & _ & _ & _ & _ & _ & H & _).
    apply H. left. reflexivity.
  - destruct (filename_precedence u
                (Sample.response_with_cd (Py.s "inline") (Py.b "%PDF-1.7")))
      as (_ & _ & _ & _ & _ & _ & H & _).
    apply H; [left; reflexivity|vm_compute; discriminate].
  - destruct (filename_precedence (Py.s "https://www.gov.pl/")
                (Sample.response_with_cd (Py.s "inline") (Py.b "%PDF-1.7")))
      as (_ & _ & _ & _ & _ & _ & _ & H & _).
    apply H; [left; reflexivity|reflexivity].
  - destruct (filename_precedence u (Sample.response_with_cd Sample.cd_both []))
      as (H & _).
    apply (H Sample.cd_both); [reflexivity|discriminate|reflexivity].
  - destruct (filename_precedence u (Sample.response_with_cd quoted []))
      as (_ & H & _).
    apply (H quoted); [reflexivity|discriminate|reflexivity|reflexivity].
  - destruct (filename_precedence u (Sample.response_with_cd bare []))
      as (_ & _ & H & _).
    apply (H bare (Py.s "c.pdf "));
      [reflexivity|discriminate|reflexivity|reflexivity|reflexivity].
  - destruct (filename_precedence u (Sample.response_with_cd (Py.s "inline") []))
      as (_ & _ & _ & H & _).
    apply (H (Py.s "inline")); reflexivity.
  - destruct (filename_precedence u
                (Sample.response_with_cd (Py.s "attachment; filename=c.pdf") []))
      as (_ & _ & _ & _ & _ & H & _).
    apply H; [reflexivity|discriminate].
  - destruct (filename_precedence u Sample.pdf_act)
      as (_ & _ & _ & _ & _ & _ & _ & _ & _ & H & _).
    apply H; [reflexivity|discriminate].
  - destruct (filename_precedence u Sample.pdf_unnamed)
      as (_ & _ & _ & _ & _ & _ & _ & _ & _ & _ & H).
    apply H. left. reflexivity.
Defined.

(** The file name of an alternate response is not always derived as that
    of the first: here the first response is named err.html by its
    Content-Disposition and fails the sniff, the [/download] alternate
    carries no Content-Disposition name and passes; its body is saved as
    err.html, which is neither the last path segment of its URL
    (download) nor that of the original URL (42). *)
Lemma alternate_keeps_primary_name :
  download_file Sample.named_error_transport Sample.attachment_url
    (Py.s "legal_acts") None None None Sample.empty_world
  = (Return (Py.s "legal_acts/err.html"),
     written (after Sample.empty_world
                [EvMakedirs (Py.s "legal_acts"); EvGet Sample.attachment_url;
                 EvGet (Sample.attachment_url ++ Py.s "/download")])
       (Py.s "legal_acts/err.html") (Py.b "%PDF-1.4 unnamed"))
  ∧ _filename_from_cd
      (headers_get (resp_headers Sample.pdf_unnamed) (Py.s "Content-Disposition"))
    = None
  ∧ OsPath.basename
      (Url.path (Url.urlparse (Sample.attachment_url ++ Py.s "/download")))
    = Py.s "download"
  ∧ OsPath.basename (Url.path (Url.urlparse Sample.attachment_url)) = Py.s "42".
Proof. repeat split; vm_compute; reflexivity. Qed.

(** ** Running the effects *)

Ltac run_m :=
  cbv beta iota zeta delta
    [bind ret try_except emit transport requests_get _download_once
     path_exists write_file].

Lemma after_after (w : world) (evs1 evs2 : list event) :
  after (after w evs1) evs2 = after w (evs1 ++ evs2).
Proof. unfold after. simpl. by rewrite app_assoc. Qed.

Lemma after_nil (w : world) : after w [] = w.
Proof. destruct w. unfold after. simpl. by rewrite app_nil_r. Qed.

Lemma emit_after (ev : event) (w : world) : emit ev w = (Return tt, after w [ev]).
Proof. reflexivity. Qed.

Lemma write_file_written (path : str) (content : bytes) (w : world) :
  write_file path content w = (Return tt, written w path content).
Proof. reflexivity. Qed.

(** ** Failing page fetches *)

Section PageErrors.
Variable http_get : str → gmap str str → http_result.
Variable parse_html : str → Bs.node.
Variables url e : str.
Hypothesis fails : http_get url HEADERS = HttpError e.

Lemma get_title_from_url_error (w : world) :
  get_title_from_url http_get parse_html url w
  = (Return TitleEmptyList, after w [EvGet url; EvLogError (fetch_failed url e)]).
Proof.
  unfold get_title_from_url. run_m. rewrite fails.
  unfold after. simpl. by rewrite <- app_assoc.
Qed.

Lemma fetch_subpages_error (w : world) :
  fetch_subpages http_get parse_html url w
  = (Return [], after w [EvGet url; EvLogError (fetch_failed url e)]).
Proof.
  unfold fetch_subpages. run_m. rewrite fails.
  unfold after. simpl. by rewrite <- app_assoc.
Qed.

Lemma downloadable_acts_error (w : world) :
  downloadable_acts http_get parse_html url w
  = (Return [], after w [EvGet url; EvLogError (fetch_failed url e)]).
Proof.
  unfold downloadable_acts. run_m. rewrite fails.
  unfold after. simpl. by rewrite <- app_assoc.
Qed.


End PageErrors.



(** ** The link normaliser *)

Section Normaliser.

Lemma truthy_nonempty {A} (x : list A) : Py.truthy x = true ↔ x ≠ [].
Proof. by destruct x. Qed.

(** Where a record comes from: the anchor is the element itself when that
    is an anchor with a non-empty href, else its first descendant anchor
    with an href; the href is not empty; title and link are the stripped
    text of the anchor and the resolved href, both non-empty. *)
Lemma anchor_record_Some (base : str) (soup : Bs.node) (article : Bs.ref)
    (r : record) :
  anchor_record base soup article = Some r →
  ∃ el a a_el href,
    Bs.node_at soup article = Some el
    ∧ (if Bs.is_named (Py.s "a") el && opt_truthy (Bs.get el (Py.s "href"))
       then Some article else Bs.select_one soup article sel_a_href) = Some a
    ∧ Bs.node_at soup a = Some a_el
    ∧ Bs.get a_el (Py.s "href") = Some href
    ∧ href ≠ []
    ∧ r = {| rec_title := Bs.get_text_strip a_el; rec_link := Url.urljoin base href |}
    ∧ rec_title r ≠ [] ∧ rec_link r ≠ [].
Proof.
  unfold anchor_record. intros H.
  destruct (Bs.node_at soup article) as [el|] eqn:Hel; [|done]. cbn [mbind option_bind] in H.
  destruct (if _ && _ then _ else _) as [a|] eqn:Ha; [|done]. cbn [mbind option_bind] in H.
  destruct (Bs.node_at soup a) as [a_el|] eqn:Hael; [|done]. cbn [mbind option_bind] in H.
  destruct (Bs.get a_el (Py.s "href")) as [href|] eqn:Hhref; [|done]. cbn [mbind option_bind] in H.
  destruct (Py.truthy href) eqn:Hh; [|done]. cbn [negb] in H.
  destruct (Py.truthy (Bs.get_text_strip a_el)) eqn:Ht; [|done].
  destruct (Py.truthy (Url.urljoin base href)) eqn:Hl; [|done].
  cbn [andb] in H. injection H as <-.
  exists el, a, a_el, href. cbn [rec_title rec_link].
  rewrite <- !truthy_nonempty. done.
Qed.

Lemma link_records_nonempty (base : str) (soup : Bs.node)
    (articles : list Bs.ref) :
  Forall (λ r, rec_title r ≠ [] ∧ rec_link r ≠ [])
         (link_records base soup articles).
Proof.
  apply Forall_forall. intros r Hr. unfold link_records in Hr.
  apply list_elem_of_omap in Hr as (article & _ & Hrec).
  apply anchor_record_Some in Hrec as (? & ? & ? & ? & ? & ? & ? & ? & ? & ? & ?).
  done.
Qed.

Lemma anchor_record_dropped (base : str) (soup : Bs.node) (article : Bs.ref)
    (el : Bs.node) :
  Bs.node_at soup article = Some el →
  let chosen :=
    if Bs.is_named (Py.s "a") el && opt_truthy (Bs.get el (Py.s "href"))
    then Some article else Bs.select_one soup article sel_a_href in
  (chosen = None → anchor_record base soup article = None)
  ∧ (∀ a a_el href,
       chosen = Some a → Bs.node_at soup a = Some a_el →
       Bs.get a_el (Py.s "href") = Some href →
       href = [] ∨ Bs.get_text_strip a_el = [] ∨ Url.urljoin base href = [] →
       anchor_record base soup article = None).
Proof.
  intros Hel chosen. unfold anchor_record. rewrite Hel. cbn [mbind option_bind].
  fold chosen. split.
  - by intros ->.
  - intros a a_el href -> Ha Hh Hempty. cbn [mbind option_bind].
    rewrite Ha. cbn [mbind option_bind]. rewrite Hh. cbn [mbind option_bind].
    destruct Hempty as [-> | [-> | ->]]; [done| |];
      destruct (Py.truthy href); cbn [negb andb Py.truthy]; try done.
    by rewrite andb_false_r.
Qed.

Lemma anchor_record_eq (base : str) (soup : Bs.node) (article a : Bs.ref)
    (el a_el : Bs.node) (href : str) :
  Bs.node_at soup article = Some el →
  (if Bs.is_named (Py.s "a") el && opt_truthy (Bs.get el (Py.s "href"))
   then Some article else Bs.select_one soup article sel_a_href) = Some a →
  Bs.node_at soup a = Some a_el →
  Bs.get a_el (Py.s "href") = Some href →
  href ≠ [] →
  anchor_record base soup article
  = if Py.truthy (Bs.get_text_strip a_el) && Py.truthy (Url.urljoin base href)
    then Some {| rec_title := Bs.get_text_strip a_el;
                 rec_link := Url.urljoin base href |}
    else None.
Proof.
  intros Hel Ha Hael Hhref Hne. unfold anchor_record.
  rewrite Hel. cbn [mbind option_bind]. rewrite Ha. cbn [mbind option_bind].
  rewrite Hael. cbn [mbind option_bind]. rewrite Hhref. cbn [mbind option_bind].
  apply truthy_nonempty in Hne. by rewrite Hne.
Qed.

Lemma anchor_href_None (base : str) (soup : Bs.node) (article : Bs.ref) :
  anchor_href soup article = None → anchor_record base soup article = None.
Proof.
  unfold anchor_href, anchor_record.
  destruct (Bs.node_at soup article) as [el|]; [|done]. cbn [mbind option_bind].
  destruct (if _ && _ then _ else _) as [a|]; [|done]. cbn [mbind option_bind].
  destruct (Bs.node_at soup a) as [a_el|]; [|done]. cbn [mbind option_bind].
  destruct (Bs.get a_el (Py.s "href")) as [href|]; [|done]. cbn [mbind option_bind].
  by destruct (Py.truthy href).
Qed.

(** The loop as a whole: it raises when the turn of one of its elements
    does, and returns the records of [link_records] when none does. *)
Lemma news_loop_eq (base : str) (soup : Bs.node) (articles : list Bs.ref)
    (news_list : list record) (w : world) :
  news_loop base soup articles news_list w
  = if existsb (href_raises base soup) articles then (RaiseValueError, w)
    else (Return (news_list ++ link_records base soup articles), w).
Proof.
  revert news_list. induction articles as [|article articles IH];
    intros news_list; cbn [news_loop existsb].
  - unfold link_records. cbn. by rewrite app_nil_r.
  - unfold href_raises at 1.
    destruct (anchor_href soup article) as [href|] eqn:Hhref.
    + destruct (Url.urljoin_raises base href); [done|]. cbn [orb].
      rewrite IH. destruct (existsb _ articles); [done|].
      unfold link_records. cbn [omap list_omap].
      destruct (anchor_record base soup article); cbn [option_list];
        by rewrite <- app_assoc.
    + cbn [orb]. rewrite IH. destruct (existsb _ articles); [done|].
      unfold link_records. cbn [omap list_omap].
      by rewrite (anchor_href_None base soup article Hhref).
Qed.

Lemma news_loop_listing (base : str) (soup : Bs.node) (articles : list Bs.ref)
    (w : world) :
  news_loop base soup articles [] w = (listing base soup articles, w).
Proof. rewrite news_loop_eq. unfold listing. by destruct (existsb _ _). Qed.

End Normaliser.

(** ** Pages that answer *)

Section Pages.
Variable http_get : str → gmap str str → http_result.
Variable parse_html : str → Bs.node.
Variables (url : str) (page : response).
Hypothesis answers : http_get url HEADERS = HttpOk page.

Lemma get_title_from_url_answers (w : world) :
  ∃ t, get_title_from_url http_get parse_html url w
       = (Return (TitleText t), after w [EvGet url]).
Proof. eexists. unfold get_title_from_url. run_m. rewrite answers. reflexivity. Qed.

Lemma downloadable_acts_answers (w : world) :
  downloadable_acts http_get parse_html url w
  = (listing url
       (snd (find_acts url (parse_html (resp_text page))))
       (fst (find_acts url (parse_html (resp_text page)))),
     after w [EvGet url]).
Proof.
  unfold downloadable_acts. run_m. rewrite answers.
  destruct (find_acts url _) as [articles soup]. cbn [fst snd].
  rewrite news_loop_listing. unfold listing. by destruct (existsb _ _).
Qed.

Lemma fetch_subpages_answers (w : world) :
  fetch_subpages http_get parse_html url w
  = (listing url (parse_html (resp_text page))
       (find_articles url (parse_html (resp_text page))),
     after w [EvGet url]).
Proof.
  unfold fetch_subpages. run_m. rewrite answers. cbv zeta.
  rewrite news_loop_listing. unfold listing. by destruct (existsb _ _).
Qed.

End Pages.

(** C7: what the two loops return never holds a record with an empty
    title or an empty link; but an anchor whose href [urlsplit] rejects is
    not dropped.  The second print of the page has a blank text, so that it
    would yield no record, and an href whose host opens a bracket that is
    never closed: [urljoin] raises [ValueError] on it, before the title is
    looked at, and nothing catches it.  [downloadable_acts] raises instead
    of returning the one record of the page, [fetch_subpages] does on the
    RCL page with that href, and so does [get_acts], after its two page
    fetches and before any download. *)
Theorem malformed_href_is_not_dropped :
  (∀ (http_get : str → gmap str str → http_result) (parse_html : str → Bs.node)
     (url : str) (w w' : world) (rs : list record),
     fetch_subpages http_get parse_html url w = (Return rs, w')
     ∨ downloadable_acts http_get parse_html url w = (Return rs, w') →
     Forall (λ r, rec_title r ≠ [] ∧ rec_link r ≠ []) rs)
  ∧ Bs.node_at Sample.sejm_broken_page [2%nat]
    = Some (Bs.Tag (Py.s "a")
              {[ Py.s "class" := Py.s "druk";
                 Py.s "href" := Sample.unclosed_bracket ]}
              [Bs.Text (Py.s "  ")])
  ∧ Bs.get_text_strip
      (Bs.Tag (Py.s "a")
         {[ Py.s "class" := Py.s "druk";
            Py.s "href" := Sample.unclosed_bracket ]}
         [Bs.Text (Py.s "  ")]) = []
  ∧ Url.urljoin_raises Sample.sejm_url Sample.unclosed_bracket = true
  ∧ downloadable_acts Sample.sejm_transport Sample.sejm_broken_parse
      Sample.sejm_url Sample.empty_world
    = (RaiseValueError, after Sample.empty_world [EvGet Sample.sejm_url])
  ∧ fetch_subpages Sample.rcl_transport Sample.rcl_broken_parse
      Sample.rcl_url Sample.empty_world
    = (RaiseValueError, after Sample.empty_world [EvGet Sample.rcl_url])
  ∧ get_acts Sample.sejm_transport Sample.sejm_broken_parse
      Sample.sejm_url Sample.empty_world
    = (RaiseValueError,
       after Sample.empty_world [EvGet Sample.sejm_url; EvGet Sample.sejm_url]).
Proof.
  split; [|repeat split; vm_compute; reflexivity].
  intros http_get parse_html url w w' rs Hrun.
  assert (Hlisting : ∀ soup articles,
            listing url soup articles = Return rs →
            Forall (λ r, rec_title r ≠ [] ∧ rec_link r ≠ []) rs).
  { intros soup articles. unfold listing.
    destruct (existsb _ _); [done|]. intros [= <-].
    apply link_records_nonempty. }
  destruct (http_get url HEADERS) as [page|e] eqn:Hget.
  - rewrite (fetch_subpages_answers http_get parse_html url page Hget),
      (downloadable_acts_answers http_get parse_html url page Hget) in Hrun.
    destruct Hrun as [[= Hrs _]|[= Hrs _]]; by eapply Hlisting.
  - rewrite (fetch_subpages_error http_get parse_html url e Hget),
      (downloadable_acts_error http_get parse_html url e Hget) in Hrun.
    destruct Hrun as [[= <- _]|[= <- _]]; constructor.
Qed.

Lemma malformed_href_is_not_dropped_witness :
  Forall (λ r, rec_title r ≠ [] ∧ rec_link r ≠ [])
    [{| rec_title := Py.s "Druk nr 1";
        rec_link := Py.s "https://www.sejm.gov.pl/druk1.pdf" |};
     {| rec_title := Py.s "Druk nr 2";
        rec_link := Py.s "https://www.sejm.gov.pl/druk2.pdf" |}].
Proof.
  destruct malformed_href_is_not_dropped as [H _].
  apply (H Sample.sejm_transport Sample.sejm_parse Sample.sejm_url
           Sample.empty_world (after Sample.empty_world [EvGet Sample.sejm_url])).
  right. vm_compute. reflexivity.
Defined.

(** ** Resolving an absolute path *)

Lemma urlparse_default_absolute_path (default_scheme : str) :
  Url.urlparse_default default_scheme (Py.s "/DU/2024/123.pdf")
  = {| Url.scheme :=
         Url.remove_unsafe (Py.strip_by Url.c0_control_or_space default_scheme);
       Url.netloc := []; Url.path := Py.s "/DU/2024/123.pdf";
       Url.params := []; Url.query := []; Url.fragment := [] |}.
Proof.
  unfold Url.urlparse_default. cbv zeta.
  set (sch := Url.remove_unsafe (Py.strip_by Url.c0_control_or_space default_scheme)).
  change (Url.remove_unsafe
            (Py.lstrip_by Url.c0_control_or_space (Py.s "/DU/2024/123.pdf")))
    with (Py.s "/DU/2024/123.pdf").
  change (Url.split_scheme (Py.s "/DU/2024/123.pdf")) with (@None (str * str)).
  cbv beta iota.
  change (Url.split_netloc (Py.s "/DU/2024/123.pdf"))
    with (@nil N, Py.s "/DU/2024/123.pdf").
  cbv beta iota.
  change (Url.split_if_present 35 (Py.s "/DU/2024/123.pdf"))
    with (Py.s "/DU/2024/123.pdf", @nil N).
  cbv beta iota.
  change (Url.split_if_present 63 (Py.s "/DU/2024/123.pdf"))
    with (Py.s "/DU/2024/123.pdf", @nil N).
  cbv beta iota.
  change (Py.mem 59 (Py.s "/DU/2024/123.pdf")) with false.
  rewrite andb_false_r. reflexivity.
Qed.

Lemma app_not_nil_l {A} (l k : list A) : l ≠ [] → l ++ k ≠ [].
Proof. destruct l; [congruence | discriminate]. Qed.

Lemma app_not_nil_r {A} (l k : list A) : k ≠ [] → l ++ k ≠ [].
Proof. destruct l, k; try congruence; discriminate. Qed.

Ltac not_nil :=
  first [ assumption
        | apply app_not_nil_l; not_nil
        | apply app_not_nil_r; not_nil ].

Lemma urlunsplit_not_empty (sch loc url qry frag : str) :
  url ≠ [] → Url.urlunsplit sch loc url qry frag ≠ [].
Proof.
  intros Hurl. unfold Url.urlunsplit.
  repeat match goal with
         | |- context [if ?b then _ else _] => destruct b
         end; not_nil.
Qed.

Lemma urlunparse_not_empty (sch loc url prm qry frag : str) :
  url ≠ [] → Url.urlunparse sch loc url prm qry frag ≠ [].
Proof.
  intros Hurl. unfold Url.urlunparse.
  apply urlunsplit_not_empty. destruct (Py.truthy prm); not_nil.
Qed.

(** A reference that is an absolute path never resolves to the empty
    string, whatever the base. *)
Lemma urljoin_absolute_path_not_empty (base : str) :
  Url.urljoin base (Py.s "/DU/2024/123.pdf") ≠ [].
Proof.
  unfold Url.urljoin.
  destruct (Py.truthy base); cbn [negb]; [|discriminate].
  change (Py.truthy (Py.s "/DU/2024/123.pdf")) with true. cbn [negb].
  cbv zeta. rewrite urlparse_default_absolute_path.
  cbn [Url.scheme Url.netloc Url.path Url.params Url.query Url.fragment].
  set (b := Url.urlparse_default [] base).
  set (sch := Url.remove_unsafe _). clearbody sch b.
  destruct (negb (bool_decide (sch = Url.scheme b)) || _);
    [by vm_compute|].
  change (Py.truthy []) with false. rewrite andb_false_r.
  change (Py.truthy (Py.s "/DU/2024/123.pdf")) with true. cbn [negb andb].
  apply urlunparse_not_empty.
  change (bool_decide (take 1 (Py.s "/DU/2024/123.pdf") = Py.s "/")) with true.
  cbv iota. by vm_compute.
Qed.

(** Against an https base it keeps the base's scheme and host and replaces
    the whole path. *)
Lemma urljoin_absolute_path_https (base : str) :
  Url.scheme (Url.urlparse base) = Py.s "https" →
  Url.urljoin base (Py.s "/DU/2024/123.pdf")
  = Py.s "https://" ++ Url.netloc (Url.urlparse base) ++ Py.s "/DU/2024/123.pdf".
Proof.
  intros Hsch. unfold Url.urljoin.
  destruct base as [|c base]; [by vm_compute in Hsch|].
  change (Py.truthy (c :: base)) with true.
  change (Py.truthy (Py.s "/DU/2024/123.pdf")) with true. cbn [negb].
  cbv zeta. rewrite urlparse_default_absolute_path.
  cbn [Url.scheme Url.netloc Url.path Url.params Url.query Url.fragment].
  unfold Url.urlparse in *.
  set (b := Url.urlparse_default [] (c :: base)) in *.
  rewrite Hsch. clearbody b.
  destruct (Url.netloc b); vm_compute; reflexivity.
Qed.

(** ** Labels of DZIENNIK anchors *)

Lemma after_last_none (x : str) : ¬ 47 ∈ x → Py.after_last 47 x = x.
Proof.
  destruct x as [|c x]; [done|]. intros H. cbn [Py.after_last].
  apply not_elem_of_cons in H as [Hc Hx].
  unfold Py.mem. rewrite bool_decide_eq_false_2 by done.
  destruct (c =? 47) eqn:E; [|done]. apply N.eqb_eq in E. by subst c.
Qed.

Lemma after_last_slash (pre seg : str) :
  ¬ 47 ∈ seg → Py.after_last 47 (pre ++ [47] ++ seg) = seg.
Proof.
  intros Hseg. induction pre as [|c pre IH]; cbn [app Py.after_last].
  - unfold Py.mem. by rewrite bool_decide_eq_false_2.
  - unfold Py.mem. rewrite bool_decide_eq_true_2; [exact IH|].
    apply elem_of_app. right. by left.
Qed.

Lemma after_last_segment (x seg : str) :
  last_segment_of x seg → Py.after_last 47 x = seg.
Proof.
  intros [Hseg [->|[pre ->]]];
    [by apply after_last_none|by apply after_last_slash].
Qed.

(** C3: under a DZIENNIK URL, on the page of the scenario,
    [downloadable_acts] ([find_acts] followed by the record loop) returns
    exactly one record, titled with the bold text and linked to the href
    resolved against the URL by [urljoin].  In general an anchor of that
    profile without visible text receives as label, in this order of
    preference: the stripped text of the first bold element of its nearest
    enclosing paragraph, the title or else the alt attribute of its first
    image, the last segment of its href, which is the href itself when it
    holds no slash and what follows its last slash when it holds one; the
    label is appended to the anchor after a blank. *)
Theorem dziennik_label_recovery (url : str) :
  let host := Py.lower (Url.netloc (Url.urlparse url)) in
  (Py.contains host (Py.s "legislacja.rcl.gov.pl") = false →
   Py.contains host (Py.s "sejm.gov.pl") = false →
   Py.contains host (Py.s "dziennikustaw.gov.pl") = true →
   Url.urlsplit_raises url = false →
   ∀ (http_get : str → gmap str str → http_result) (parse_html : str → Bs.node)
     (page : response) (w : world),
     http_get url HEADERS = HttpOk page →
     parse_html (resp_text page) = Sample.dziennik_page →
     downloadable_acts http_get parse_html url w
     = (Return [{| rec_title := Sample.rozporzadzenie;
                   rec_link := Url.urljoin url (Py.s "/DU/2024/123.pdf") |}],
        after w [EvGet url]))
  ∧ (∀ soup a el fixed href seg,
       Bs.node_at soup a = Some el →
       Bs.get el (Py.s "href") = Some href → href ≠ [] →
       Bs.get_text_strip el = [] →
       last_segment_of href seg →
       let bold :=
         match Bs.find_parent soup a (Py.s "p") with
         | Some (_, p) =>
             match Bs.find p (Py.s "b") with
             | Some (_, b) => Bs.get_text_strip b
             | None => []
             end
         | None => []
         end in
       let image :=
         match Bs.find el (Py.s "img") with
         | Some (_, img) =>
             Py.or_else (default [] (Bs.get img (Py.s "title")))
                        (default [] (Bs.get img (Py.s "alt")))
         | None => []
         end in
       let label :=
         if Py.truthy bold then bold
         else if Py.truthy image then image
         else seg in
       fix_anchor (soup, fixed) a
       = (Bs.append a (Bs.Text (Py.s " " ++ label)) soup, fixed ++ [a])).
Proof.
  intros host. split.
  - intros Hrcl Hsejm Hdz Hurl http_get parse_html page w Hpage Hparse.
    pose proof (urljoin_absolute_path_not_empty url) as Hlink.
    rewrite (downloadable_acts_answers http_get parse_html url page Hpage).
    rewrite Hparse. f_equal.
    unfold find_acts. fold host.
    rewrite Hrcl, Hsejm, Hdz.
    assert (Hloop :
      foldl fix_anchor (Sample.dziennik_page, []) (Bs.select Sample.dziennik_page [] sel_dziennik)
      = (Bs.append [0; 2]%nat (Bs.Text (Py.s " " ++ Sample.rozporzadzenie))
           Sample.dziennik_page, [[0; 2]%nat])) by (vm_compute; reflexivity).
    rewrite Hloop. cbn [fst snd].
    unfold listing. cbn [existsb]. unfold href_raises.
    assert (Hhref :
      anchor_href
        (Bs.append [0; 2]%nat (Bs.Text (Py.s " " ++ Sample.rozporzadzenie))
           Sample.dziennik_page) [0; 2]%nat
      = Some (Py.s "/DU/2024/123.pdf")) by (vm_compute; reflexivity).
    rewrite Hhref. unfold Url.urljoin_raises. rewrite Hurl.
    assert (Hpath : Url.urlsplit_raises (Py.s "/DU/2024/123.pdf") = false)
      by (vm_compute; reflexivity).
    rewrite Hpath. rewrite !andb_false_r. cbn [orb].
    unfold link_records. cbn [omap list_omap].
    rewrite (anchor_record_eq url _ [0; 2]%nat [0; 2]%nat
               (Bs.Tag (Py.s "a") {[ Py.s "href" := Py.s "/DU/2024/123.pdf" ]}
                  [Bs.Text (Py.s " " ++ Sample.rozporzadzenie)])
               (Bs.Tag (Py.s "a") {[ Py.s "href" := Py.s "/DU/2024/123.pdf" ]}
                  [Bs.Text (Py.s " " ++ Sample.rozporzadzenie)])
               (Py.s "/DU/2024/123.pdf"));
      [|vm_compute; reflexivity|vm_compute; reflexivity|vm_compute; reflexivity
       |vm_compute; reflexivity|vm_compute; discriminate].
    assert (Htitle :
      Bs.get_text_strip
        (Bs.Tag (Py.s "a") {[ Py.s "href" := Py.s "/DU/2024/123.pdf" ]}
           [Bs.Text (Py.s " " ++ Sample.rozporzadzenie)])
      = Sample.rozporzadzenie) by (vm_compute; reflexivity).
    rewrite Htitle. apply truthy_nonempty in Hlink. rewrite Hlink.
    reflexivity.
  - intros soup a el fixed href seg Hel Hhref Hne Htext Hseg bold image label.
    apply after_last_segment in Hseg.
    unfold fix_anchor. rewrite Hel, Hhref.
    apply truthy_nonempty in Hne. unfold opt_truthy. simpl default. rewrite Hne.
    rewrite Htext. cbn [negb Py.truthy].
    do 4 f_equal. unfold dziennik_label, label, bold, image. rewrite Hhref.
    simpl default. rewrite Hseg.
    unfold opt_truthy, Py.or_else.
    destruct (Bs.find_parent soup a (Py.s "p")) as [[? p]|];
      [destruct (Bs.find p (Py.s "b")) as [[? b]|];
         [destruct (Bs.get_text_strip b) as [|? ?]|]|];
      simpl; try reflexivity;
      (destruct (Bs.find el (Py.s "img")) as [[? img]|]; [|reflexivity]);
      destruct (Bs.get img (Py.s "title")) as [[|? ?]|];
      destruct (Bs.get img (Py.s "alt")) as [[|? ?]|];
      reflexivity.
Qed.

Lemma dziennik_label_recovery_witness :
  let url := Py.s "https://dziennikustaw.gov.pl" in
  downloadable_acts
    (λ _ _, HttpOk {| resp_headers := ∅; resp_content := []; resp_text := [] |})
    (λ _, Sample.dziennik_page) url Sample.empty_world
  = (Return [{| rec_title := Sample.rozporzadzenie;
                rec_link := Py.s "https://dziennikustaw.gov.pl/DU/2024/123.pdf" |}],
     after Sample.empty_world [EvGet url])
  ∧ fix_anchor (Sample.bare_page, []) [0; 0]%nat
    = (Bs.append [0; 0]%nat (Bs.Text (Py.s " 123.pdf")) Sample.bare_page,
       [[0; 0]%nat])
  ∧ fix_anchor (Sample.image_page, []) [0; 0]%nat
    = (Bs.append [0; 0]%nat (Bs.Text (Py.s " Dz.U. 2024 poz. 77"))
         Sample.image_page, [[0; 0]%nat]).
Proof.
  pose (url := Py.s "https://dziennikustaw.gov.pl").
  destruct (dziennik_label_recovery url) as [H1 H2].
  refine (conj _ (conj _ _)).
  - exact (H1 eq_refl eq_refl eq_refl eq_refl
             (λ _ _, HttpOk {| resp_headers := ∅; resp_content := [];
                               resp_text := [] |})
             (λ _, Sample.dziennik_page) _ Sample.empty_world eq_refl eq_refl).
  - assert (Hne : Py.s "/DU/2024/123.pdf" ≠ []) by (vm_compute; discriminate).
    assert (Hseg : last_segment_of (Py.s "/DU/2024/123.pdf") (Py.s "123.pdf")).
    { split.
      - intros Hin. vm_compute in Hin.
        repeat (apply elem_of_cons in Hin as [Hin|Hin]; [discriminate Hin|]).
        by apply elem_of_nil in Hin.
      - right. by exists (Py.s "/DU/2024"). }
    pose proof (H2 Sample.bare_page [0; 0]%nat _ []
                  (Py.s "/DU/2024/123.pdf") (Py.s "123.pdf")
                  eq_refl eq_refl Hne eq_refl Hseg) as H.
    vm_compute in H |- *. exact H.
  - assert (Hne : Py.s "/DU/2024/77.pdf" ≠ []) by (vm_compute; discriminate).
    assert (Hseg : last_segment_of (Py.s "/DU/2024/77.pdf") (Py.s "77.pdf")).
    { split.
      - intros Hin. vm_compute in Hin.
        repeat (apply elem_of_cons in Hin as [Hin|Hin]; [discriminate Hin|]).
        by apply elem_of_nil in Hin.
      - right. by exists (Py.s "/DU/2024"). }
    pose proof (H2 Sample.image_page [0; 0]%nat _ []
                  (Py.s "/DU/2024/77.pdf") (Py.s "77.pdf")
                  eq_refl eq_refl Hne eq_refl Hseg) as H.
    vm_compute in H |- *. exact H.
Defined.

(** ** Downloads *)

Section Download.
Variable http_get : str → gmap str str → http_result.

Lemma try_alternate_eq (base_dir filename : str) (hdrs : gmap str str)
    (alt : str) (w : world) :
  try_alternate http_get base_dir filename hdrs alt w
  = match alternate_passes http_get hdrs alt with
    | Some resp2 =>
        let dest := OsPath.join base_dir (alternate_filename filename resp2) in
        (Return (Some dest), saved (after w [EvGet alt]) dest (resp_content resp2))
    | None => (Return None, after w [EvGet alt])
    end.
Proof.
  unfold try_alternate, alternate_passes, saved. run_m.
  destruct (http_get alt hdrs) as [resp2|e]; [|reflexivity].
  destruct (_looks_like_pdf _ _); [|reflexivity].
  cbn [files after]. by destruct (bool_decide _).
Qed.


(** [download_file], one step at a time. *)
Lemma download_file_eq (url folder : str) (title subtitle referer : option str)
    (w : world) :
  let base_dir := download_dir folder title subtitle in
  let hdrs := download_headers referer in
  let w1 := after w [EvMakedirs base_dir; EvGet url] in
  download_file http_get url folder title subtitle referer w
  = match http_get url hdrs with
    | HttpError e => (Raise e, w1)
    | HttpOk resp =>
        let filename := primary_filename url resp in
        let dest := OsPath.join base_dir filename in
        if bool_decide (is_Some (files w !! dest)) then (Return dest, w1) else
        if negb (_looks_like_pdf (resp_content resp) (resp_headers resp))
           && is_gov_attachment url
        then
          match try_alternates http_get base_dir filename hdrs (candidates url) w1 with
          | (Return (Some d), w2) => (Return d, w2)
          | (Return None, w2) => (Return dest, written w2 dest (resp_content resp))
          | (Raise e, w2) => (Raise e, w2)
          | (RaiseValueError, w2) => (RaiseValueError, w2)
          end
        else (Return dest, written w1 dest (resp_content resp))
    end.
Proof.
  intros base_dir hdrs w1. unfold download_file. fold base_dir. fold hdrs.
  run_m. cbn [files].
  assert (Hw1 : {| files := files w;
                   trace := trace {| files := files w;
                                     trace := trace w ++ [EvMakedirs base_dir] |}
                            ++ [EvGet url] |} = w1).
  { unfold w1, after. cbn [trace]. by rewrite <- app_assoc. }
  rewrite Hw1.
  destruct (http_get url hdrs) as [resp|e]; [|reflexivity].
  replace (files w1) with (files w) by reflexivity.
  destruct (bool_decide _); [reflexivity|].
  destruct (negb _ && _); [|reflexivity].
  destruct (try_alternates _ _ _ _ _ w1) as [[[d|]|e|] w2]; reflexivity.
Qed.

End Download.





(** ** Calling [download_file] again *)

Section Again.
Variable http_get : str → gmap str str → http_result.

Lemma saved_present (w : world) (path : str) (content : bytes) :
  is_Some (files (saved w path content) !! path).
Proof.
  unfold saved. destruct (bool_decide _) eqn:E.
  - by apply bool_decide_eq_true in E.
  - unfold written. cbn [files]. rewrite lookup_insert_eq. by eexists.
Qed.


Lemma saved_again (w : world) (path : str) (content : bytes) :
  is_Some (files w !! path) → saved w path content = w.
Proof. intros H. unfold saved. by rewrite bool_decide_eq_true_2. Qed.

(** What the loop over the alternates does depends on the world only
    through the final existence test. *)
Lemma try_alternates_cases (base_dir filename : str) (hdrs : gmap str str)
    (alts : list str) :
  (∃ evs, Forall (λ ev, is_write ev = false) evs
          ∧ ∀ w, try_alternates http_get base_dir filename hdrs alts w
                 = (Return None, after w evs))
  ∨ (∃ evs d c, Forall (λ ev, is_write ev = false) evs
                ∧ ∀ w, try_alternates http_get base_dir filename hdrs alts w
                       = (Return (Some d), saved (after w evs) d c)).
Proof.
  induction alts as [|alt alts IH].
  - left. exists []. split; [constructor|]. intros w. by rewrite after_nil.
  - destruct (alternate_passes http_get hdrs alt) as [resp2|] eqn:Hp.
    + right. eexists [EvGet alt], _, _. split; [by repeat constructor|].
      intros w. cbn [try_alternates]. unfold bind.
      rewrite try_alternate_eq, Hp. reflexivity.
    + destruct IH as [(evs & Hevs & IH) | (evs & d & c & Hevs & IH)].
      * left. exists (EvGet alt :: evs). split; [by constructor|].
        intros w. cbn [try_alternates]. unfold bind.
        rewrite try_alternate_eq, Hp, IH, after_after. reflexivity.
      * right. exists (EvGet alt :: evs), d, c. split; [by constructor|].
        intros w. cbn [try_alternates]. unfold bind.
        rewrite try_alternate_eq, Hp, IH, after_after. reflexivity.
Qed.

End Again.




(** ** Where a download lands *)

Section Landing.
Variable http_get : str → gmap str str → http_result.

Lemma try_alternates_Some (base_dir filename : str) (hdrs : gmap str str)
    (alts : list str) (w w' : world) (d : str) :
  try_alternates http_get base_dir filename hdrs alts w = (Return (Some d), w') →
  ∃ alt resp2 evs,
    alt ∈ alts ∧ http_get alt hdrs = HttpOk resp2
    ∧ d = OsPath.join base_dir (alternate_filename filename resp2)
    ∧ w' = saved (after w evs) d (resp_content resp2).
Proof.
  revert w. induction alts as [|alt alts IH]; intros w; [done|].
  cbn [try_alternates]. unfold bind. rewrite try_alternate_eq.
  destruct (alternate_passes http_get hdrs alt) as [resp2|] eqn:Hp.
  - intros [= <- <-]. exists alt, resp2, [EvGet alt].
    split; [by left|]. split; [|done].
    unfold alternate_passes in Hp.
    destruct (http_get alt hdrs); [|done]. by destruct (_looks_like_pdf _ _); simplify_eq.
  - intros H. apply IH in H as (alt' & resp2 & evs & Hin & Hget & Hd & Hw).
    exists alt', resp2, (EvGet alt :: evs).
    split; [by right|]. split; [done|]. split; [done|].
    by rewrite Hw, after_after.
Qed.

Lemma try_alternates_None (base_dir filename : str) (hdrs : gmap str str)
    (alts : list str) (w w' : world) :
  try_alternates http_get base_dir filename hdrs alts w = (Return None, w') →
  files w' = files w.
Proof.
  destruct (try_alternates_cases http_get base_dir filename hdrs alts)
    as [(evs & _ & Hall) | (evs & d & c & _ & Hall)]; rewrite Hall.
  - by intros [= <-].
  - done.
Qed.

Lemma saved_files (w : world) (path : str) (content : bytes) :
  files (saved w path content) = files w
  ∨ files (saved w path content) = <[path := content]> (files w).
Proof. unfold saved. destruct (bool_decide _); [by left|by right]. Qed.

Lemma download_file_lands (url folder : str) (title subtitle referer : option str)
    (w w' : world) (p : str) :
  download_file http_get url folder title subtitle referer w = (Return p, w') →
  ∃ resp f,
    http_get url (download_headers referer) = HttpOk resp
    ∧ p = OsPath.join (download_dir folder title subtitle) f
    ∧ (f = primary_filename url resp
       ∨ ∃ alt resp2,
           alt ∈ candidates url
           ∧ http_get alt (download_headers referer) = HttpOk resp2
           ∧ f = alternate_filename (primary_filename url resp) resp2)
    ∧ (files w' = files w ∨ ∃ c, files w' = <[p := c]> (files w)).
Proof.
  rewrite download_file_eq. cbv zeta.
  set (base_dir := download_dir folder title subtitle).
  set (hdrs := download_headers referer).
  destruct (http_get url hdrs) as [resp|e]; [|done].
  set (filename := primary_filename url resp).
  destruct (bool_decide _).
  { intros [= <- <-]. exists resp, filename.
    split; [done|]. split; [done|]. split; [by left|]. by left. }
  destruct (negb _ && _).
  2:{ intros [= <- <-]. exists resp, filename.
      split; [done|]. split; [done|]. split; [by left|]. right. by eexists. }
  destruct (try_alternates _ _ _ _ _ _) as [[[d|]|e|] w2] eqn:Halt.
  - intros [= <- <-].
    apply try_alternates_Some in Halt as (alt & resp2 & evs & Hin & Hget & -> & ->).
    exists resp, (alternate_filename filename resp2).
    split; [done|]. split; [done|]. split; [right; by exists alt, resp2|].
    destruct (saved_files (after (after w [EvMakedirs base_dir; EvGet url]) evs)
                (OsPath.join base_dir (alternate_filename filename resp2))
                (resp_content resp2)) as [->| ->]; eauto.
  - intros [= <- <-]. apply try_alternates_None in Halt.
    exists resp, filename. split; [done|]. split; [done|]. split; [by left|].
    right. eexists. unfold written. cbn [files]. by rewrite Halt.
  - done.
  - done.
Qed.

End Landing.

Lemma primary_filename_source (url : str) (resp : response) :
  _filename_from_cd
    (headers_get (resp_headers resp) (Py.s "Content-Disposition"))
  = Some (primary_filename url resp)
  ∨ primary_filename url resp = OsPath.basename (Url.path (Url.urlparse url))
  ∨ primary_filename url resp = Py.s "pobrany_plik".
Proof.
  unfold primary_filename, opt_or, Py.or_else.
  destruct (_filename_from_cd _) as [[|c f]|]; simpl; auto;
    destruct (OsPath.basename _); simpl; auto.
Qed.

Lemma alternate_filename_source (filename : str) (resp2 : response) :
  _filename_from_cd
    (headers_get (resp_headers resp2) (Py.s "Content-Disposition"))
  = Some (alternate_filename filename resp2)
  ∨ alternate_filename filename resp2 = filename.
Proof.
  unfold alternate_filename, opt_or, Py.or_else.
  destruct (_filename_from_cd _) as [[|c f]|]; simpl; auto.
Qed.

(** C10, as the code has it: [download_file] sanitises the title and the
    subtitle it turns into directories and nothing else.  The path of every
    download is [os.path.join] of that directory and a file name taken as
    it is: the Content-Disposition name of the first response or of the
    alternate that passed, or the last path segment of the URL, or, when
    neither gives a name, the literal pobrany_plik; the file, if one is
    written, is written there.  A Content-Disposition name with path
    separators therefore takes the file out of the directory: with the name
    ../../evil.pdf the path returned and written is not an entry of the
    destination directory. *)
Theorem filename_is_not_sanitised
    (http_get : str → gmap str str → http_result)
    (url folder : str) (title subtitle referer : option str) (w : world) :
  let cd_name := λ r : response,
    _filename_from_cd (headers_get (resp_headers r) (Py.s "Content-Disposition")) in
  (∀ t s, title = Some t → subtitle = Some s → t ≠ [] → s ≠ [] →
     download_dir folder title subtitle
     = OsPath.join (OsPath.join folder (_safe_dirname t)) (_safe_dirname s))
  ∧ (∀ p w',
       download_file http_get url folder title subtitle referer w = (Return p, w') →
       ∃ resp f,
         http_get url (download_headers referer) = HttpOk resp
         ∧ p = OsPath.join (download_dir folder title subtitle) f
         ∧ (cd_name resp = Some f
            ∨ (∃ alt resp2,
                 alt ∈ candidates url
                 ∧ http_get alt (download_headers referer) = HttpOk resp2
                 ∧ cd_name resp2 = Some f)
            ∨ f = OsPath.basename (Url.path (Url.urlparse url))
            ∨ f = Py.s "pobrany_plik")
         ∧ (files w' = files w ∨ ∃ c, files w' = <[p := c]> (files w)))
  ∧ (let dir := download_dir (Py.s "legal_acts") (Some (Py.s "Ministry/Report: 2024?")) None in
     let p := Py.s "legal_acts/Ministry_Report_ 2024_/../../evil.pdf" in
     cd_name (Sample.response_with_cd Sample.climbing_cd (Py.b "%PDF-1.7 evil"))
     = Some (Py.s "../../evil.pdf")
     ∧ download_file Sample.climbing_transport url (Py.s "legal_acts")
         (Some (Py.s "Ministry/Report: 2024?")) None None Sample.empty_world
       = (Return p,
          written (after Sample.empty_world [EvMakedirs dir; EvGet url]) p
                  (Py.b "%PDF-1.7 evil"))
     ∧ direct_child dir p = false).
Proof.
  intros cd_name. split; [|split].
  - intros t s -> -> Ht Hs. unfold download_dir, opt_truthy. simpl default.
    apply truthy_nonempty in Ht, Hs. by rewrite Ht, Hs.
  - intros p w' Hrun.
    apply download_file_lands in Hrun as (resp & f & Hget & Hp & Hf & Hfiles).
    exists resp, f. split; [done|]. split; [done|]. split; [|done].
    destruct Hf as [-> | (alt & resp2 & Hin & Hget2 & ->)].
    + destruct (primary_filename_source url resp) as [H|[H|H]]; auto.
    + destruct (alternate_filename_source (primary_filename url resp) resp2)
        as [H|H].
      * right. left. by exists alt, resp2.
      * rewrite H.
        destruct (primary_filename_source url resp) as [H'|[H'|H']]; auto.
  - cbv zeta. split; [reflexivity|]. split; [|vm_compute; reflexivity].
    rewrite download_file_eq. cbv zeta.
    unfold Sample.climbing_transport.
    change (primary_filename url _) with (Py.s "../../evil.pdf").
    reflexivity.
Qed.

Lemma filename_is_not_sanitised_witness :
  download_dir (Py.s "legal_acts") (Some (Py.s "Ministry/Report: 2024?"))
    (Some (Py.s "Etap 1."))
  = Py.s "legal_acts/Ministry_Report_ 2024_/Etap 1"
  ∧ ∃ resp f,
      Sample.climbing_transport Sample.attachment_url (download_headers None)
      = HttpOk resp
      ∧ Py.s "legal_acts/Ministry_Report_ 2024_/../../evil.pdf"
        = OsPath.join (download_dir (Py.s "legal_acts")
                         (Some (Py.s "Ministry/Report: 2024?")) None) f
      ∧ f = Py.s "../../evil.pdf".
Proof.
  destruct (filename_is_not_sanitised Sample.climbing_transport
              Sample.attachment_url (Py.s "legal_acts")
              (Some (Py.s "Ministry/Report: 2024?")) None None
              Sample.empty_world) as (_ & Hland & _ & Hrun & _).
  split.
  - pose proof (proj1 (filename_is_not_sanitised Sample.climbing_transport
                          Sample.attachment_url (Py.s "legal_acts")
                          (Some (Py.s "Ministry/Report: 2024?"))
                          (Some (Py.s "Etap 1.")) None Sample.empty_world)
                  (Py.s "Ministry/Report: 2024?") (Py.s "Etap 1.")
                  eq_refl eq_refl) as H.
    rewrite H; [reflexivity|vm_compute; discriminate|vm_compute; discriminate].
  - destruct (Hland _ _ Hrun) as (resp & f & Hget & Hp & Hf & _).
    exists resp, f. split; [done|]. split; [done|].
    injection Hget as <-.
    destruct Hf as [Hf|[(alt & resp2 & _ & Hget2 & Hf)|[-> | ->]]].
    + vm_compute in Hf. by injection Hf as <-.
    + injection Hget2 as <-. vm_compute in Hf. by injection Hf as <-.
    + vm_compute in Hp. discriminate Hp.
    + vm_compute in Hp. discriminate Hp.
Defined.

(** The file name is not always a Content-Disposition name or the last
    path segment of the URL: with neither, under a URL whose path ends in a
    slash, the file is saved as pobrany_plik. *)
Lemma fallback_name_is_a_literal :
  download_file Sample.unnamed_transport Sample.root_url (Py.s "legal_acts")
    None None None Sample.empty_world
  = (Return (Py.s "legal_acts/pobrany_plik"),
     written (after Sample.empty_world
                [EvMakedirs (Py.s "legal_acts"); EvGet Sample.root_url])
       (Py.s "legal_acts/pobrany_plik") (Py.b "%PDF-1.4 unnamed"))
  ∧ _filename_from_cd
      (headers_get (resp_headers Sample.pdf_unnamed) (Py.s "Content-Disposition"))
    = None
  ∧ OsPath.basename (Url.path (Url.urlparse Sample.root_url)) = [].
Proof. repeat split; vm_compute; reflexivity. Qed.

(** ** The events of a computation *)

Section Events.
Variable P : event → Prop.

Lemma emits_only_ret {A} (a : A) : emits_only P (ret a).
Proof. intros w. exists []. split; [by rewrite app_nil_r|constructor]. Qed.

Lemma emits_only_bind {A B} (m : M A) (k : A → M B) :
  emits_only P m → (∀ a, emits_only P (k a)) → emits_only P (bind m k).
Proof.
  intros Hm Hk w. unfold bind. destruct (Hm w) as (evs & Ht & Hevs).
  destruct (m w) as [[a|e|] w1]; cbn [snd] in *.
  - destruct (Hk a w1) as (evs' & Ht' & Hevs'). exists (evs ++ evs').
    split; [by rewrite Ht', Ht, app_assoc|by apply Forall_app].
  - by exists evs.
  - by exists evs.
Qed.

Lemma emits_only_try_except {A} (m : M A) (handler : str → M A) :
  emits_only P m → (∀ e, emits_only P (handler e)) →
  emits_only P (try_except m handler).
Proof.
  intros Hm Hh w. unfold try_except. destruct (Hm w) as (evs & Ht & Hevs).
  destruct (m w) as [[a|e|] w1]; cbn [snd] in *.
  - by exists evs.
  - destruct (Hh e w1) as (evs' & Ht' & Hevs'). exists (evs ++ evs').
    split; [by rewrite Ht', Ht, app_assoc|by apply Forall_app].
  - by exists evs.
Qed.

Lemma emits_only_emit (ev : event) : P ev → emits_only P (emit ev).
Proof. intros Hev w. exists [ev]. split; [done|by constructor]. Qed.

Lemma emits_only_write_file (path : str) (content : bytes) :
  P (EvWrite path content) → emits_only P (write_file path content).
Proof. intros Hev w. exists [EvWrite path content]. split; [done|by constructor]. Qed.

Lemma emits_only_path_exists (path : str) : emits_only P (path_exists path).
Proof. intros w. exists []. split; [by rewrite app_nil_r|constructor]. Qed.

Lemma emits_only_news_loop (base : str) (soup : Bs.node)
    (articles : list Bs.ref) (news_list : list record) :
  emits_only P (news_loop base soup articles news_list).
Proof.
  intros w. exists []. rewrite news_loop_eq, app_nil_r.
  split; [by destruct (existsb _ _)|constructor].
Qed.

Lemma emits_only_for_each {A} (xs : list A) (body : A → M unit) :
  (∀ x, emits_only P (body x)) → emits_only P (for_each xs body).
Proof.
  intros Hbody. induction xs as [|x xs IH]; cbn [for_each].
  - apply emits_only_ret.
  - by apply emits_only_bind.
Qed.

Section Program.
Variable http_get : str → gmap str str → http_result.
Variable parse_html : str → Bs.node.
Hypothesis gets : ∀ url, P (EvGet url).
Hypothesis writes : ∀ path content, P (EvWrite path content).
Hypothesis makedirs : ∀ dir, P (EvMakedirs dir).
Hypothesis prints : ∀ line, P (EvPrint line).
Hypothesis errors : ∀ msg, P (EvLogError msg).

Lemma emits_only_transport (url : str) (hdrs : gmap str str) :
  emits_only P (transport http_get url hdrs).
Proof.
  intros w. exists []. unfold transport.
  split; [|constructor]. destruct (http_get url hdrs); by rewrite app_nil_r.
Qed.

Lemma emits_only_requests_get (url : str) (hdrs : gmap str str) :
  emits_only P (requests_get http_get url hdrs).
Proof.
  apply emits_only_bind; [by apply emits_only_emit|].
  intros _. apply emits_only_transport.
Qed.

Lemma emits_only_download_once (url : str) (hdrs : gmap str str) :
  emits_only P (_download_once http_get url hdrs).
Proof.
  apply emits_only_bind; [apply emits_only_requests_get|].
  intros r. apply emits_only_ret.
Qed.

Lemma emits_only_try_alternates (base_dir filename : str) (hdrs : gmap str str)
    (alts : list str) :
  emits_only P (try_alternates http_get base_dir filename hdrs alts).
Proof.
  induction alts as [|alt alts IH]; cbn [try_alternates].
  - apply emits_only_ret.
  - apply emits_only_bind; [|intros [d|]; [apply emits_only_ret|apply IH]].
    apply emits_only_try_except; [|intros _; apply emits_only_ret].
    apply emits_only_bind; [apply emits_only_download_once|].
    intros [resp2 content2]. destruct (_looks_like_pdf _ _); [|apply emits_only_ret].
    apply emits_only_bind; [apply emits_only_path_exists|].
    intros [|]; [apply emits_only_ret|].
    apply emits_only_bind; [by apply emits_only_write_file|].
    intros _. apply emits_only_ret.
Qed.

Lemma emits_only_download_file (url folder : str)
    (title subtitle referer : option str) :
  emits_only P (download_file http_get url folder title subtitle referer).
Proof.
  unfold download_file.
  apply emits_only_bind; [by apply emits_only_emit|]. intros _.
  apply emits_only_bind; [apply emits_only_download_once|].
  intros [resp content].
  apply emits_only_bind; [apply emits_only_path_exists|].
  intros [|]; [apply emits_only_ret|].
  apply emits_only_bind.
  - destruct (negb _ && _); [apply emits_only_try_alternates|apply emits_only_ret].
  - intros [d|]; [apply emits_only_ret|].
    apply emits_only_bind; [by apply emits_only_write_file|].
    intros _. apply emits_only_ret.
Qed.

Lemma emits_only_fetch_subpages (url : str) :
  emits_only P (fetch_subpages http_get parse_html url).
Proof.
  apply emits_only_try_except.
  - apply emits_only_bind; [apply emits_only_requests_get|].
    intros r. apply emits_only_news_loop.
  - intros e. apply emits_only_bind; [by apply emits_only_emit|].
    intros _. apply emits_only_ret.
Qed.

Lemma emits_only_downloadable_acts (url : str) :
  emits_only P (downloadable_acts http_get parse_html url).
Proof.
  apply emits_only_try_except.
  - apply emits_only_bind; [apply emits_only_requests_get|].
    intros r. cbv zeta. destruct (find_acts url _). apply emits_only_news_loop.
  - intros e. apply emits_only_bind; [by apply emits_only_emit|].
    intros _. apply emits_only_ret.
Qed.

Lemma emits_only_get_title_from_url (url : str) :
  emits_only P (get_title_from_url http_get parse_html url).
Proof.
  apply emits_only_try_except.
  - apply emits_only_bind; [apply emits_only_requests_get|].
    intros r. apply emits_only_ret.
  - intros e. apply emits_only_bind; [by apply emits_only_emit|].
    intros _. apply emits_only_ret.
Qed.

Lemma emits_only_download_each (folder : str) (title subtitle : option str)
    (acts : list record) :
  emits_only P
    (for_each acts (λ act,
       bind (emit (found_document act)) (λ _,
       bind (download_file http_get (rec_link act) folder title subtitle None)
            (λ _, ret tt)))).
Proof.
  apply emits_only_for_each. intros act.
  apply emits_only_bind; [apply emits_only_emit, prints|]. intros _.
  apply emits_only_bind; [apply emits_only_download_file|].
  intros _. apply emits_only_ret.
Qed.

End Program.
End Events.

(** ** The warning of [get_acts] *)

(** When [get_acts] logs its warning: never when the second test (SEJM,
    DZIENNIK or FINANSE) holds; at the very end of every run that returns
    when it does not hold, whether or not the first test (RCL) held; and as
    its only effect when neither holds. *)
Lemma get_acts_warning (http_get : str → gmap str str → http_result)
    (parse_html : str → Bs.node)
    (url : str) (w : world) :
  let host := Py.lower (Url.netloc (Url.urlparse url)) in
  let path := Py.lower (Url.path (Url.urlparse url)) in
  let first := Py.contains host (Py.s "legislacja.rcl.gov.pl") in
  let second :=
    Py.contains host (Py.s "sejm.gov.pl")
    || Py.contains host (Py.s "dziennikustaw.gov.pl")
    || (Py.endswith host (Py.s "gov.pl")
        && Py.contains path (Py.s "/web/finanse")) in
  let warning :=
    EvLogWarning (Py.s "Unsupported host for acts downloading: " ++ host) in
  let run := get_acts http_get parse_html url w in
  (second = true → Forall (λ ev, is_warning ev = false) (new_events w (snd run)))
  ∧ (second = false → ∀ w', run = (Return tt, w') →
     last (trace w') = Some warning)
  ∧ (second = false → first = false → run = (Return tt, after w [warning])).
Proof.
  intros host path first second warning run.
  pose (quiet := λ ev, is_warning ev = false).
  assert (Hrcl : emits_only quiet
            (if first then
               bind (get_title_from_url http_get parse_html url) (λ title,
               bind (fetch_subpages http_get parse_html url) (λ subpages,
               for_each subpages (λ subpage,
                 bind (downloadable_acts http_get parse_html
                         (rec_link subpage)) (λ acts,
                 for_each acts (λ act,
                   bind (emit (found_document act)) (λ _,
                   bind (download_file http_get (rec_link act) (Py.s "legal_acts")
                           (as_optional title) (Some (rec_title subpage)) None)
                        (λ _, ret tt)))))))
             else ret tt)).
  { destruct first; [|apply emits_only_ret].
    apply emits_only_bind; [by apply emits_only_get_title_from_url|]. intros title.
    apply emits_only_bind; [by apply emits_only_fetch_subpages|]. intros subpages.
    apply emits_only_for_each. intros subpage.
    apply emits_only_bind; [by apply emits_only_downloadable_acts|]. intros acts.
    by apply emits_only_download_each. }
  split; [|split].
  - intros Hsecond. unfold run, get_acts. fold host path first second.
    rewrite Hsecond.
    match goal with |- context [snd (?m w)] => assert (Hm : emits_only quiet m) end.
    { apply emits_only_bind; [exact Hrcl|]. intros _.
      apply emits_only_bind; [by apply emits_only_get_title_from_url|]. intros title.
      apply emits_only_bind; [by apply emits_only_downloadable_acts|]. intros acts.
      by apply emits_only_download_each. }
    destruct (Hm w) as (evs & Ht & Hevs). unfold new_events.
    by rewrite Ht, drop_app_length.
  - intros Hsecond w'. unfold run, get_acts. fold host path first second.
    rewrite Hsecond. unfold bind at 1.
    match goal with |- context [?m w] => destruct (m w) as [[[]|e|] w1] end;
      [|done|done].
    rewrite emit_after. intros [= <-]. apply last_snoc.
  - intros Hsecond Hfirst. unfold run, get_acts. fold host path first second.
    by rewrite Hsecond, Hfirst.
Qed.

(** C9: a project URL of the RCL portal matches the first profile, its
    documents are discovered and downloaded, and [get_acts] then logs the
    unsupported-host warning all the same: the [else] of the warning
    belongs to the second test alone. *)
Theorem rcl_url_is_warned_unsupported :
  Py.contains (Py.lower (Url.netloc (Url.urlparse Sample.rcl_url)))
              (Py.s "legislacja.rcl.gov.pl") = true
  ∧ get_acts Sample.rcl_transport Sample.rcl_parse
      Sample.rcl_url Sample.empty_world
    = (Return tt,
       {| files :=
            {[ Py.s "legal_acts/Projekt ustawy/Uzgodnienia/dokument1.pdf"
               := Py.b "%PDF-1.7 projekt" ]};
          trace :=
            [EvGet Sample.rcl_url;
             EvGet Sample.rcl_url;
             EvGet Sample.rcl_stage_url;
             EvPrint (Py.s " - Found document: Projekt at "
                      ++ Sample.rcl_document_url);
             EvMakedirs (Py.s "legal_acts/Projekt ustawy/Uzgodnienia");
             EvGet Sample.rcl_document_url;
             EvWrite (Py.s "legal_acts/Projekt ustawy/Uzgodnienia/dokument1.pdf")
                     (Py.b "%PDF-1.7 projekt");
             EvLogWarning (Py.s "Unsupported host for acts downloading: "
                           ++ Py.s "legislacja.rcl.gov.pl")] |}).
Proof. split; vm_compute; reflexivity. Qed.

(** * Further properties of the module *)

(** ** What reaches the disk *)

Section Disk.
Variable http_get : str → gmap str str → http_result.

Lemma only_adds_refl (w : world) : only_adds_downloads http_get w w.
Proof. split; [done|]. intros path c H. by left. Qed.

Lemma only_adds_trans (w1 w2 w3 : world) :
  only_adds_downloads http_get w1 w2 → only_adds_downloads http_get w2 w3 →
  only_adds_downloads http_get w1 w3.
Proof.
  intros [H12 K12] [H23 K23]. split; [by etrans|].
  intros path c H. destruct (K23 path c H) as [H2|?]; [|by right]. by apply K12.
Qed.

Lemma only_adds_after (w : world) (evs : list event) :
  only_adds_downloads http_get w (after w evs).
Proof. split; [done|]. intros path c H. by left. Qed.

Lemma only_adds_saved (w : world) (path url : str) (hdrs : gmap str str)
    (resp : response) :
  http_get url hdrs = HttpOk resp →
  only_adds_downloads http_get w (saved w path (resp_content resp)).
Proof.
  intros Hget. unfold saved. destruct (bool_decide _) eqn:E; [apply only_adds_refl|].
  apply bool_decide_eq_false in E. rewrite <- eq_None_not_Some in E.
  unfold written. split; cbn [files].
  - by apply insert_subseteq.
  - intros p c H. destruct (decide (p = path)) as [->|Hne].
    + rewrite lookup_insert_eq in H. injection H as <-. right. eauto.
    + rewrite lookup_insert_ne in H by done. by left.
Qed.

Section Closure.
Variable R : world → world → Prop.
Hypothesis R_refl : ∀ w, R w w.
Hypothesis R_trans : ∀ w1 w2 w3, R w1 w2 → R w2 w3 → R w1 w3.

Lemma moves_along_ret {A} (a : A) : moves_along R (ret a).
Proof. intros w. apply R_refl. Qed.

Lemma moves_along_bind {A B} (m : M A) (k : A → M B) :
  moves_along R m → (∀ a, moves_along R (k a)) → moves_along R (bind m k).
Proof.
  intros Hm Hk w. unfold bind. specialize (Hm w).
  destruct (m w) as [[a|e|] w1]; cbn [snd] in *; [|done|done].
  eapply R_trans; [exact Hm|apply Hk].
Qed.

Lemma moves_along_try_except {A} (m : M A) (handler : str → M A) :
  moves_along R m → (∀ e, moves_along R (handler e)) →
  moves_along R (try_except m handler).
Proof.
  intros Hm Hh w. unfold try_except. specialize (Hm w).
  destruct (m w) as [[a|e|] w1]; cbn [snd] in *; [done| |done].
  eapply R_trans; [exact Hm|apply Hh].
Qed.

Lemma moves_along_news_loop (base : str) (soup : Bs.node)
    (articles : list Bs.ref) :
  moves_along R (news_loop base soup articles []).
Proof. intros w. rewrite news_loop_listing. apply R_refl. Qed.

Lemma moves_along_for_each {A} (xs : list A) (body : A → M unit) :
  (∀ x, moves_along R (body x)) → moves_along R (for_each xs body).
Proof.
  intros Hbody. induction xs as [|x xs IH]; cbn [for_each].
  - apply moves_along_ret.
  - by apply moves_along_bind.
Qed.

End Closure.

Lemma saved_new_or_same (w : world) (path : str) (content : bytes) :
  saved w path content = w
  ∨ (files w !! path = None ∧ saved w path content = written w path content).
Proof.
  unfold saved. destruct (bool_decide _) eqn:E; [by left|right].
  apply bool_decide_eq_false in E. by rewrite <- eq_None_not_Some in E.
Qed.

End Disk.

(** X1: one call of [download_file] leaves every file that exists as it is
    and creates at most one file.  When it creates one, the call returns
    the path of that file, no file existed at that path, and the content
    is the body of the response to the URL itself or to one of its two
    alternate forms, fetched with the headers of the call.  This holds
    whether the call returns or raises. *)
Theorem download_file_adds_one_download
    (http_get : str → gmap str str → http_result)
    (url folder : str) (title subtitle referer : option str) (w : world) :
  let run := download_file http_get url folder title subtitle referer w in
  files (snd run) = files w
  ∨ ∃ path u resp,
      fst run = Return path
      ∧ files w !! path = None
      ∧ (u = url ∨ u ∈ candidates url)
      ∧ http_get u (download_headers referer) = HttpOk resp
      ∧ files (snd run) = <[path := resp_content resp]> (files w).
Proof.
  intros run. unfold run. rewrite download_file_eq. cbv zeta.
  set (base_dir := download_dir folder title subtitle).
  set (hdrs := download_headers referer).
  set (w1 := after w [EvMakedirs base_dir; EvGet url]).
  destruct (http_get url hdrs) as [resp|e] eqn:Hget; [|by left].
  set (filename := primary_filename url resp).
  set (dest := OsPath.join base_dir filename).
  destruct (bool_decide _) eqn:Hdest; [by left|].
  apply bool_decide_eq_false in Hdest. rewrite <- eq_None_not_Some in Hdest.
  destruct (negb _ && _).
  2:{ right. exists dest, url, resp. cbn [fst snd written files]. auto. }
  destruct (try_alternates _ _ _ _ _ _) as [[[d|]|e|] w2] eqn:Halt.
  - apply try_alternates_Some in Halt as (alt & resp2 & evs & Hin & Hget2 & Hd & ->).
    destruct (saved_new_or_same (after w1 evs) d (resp_content resp2))
      as [->|[Hnone ->]]; [by left|right].
    exists d, alt, resp2. cbn [fst snd written files after] in *. auto 6.
  - apply try_alternates_None in Halt. right. exists dest, url, resp.
    cbn [fst snd written files]. rewrite Halt. cbn [w1 after files]. auto.
  - left. cbn [snd].
    destruct (try_alternates_cases http_get base_dir filename hdrs (candidates url))
      as [(evs & _ & Hall) | (evs & d & c & _ & Hall)];
      rewrite Hall in Halt; discriminate Halt.
  - left. cbn [snd].
    destruct (try_alternates_cases http_get base_dir filename hdrs (candidates url))
      as [(evs & _ & Hall) | (evs & d & c & _ & Hall)];
      rewrite Hall in Halt; discriminate Halt.
Qed.

Section DiskProgram.
Variable http_get : str → gmap str str → http_result.
Variable parse_html : str → Bs.node.

#[local] Abbreviation grows := (moves_along (only_adds_downloads http_get)).

Lemma grows_bind {A B} (m : M A) (k : A → M B) :
  grows m → (∀ a, grows (k a)) → grows (bind m k).
Proof. apply moves_along_bind, only_adds_trans. Qed.

Lemma grows_ret {A} (a : A) : grows (ret a).
Proof. apply moves_along_ret, only_adds_refl. Qed.

Lemma grows_emit (ev : event) : grows (emit ev).
Proof. intros w. apply (only_adds_after http_get w [ev]). Qed.

Lemma grows_requests_get (url : str) (hdrs : gmap str str) :
  grows (requests_get http_get url hdrs).
Proof.
  apply grows_bind; [apply grows_emit|]. intros _ w. unfold transport.
  destruct (http_get url hdrs); apply only_adds_refl.
Qed.

Lemma grows_page {A} (url : str) (k : response → M A) (h : str → M A) :
  (∀ r, grows (k r)) → (∀ e, grows (h e)) →
  grows (try_except (bind (requests_get http_get url HEADERS) k) h).
Proof.
  intros Hk Hh.
  apply moves_along_try_except; [apply only_adds_trans| |done].
  by apply grows_bind; [apply grows_requests_get|].
Qed.

Lemma grows_log {A} (msg : str) (a : A) :
  grows (bind (emit (EvLogError msg)) (λ _, ret a)).
Proof. apply grows_bind; [apply grows_emit|]. intros _. apply grows_ret. Qed.

Lemma grows_download_file (url folder : str) (title subtitle referer : option str) :
  grows (download_file http_get url folder title subtitle referer).
Proof.
  intros w. rewrite download_file_eq. cbv zeta.
  set (base_dir := download_dir folder title subtitle).
  set (hdrs := download_headers referer).
  set (w1 := after w [EvMakedirs base_dir; EvGet url]).
  assert (H1 : only_adds_downloads http_get w w1) by apply only_adds_after.
  destruct (http_get url hdrs) as [resp|e] eqn:Hget; [|done].
  set (dest := OsPath.join base_dir (primary_filename url resp)).
  assert (Hsave : ∀ w2, files w2 = files w → files w !! dest = None →
            only_adds_downloads http_get w (written w2 dest (resp_content resp))).
  { intros w2 Hw2 Hnone.
    pose proof (only_adds_saved http_get w dest url hdrs resp Hget) as Hs.
    unfold saved in Hs. rewrite bool_decide_eq_false_2 in Hs
      by (rewrite Hnone; by intros [? ?]).
    destruct Hs as [Hsub Hsrc]. unfold written in *. cbn [files] in *.
    rewrite Hw2. by split. }
  destruct (bool_decide _) eqn:Hdest; [done|].
  apply bool_decide_eq_false in Hdest. rewrite <- eq_None_not_Some in Hdest.
  destruct (negb _ && _); [|by apply Hsave].
  destruct (try_alternates _ _ _ _ _ _) as [[[d|]|e|] w2] eqn:Halt; cbn [snd].
  - apply try_alternates_Some in Halt as (alt & resp2 & evs & Hin & Hget2 & Hd & ->).
    eapply only_adds_trans; [exact H1|].
    eapply only_adds_trans; [apply only_adds_after|].
    by eapply only_adds_saved.
  - apply try_alternates_None in Halt. by apply Hsave.
  - destruct (try_alternates_cases http_get base_dir (primary_filename url resp)
                hdrs (candidates url))
      as [(evs & _ & Hall) | (evs & d & c & _ & Hall)];
      rewrite Hall in Halt; discriminate Halt.
  - destruct (try_alternates_cases http_get base_dir (primary_filename url resp)
                hdrs (candidates url))
      as [(evs & _ & Hall) | (evs & d & c & _ & Hall)];
      rewrite Hall in Halt; discriminate Halt.
Qed.

Lemma grows_download_each (folder : str) (title subtitle : option str)
    (acts : list record) :
  grows (for_each acts (λ act,
           bind (emit (found_document act)) (λ _,
           bind (download_file http_get (rec_link act) folder title subtitle None)
                (λ _, ret tt)))).
Proof.
  apply moves_along_for_each; [apply only_adds_refl|apply only_adds_trans|].
  intros act. apply grows_bind; [apply grows_emit|]. intros _.
  apply grows_bind; [apply grows_download_file|]. intros _. apply grows_ret.
Qed.

Lemma grows_get_title_from_url (url : str) :
  grows (get_title_from_url http_get parse_html url).
Proof.
  apply grows_page; [intros r; apply grows_ret|intros e; apply grows_log].
Qed.

Lemma grows_fetch_subpages (url : str) :
  grows (fetch_subpages http_get parse_html url).
Proof.
  apply grows_page; [|intros e; apply grows_log].
  intros r. apply moves_along_news_loop, only_adds_refl.
Qed.

Lemma grows_downloadable_acts (url : str) :
  grows (downloadable_acts http_get parse_html url).
Proof.
  apply grows_page; [|intros e; apply grows_log].
  intros r. cbv zeta. destruct (find_acts url _).
  apply moves_along_news_loop, only_adds_refl.
Qed.

Lemma grows_get_acts (url : str) : grows (get_acts http_get parse_html url).
Proof.
  unfold get_acts. cbv zeta. apply grows_bind.
  - destruct (Py.contains _ (Py.s "legislacja.rcl.gov.pl")); [|apply grows_ret].
    apply grows_bind; [apply grows_get_title_from_url|]. intros title.
    apply grows_bind; [apply grows_fetch_subpages|]. intros subpages.
    apply moves_along_for_each; [apply only_adds_refl|apply only_adds_trans|].
    intros subpage. apply grows_bind; [apply grows_downloadable_acts|].
    intros acts. apply grows_download_each.
  - intros _. destruct (_ || _ || _); [|apply grows_emit].
    apply grows_bind; [apply grows_get_title_from_url|]. intros title.
    apply grows_bind; [apply grows_downloadable_acts|]. intros acts.
    apply grows_download_each.
Qed.

End DiskProgram.

(** X2: a run of [get_acts], for any URL, transport and parser and whether
    it returns or raises, leaves every file that exists with the content
    it has, and every file it adds holds the body of a response of the
    transport. *)
Theorem get_acts_only_adds_downloads
    (http_get : str → gmap str str → http_result) (parse_html : str → Bs.node)
    (url : str) (w : world) :
  let w' := snd (get_acts http_get parse_html url w) in
  (∀ path c, files w !! path = Some c → files w' !! path = Some c)
  ∧ (∀ path c, files w' !! path = Some c →
       files w !! path = Some c
       ∨ ∃ u hdrs resp, http_get u hdrs = HttpOk resp ∧ resp_content resp = c).
Proof.
  intros w'. destruct (grows_get_acts http_get parse_html url w) as [Hsub Hsrc].
  split; [|exact Hsrc].
  intros path c H. by eapply lookup_weaken.
Qed.

Lemma get_acts_only_adds_downloads_witness :
  ∃ u hdrs resp,
    Sample.rcl_transport u hdrs = HttpOk resp
    ∧ resp_content resp = Py.b "%PDF-1.7 projekt".
Proof.
  destruct (get_acts_only_adds_downloads Sample.rcl_transport Sample.rcl_parse
              Sample.rcl_url Sample.empty_world) as [_ H].
  destruct (H (Py.s "legal_acts/Projekt ustawy/Uzgodnienia/dokument1.pdf")
              (Py.b "%PDF-1.7 projekt")) as [Hold|Hnew].
  - vm_compute. reflexivity.
  - cbn [Sample.empty_world files] in Hold. by rewrite lookup_empty in Hold.
  - exact Hnew.
Defined.

(** ** Directories of a download *)

Section StripEnds.
Context {A : Type} (p : A → bool).

Lemma rstrip_by_prefix (x : list A) : Py.rstrip_by p x `prefix_of` x.
Proof.
  unfold Py.rstrip_by. apply prefix_suffix_reverse.
  rewrite reverse_involutive. apply lstrip_by_suffix.
Qed.

Lemma strip_by_head (x : list A) (c : A) :
  head (Py.strip_by p x) = Some c → p c = false.
Proof.
  unfold Py.strip_by. intros H. apply (lstrip_by_head p x).
  destruct (rstrip_by_prefix (Py.lstrip_by p x)) as [k Hk].
  rewrite Hk. by destruct (Py.rstrip_by p _).
Qed.

End StripEnds.

Lemma startswith_app (pre x : str) : Py.startswith (pre ++ x) pre = true.
Proof.
  induction pre as [|c pre IH]; [by destruct x|].
  simpl. by rewrite N.eqb_refl.
Qed.

Lemma startswith_head (x : str) (c : N) :
  Py.startswith x [c] = true ↔ head x = Some c.
Proof.
  destruct x as [|d x]; simpl; [done|].
  assert (Hnil : Py.startswith x [] = true) by (by destruct x).
  rewrite Hnil, andb_true_r, N.eqb_eq. split; [by intros ->|by intros [= ->]].
Qed.

Lemma endswith_last (x : str) (c : N) :
  Py.endswith x [c] = true ↔ last x = Some c.
Proof.
  unfold Py.endswith. change (reverse [c]) with [c].
  by rewrite startswith_head, head_reverse.
Qed.

(** The first character of a sanitised name is neither a dot nor a
    space. *)
Lemma safe_dirname_head (name : str) (c : N) :
  head (_safe_dirname name) = Some c → c ≠ 46 ∧ c ≠ 32.
Proof.
  unfold _safe_dirname, Py.or_else.
  set (stripped := Py.strip_chars _ _).
  destruct (take 120 stripped) as [|c0 t] eqn:E; simpl Py.truthy; cbv iota.
  - vm_compute. by intros [= <-].
  - simpl. intros [= <-].
    assert (Hhead : head stripped = Some c0) by (by destruct stripped; simplify_eq/=).
    apply strip_by_head in Hhead. unfold Py.mem in Hhead.
    apply bool_decide_eq_false in Hhead. vm_compute in Hhead.
    split; intros ->; apply Hhead; repeat constructor.
Qed.

(** Joined to a directory, a sanitised name is an entry of that
    directory. *)
Lemma safe_dirname_direct_child (base name : str) :
  Py.truthy base = true → Py.endswith base (Py.s "/") = false →
  OsPath.join base (_safe_dirname name) = base ++ Py.s "/" ++ _safe_dirname name
  ∧ direct_child base (OsPath.join base (_safe_dirname name)) = true.
Proof.
  intros Hbase Hend.
  destruct (safe_dirname_sound name) as (Hchars & _ & Hne & _).
  pose proof (safe_dirname_head name) as Hhead.
  set (d := _safe_dirname name) in *. clearbody d.
  assert (Hslash : 47 ∉ d).
  { intros Hin. rewrite Forall_forall in Hchars. apply (Hchars 47 Hin).
    vm_compute. repeat constructor. }
  assert (Hjoin : OsPath.join base d = base ++ Py.s "/" ++ d).
  { unfold OsPath.join. rewrite Hbase, Hend. cbn [negb orb].
    destruct (Py.startswith d (Py.s "/")) eqn:E; [|done].
    exfalso. apply (startswith_head d 47) in E.
    destruct d as [|c d']; [done|]. injection E as ->. apply Hslash. by left. }
  split; [done|]. rewrite Hjoin. unfold direct_child. cbv zeta.
  rewrite app_assoc, startswith_app, drop_app_length. cbn [andb].
  apply truthy_nonempty in Hne. rewrite Hne. unfold Py.mem.
  rewrite (bool_decide_eq_false_2 _ Hslash). cbn [andb negb].
  rewrite !bool_decide_eq_false_2; [done| |].
  - intros Hd. destruct (Hhead 46) as [? _]; [by rewrite Hd|done].
  - intros Hd. destruct (Hhead 46) as [? _]; [by rewrite Hd|done].
Qed.

Lemma joined_not_slash_ended (base d : str) :
  d ≠ [] → 47 ∉ d → Py.truthy (base ++ Py.s "/" ++ d) = true
                     ∧ Py.endswith (base ++ Py.s "/" ++ d) (Py.s "/") = false.
Proof.
  intros Hne Hslash. split; [by destruct base|].
  apply not_true_is_false. intros H. apply (endswith_last _ 47) in H.
  rewrite app_assoc, last_app in H.
  destruct (last d) as [c|] eqn:E.
  - injection H as ->. apply Hslash. apply last_Some in E as [k ->].
    apply elem_of_app. right. by left.
  - by apply last_None in E.
Qed.

(** X3: the directory of a download lies within [folder], for a folder
    that is not empty and does not end with a slash (as legal_acts, the one
    [get_acts] passes): it is [folder] itself when neither a title nor a
    subtitle is given, an entry of [folder] when one of them is, and an
    entry of an entry of [folder] when both are.  Whatever the title and
    the subtitle hold (slashes, dots, dot-dot), no component steps out. *)
Theorem download_dir_stays_inside (folder : str) (title subtitle : option str) :
  Py.truthy folder = true → Py.endswith folder (Py.s "/") = false →
  let dir := download_dir folder title subtitle in
  match opt_truthy title, opt_truthy subtitle with
  | false, false => dir = folder
  | true, true =>
      ∃ mid, direct_child folder mid = true ∧ direct_child mid dir = true
  | _, _ => direct_child folder dir = true
  end.
Proof.
  intros Hfolder Hend dir. unfold dir, download_dir.
  destruct (opt_truthy title), (opt_truthy subtitle); [| | |done].
  - destruct (safe_dirname_direct_child folder (default [] title) Hfolder Hend)
      as [Hjoin Hchild].
    exists (OsPath.join folder (_safe_dirname (default [] title))).
    split; [done|]. apply safe_dirname_direct_child; rewrite Hjoin.
    + by destruct folder.
    + destruct (safe_dirname_sound (default [] title)) as (Hchars & _ & Hne & _).
      apply joined_not_slash_ended; [done|].
      intros Hin. rewrite Forall_forall in Hchars. apply (Hchars 47 Hin).
      vm_compute. repeat constructor.
  - by apply safe_dirname_direct_child.
  - by apply safe_dirname_direct_child.
Qed.

Lemma download_dir_stays_inside_witness :
  ∃ mid,
    direct_child (Py.s "legal_acts") mid = true
    ∧ direct_child mid
        (download_dir (Py.s "legal_acts") (Some (Py.s "../../etc"))
           (Some (Py.s ".. ."))) = true.
Proof.
  exact (download_dir_stays_inside (Py.s "legal_acts") (Some (Py.s "../../etc"))
           (Some (Py.s ".. .")) eq_refl eq_refl).
Defined.


(** ** A document that cannot be fetched *)



(** ** Documents and references *)

Lemma descendants_Tag (n : str) (a : gmap str str) (ch : list Bs.node) :
  Bs.descendants (Bs.Tag n a ch) = descendants_from 0 ch.
Proof. reflexivity. Qed.

Lemma node_induction (P : Bs.node → Prop) :
  (∀ t, P (Bs.Text t)) → (∀ t, P (Bs.Other t)) →
  (∀ n a ch, Forall P ch → P (Bs.Tag n a ch)) →
  ∀ t, P t.
Proof.
  intros HText HOther HTag. fix IH 1. intros [t|t|n a ch].
  - apply HText.
  - apply HOther.
  - apply HTag. induction ch as [|c ch IHch]; constructor; [apply IH|apply IHch].
Qed.

(** A reference among the descendants of a node leads to the node listed
    with it. *)
Lemma descendants_node_at (t : Bs.node) (q : Bs.ref) (d : Bs.node) :
  (q, d) ∈ Bs.descendants t → Bs.node_at t q = Some d.
Proof.
  revert q d. induction t as [x|x|n a ch IH] using node_induction;
    intros q d Hin; [by apply elem_of_nil in Hin|by apply elem_of_nil in Hin|].
  rewrite descendants_Tag in Hin.
  assert (Hgen : ∀ l i,
            Forall (λ c, ∀ q d, (q, d) ∈ Bs.descendants c → Bs.node_at c q = Some d) l →
            (∀ k c, l !! k = Some c → ch !! (i + k)%nat = Some c) →
            (q, d) ∈ descendants_from i l → Bs.node_at (Bs.Tag n a ch) q = Some d).
  { clear IH Hin. intros l. induction l as [|c l IHl]; intros i Hl Hch Hin;
      [by apply elem_of_nil in Hin|].
    apply Forall_cons in Hl as [Hc Hl]. cbn [descendants_from] in Hin.
    assert (Hi : ch !! i = Some c).
    { specialize (Hch 0%nat c eq_refl). by rewrite Nat.add_0_r in Hch. }
    apply elem_of_cons in Hin as [Hin|Hin].
    - injection Hin as -> ->. cbn [Bs.node_at]. by rewrite Hi.
    - apply elem_of_app in Hin as [Hin|Hin].
      + apply list_elem_of_fmap in Hin as ([q' d'] & Heq & Hin).
        cbn in Heq. injection Heq as -> ->.
        cbn [Bs.node_at]. rewrite Hi. cbn [mbind option_bind]. by apply Hc.
      + apply (IHl (S i)); [done| |done].
        intros k c' Hk. specialize (Hch (S k) c' Hk).
        by rewrite Nat.add_succ_r in Hch. }
  by apply (Hgen ch 0%nat).
Qed.

Lemma find_node_at (t : Bs.node) (name : str) (q : Bs.ref) (d : Bs.node) :
  Bs.find t name = Some (q, d) → Bs.node_at t q = Some d.
Proof.
  unfold Bs.find. intros H. apply descendants_node_at.
  apply head_Some_elem_of in H. apply list_elem_of_In in H.
  apply filter_In in H as [H _]. by apply list_elem_of_In.
Qed.

(** ** The title of a page *)

Lemma span_fst_Forall (p : N → bool) (x : str) :
  Forall (λ c, p c = true) (fst (Url.span p x)).
Proof.
  induction x as [|c x IH]; simpl; [constructor|].
  destruct (p c) eqn:E; [|constructor].
  destruct (Url.span p x) as [l r]. by constructor.
Qed.

Lemma split_netloc_cases (u : str) :
  Url.split_netloc u = ([], u)
  ∨ ∃ rest, Url.split_netloc u = Url.span (Re.none_of (Py.s "/?#")) rest.
Proof.
  destruct u as [|c1 u]; [by left|].
  destruct (decide (c1 = 47)) as [->|H1].
  - destruct u as [|c2 u]; [by left|].
    destruct (decide (c2 = 47)) as [->|H2]; [right; by eexists|].
    left. unfold Url.split_netloc.
    destruct c2 as [|p]; [done|]. do 6 (destruct p as [p|p|]; try done).
  - left. unfold Url.split_netloc.
    destruct c1 as [|p]; [done|]. do 6 (destruct p as [p|p|]; try done).
Qed.

(** The netloc of a URL holds no slash. *)
Lemma netloc_no_slash (url : str) : 47 ∉ Url.netloc (Url.urlparse url).
Proof.
  unfold Url.urlparse, Url.urlparse_default. cbv zeta.
  destruct (match Url.split_scheme _ with Some found => found | None => _ end)
    as [sch u].
  destruct (Url.split_netloc u) as [loc u1] eqn:Hloc.
  destruct (Url.split_if_present 35 u1) as [u2 frag].
  destruct (Url.split_if_present 63 u2) as [u3 qry].
  destruct (if _ && _ then _ else _) as [u4 prm]. cbn [Url.netloc].
  destruct (split_netloc_cases u) as [H|[rest H]]; rewrite H in Hloc.
  - injection Hloc as <- _. by intros ?%elem_of_nil.
  - pose proof (span_fst_Forall (Re.none_of (Py.s "/?#")) rest) as Hall.
    rewrite Hloc in Hall. cbn [fst] in Hall.
    intros Hin. rewrite Forall_forall in Hall. specialize (Hall 47 Hin).
    by vm_compute in Hall.
Qed.

Lemma lower_cp_slash (c : N) : 47 ∈ Py.lower_cp c → c = 47.
Proof.
  unfold Py.lower_cp.
  destruct (_ && _) eqn:E1.
  { apply andb_true_iff in E1 as [H1 H2]. apply N.leb_le in H1.
    intros H%list_elem_of_singleton. lia. }
  destruct (_ && _ && _) eqn:E2.
  { apply andb_true_iff in E2 as [H1 _]. apply andb_true_iff in H1 as [H1 _].
    apply N.leb_le in H1. intros H%list_elem_of_singleton. lia. }
  destruct (c =? 304).
  { intros H. apply elem_of_cons in H as [H|H]; [done|].
    by apply list_elem_of_singleton in H. }
  destruct (c =? 8490); intros H%list_elem_of_singleton; done.
Qed.

Lemma lower_no_slash (x : str) : 47 ∉ x → 47 ∉ Py.lower x.
Proof.
  intros Hx Hin. unfold Py.lower in Hin.
  apply list_elem_of_bind in Hin as (c & Hc & Hcx).
  apply lower_cp_slash in Hc as ->. done.
Qed.

Lemma startswith_elem (x pre : str) (c : N) :
  Py.startswith x pre = true → c ∈ pre → c ∈ x.
Proof.
  revert x. induction pre as [|d pre IH]; intros x H Hin;
    [by apply elem_of_nil in Hin|].
  destruct x as [|e x]; [done|]. simpl in H.
  apply andb_true_iff in H as [He H]. apply N.eqb_eq in He as <-.
  apply elem_of_cons in Hin as [->|Hin]; [by left|right; by apply IH].
Qed.

(** A string that contains a needle holds every character of it. *)
Lemma contains_elem (x needle : str) (c : N) :
  Py.contains x needle = true → c ∈ needle → c ∈ x.
Proof.
  intros H Hin. induction x as [|d x IH]; simpl in H.
  - rewrite orb_false_r in H. by apply (startswith_elem [] needle).
  - apply orb_true_iff in H as [H|H]; [by apply (startswith_elem _ needle)|].
    right. by apply IH.
Qed.

Lemma host_not_a_path (url : str) :
  Py.contains (Py.lower (Url.netloc (Url.urlparse url)))
              (Py.s "gov.pl/web/finanse") = false.
Proof.
  apply not_true_is_false. intros H.
  apply (lower_no_slash _ (netloc_no_slash url)).
  apply (contains_elem _ _ 47 H). vm_compute. repeat constructor.
Qed.

(** X5: the title [get_title_from_url] returns for a page that answers is
    the stripped text of the first h2 element when the host of the URL
    contains dziennikustaw.gov.pl, and of the first title element for every
    other host, or untitled when the page has no such element.  The
    elements picked by the classes rcl-title and h2 for the RCL and SEJM
    hosts are always replaced by that choice, and the test for
    gov.pl/web/finanse never holds, a host holding no slash. *)
Theorem title_is_first_h2_or_title
    (http_get : str → gmap str str → http_result) (parse_html : str → Bs.node)
    (url : str) (page : response) (w : world) :
  http_get url HEADERS = HttpOk page →
  let soup := parse_html (resp_text page) in
  let host := Py.lower (Url.netloc (Url.urlparse url)) in
  let wanted :=
    if Py.contains host (Py.s "dziennikustaw.gov.pl")
    then Py.s "h2" else Py.s "title" in
  get_title_from_url http_get parse_html url w
  = (Return (TitleText match Bs.find soup wanted with
                       | Some (_, el) => Bs.get_text_strip el
                       | None => Py.s "untitled"
                       end),
     after w [EvGet url]).
Proof.
  intros Hpage soup host wanted. unfold get_title_from_url. run_m.
  rewrite Hpage. rewrite host_not_a_path, orb_false_r.
  fold soup host. unfold wanted.
  assert (Hfind : ∀ name,
            (fst <$> Bs.find soup name) ≫= Bs.node_at soup
            = snd <$> Bs.find soup name).
  { intros name. destruct (Bs.find soup name) as [[q d]|] eqn:E; [|done].
    cbn. by apply find_node_at in E. }
  destruct (Py.contains host (Py.s "dziennikustaw.gov.pl"));
    rewrite Hfind; by destruct (Bs.find soup _) as [[q d]|].
Qed.

Lemma title_is_first_h2_or_title_witness :
  get_title_from_url Sample.rcl_transport Sample.rcl_parse Sample.rcl_url
    Sample.empty_world
  = (Return (TitleText (Py.s "Projekt ustawy")),
     after Sample.empty_world [EvGet Sample.rcl_url]).
Proof.
  exact (title_is_first_h2_or_title Sample.rcl_transport Sample.rcl_parse
           Sample.rcl_url _ Sample.empty_world eq_refl).
Defined.

(** ** The effects of one download *)



(** ** Names the sanitiser keeps, and names it replaces *)

Section StripFixed.
Context {A : Type} (p : A → bool).

Lemma lstrip_by_id (x : list A) :
  (∀ c, head x = Some c → p c = false) → Py.lstrip_by p x = x.
Proof. destruct x as [|c x]; [done|]. intros H. simpl. by rewrite (H c). Qed.

Lemma rstrip_by_id (x : list A) :
  (∀ c, last x = Some c → p c = false) → Py.rstrip_by p x = x.
Proof.
  intros H. unfold Py.rstrip_by. rewrite lstrip_by_id, reverse_involutive; [done|].
  intros c. rewrite head_reverse. apply H.
Qed.

Lemma strip_by_id (x : list A) :
  (∀ c, head x = Some c → p c = false) →
  (∀ c, last x = Some c → p c = false) → Py.strip_by p x = x.
Proof.
  intros Hh Hl. unfold Py.strip_by. rewrite lstrip_by_id by done.
  by apply rstrip_by_id.
Qed.

Lemma lstrip_by_all (x : list A) :
  Forall (λ c, p c = true) x → Py.lstrip_by p x = [].
Proof. induction 1 as [|c x Hc _ IH]; simpl; [done|]. by rewrite Hc. Qed.

Lemma strip_by_all (x : list A) :
  Forall (λ c, p c = true) x → Py.strip_by p x = [].
Proof. intros H. unfold Py.strip_by. by rewrite lstrip_by_all. Qed.

End StripFixed.

Lemma sub_plus_from_id (p : N → bool) (repl x : str) (in_run : bool) :
  Forall (λ c, p c = false) x → Re.sub_plus_from p repl in_run x = x.
Proof.
  intros H. revert in_run. induction H as [|c x Hc _ IH]; intros in_run; simpl;
    [done|].
  by rewrite Hc, IH.
Qed.

(** X7: a name that needs no cleaning is returned as it is: one that is
    not empty, has at most 120 characters, holds none of the forbidden
    characters, and neither starts nor ends with a whitespace character or
    a dot. *)
Theorem safe_dirname_keeps_clean_names (name : str) :
  name ≠ [] → (length name ≤ 120)%nat →
  Forall (λ c, c ∉ forbidden_chars) name →
  (∀ c, head name = Some c ∨ last name = Some c →
        Py.isspace c = false ∧ c ≠ 46) →
  _safe_dirname name = name.
Proof.
  intros Hne Hlen Hchars Hends. unfold _safe_dirname, Re.sub_plus.
  rewrite sub_plus_from_id.
  2:{ eapply Forall_impl; [exact Hchars|]. intros c Hc.
      unfold Re.one_of, Py.mem. by apply bool_decide_eq_false. }
  unfold Py.strip. rewrite strip_by_id; [| |]; try (intros c Hc; apply Hends; auto).
  unfold Py.strip_chars. rewrite strip_by_id.
  - rewrite take_ge by done. unfold Py.or_else.
    apply truthy_nonempty in Hne. by rewrite Hne.
  - intros c Hc. destruct (Hends c (or_introl Hc)) as [Hs Hd].
    unfold Py.mem. apply bool_decide_eq_false. intros Hin.
    apply elem_of_cons in Hin as [->|Hin]; [done|].
    by apply list_elem_of_singleton in Hin.
  - intros c Hc. destruct (Hends c (or_intror Hc)) as [Hs Hd].
    unfold Py.mem. apply bool_decide_eq_false. intros Hin.
    apply elem_of_cons in Hin as [->|Hin]; [done|].
    by apply list_elem_of_singleton in Hin.
Qed.

Lemma safe_dirname_keeps_clean_names_witness :
  _safe_dirname (Py.s "Ustawa o podatku (projekt) - wersja 2.1")
  = Py.s "Ustawa o podatku (projekt) - wersja 2.1".
Proof.
  apply safe_dirname_keeps_clean_names.
  - by vm_compute.
  - vm_compute. lia.
  - vm_compute. repeat constructor; intros H;
      repeat (apply elem_of_cons in H as [H|H]; [done|]); by apply elem_of_nil in H.
  - vm_compute. intros c [[= <-]|[= <-]]; done.
Defined.

(** X8: a name made of dots and spaces only (the empty name, a dot,
    dot-dot, blanks) becomes untitled. *)
Theorem safe_dirname_of_dots_and_spaces (name : str) :
  Forall (λ c, c = 46 ∨ c = 32) name → _safe_dirname name = Py.s "untitled".
Proof.
  intros H. unfold _safe_dirname, Re.sub_plus.
  rewrite sub_plus_from_id.
  2:{ eapply Forall_impl; [exact H|]. by intros c [->| ->]. }
  unfold Py.strip_chars. rewrite strip_by_all; [done|].
  apply strip_by_Forall. eapply Forall_impl; [exact H|]. by intros c [->| ->].
Qed.

Lemma safe_dirname_of_dots_and_spaces_witness :
  _safe_dirname (Py.s "..") = Py.s "untitled"
  ∧ _safe_dirname (Py.s " . ") = Py.s "untitled".
Proof.
  refine (conj (safe_dirname_of_dots_and_spaces _ _)
               (safe_dirname_of_dots_and_spaces _ _));
    vm_compute;
    repeat first [apply List.Forall_nil | apply List.Forall_cons; [auto|]].
Defined.

(** ** File names are copied from the header *)

Lemma rep_splits {R} (p : N → bool) (k : str → str → option R)
    (acc x : str) (r : R) :
  Re.rep p k acc x = Some r →
  ∃ m rest, x = m ++ rest ∧ k (acc ++ m) rest = Some r.
Proof.
  revert acc. induction x as [|c x IH]; intros acc; simpl.
  - intros H. exists [], []. split; [done|]. by rewrite app_nil_r.
  - assert (Hstop : k acc (c :: x) = Some r →
              ∃ m rest, c :: x = m ++ rest ∧ k (acc ++ m) rest = Some r).
    { intros H. exists [], (c :: x). split; [done|]. by rewrite app_nil_r. }
    destruct (p c); [|exact Hstop].
    destruct (Re.rep p k (acc ++ [c]) x) as [r'|] eqn:E; [|exact Hstop].
    intros [= ->]. apply IH in E as (m & rest & -> & Hk).
    exists (c :: m), rest. split; [done|]. by rewrite <- app_assoc in Hk.
Qed.

(** What a match consumes, and where its group lies. *)
Lemma match_here_consumes (r : Re.regex) (grp : option str) (x : str)
    (g : option str) (rest : str) :
  Re.match_here r grp x = Some (g, rest) →
  ∃ consumed,
    x = consumed ++ rest
    ∧ (g = grp ∨ ∃ m a b, g = Some m ∧ consumed = a ++ m ++ b).
Proof.
  revert grp x. induction r as [|it r IH]; intros grp x; simpl.
  { intros [= <- <-]. exists []. auto. }
  assert (Hone : ∀ c x',
            Re.match_here r grp x' = Some (g, rest) →
            ∃ consumed, c :: x' = consumed ++ rest
              ∧ (g = grp ∨ ∃ m a b, g = Some m ∧ consumed = a ++ m ++ b)).
  { intros c x' H.
    apply IH in H as (consumed & -> & Hg). exists (c :: consumed).
    split; [done|]. destruct Hg as [->|(m & a & b & -> & ->)]; [by left|].
    right. by exists m, (c :: a), b. }
  assert (Hrun : ∀ pre y grp',
            Re.match_here r grp' y = Some (g, rest) →
            (grp' = grp ∨ ∃ a, grp' = Some a ∧ ∃ b, pre = b ++ a) →
            ∃ consumed, pre ++ y = consumed ++ rest
              ∧ (g = grp ∨ ∃ m a b, g = Some m ∧ consumed = a ++ m ++ b)).
  { intros pre y grp' H Hgrp.
    apply IH in H as (consumed & -> & Hg). exists (pre ++ consumed).
    split; [by rewrite app_assoc|].
    destruct Hg as [->|(m & a & b & -> & ->)].
    - destruct Hgrp as [->|(a & -> & b & ->)]; [by left|].
      right. exists a, b, consumed. by rewrite <- app_assoc.
    - right. exists m, (pre ++ a), b. by rewrite <- app_assoc. }
  destruct it as [p|p|p|p].
  - destruct x as [|c x]; [done|]. destruct (p c); [|done].
    apply Hone.
  - intros H. apply rep_splits in H as (m & y & -> & H).
    apply (Hrun m y grp H). by left.
  - destruct x as [|c x]; [done|]. destruct (p c); [|done].
    intros H. apply rep_splits in H as (m & y & -> & H).
    apply (Hrun (c :: m) y grp H). by left.
  - destruct x as [|c x]; [done|]. destruct (p c); [|done].
    intros H. apply rep_splits in H as (m & y & -> & H).
    apply (Hrun (c :: m) y (Some ([c] ++ m)) H). right.
    exists (c :: m). split; [done|]. by exists [].
Qed.

Lemma search_group1_part (r : Re.regex) (x m : str) :
  Re.search_group1 r x = Some m → ∃ a b, x = a ++ m ++ b.
Proof.
  unfold Re.search_group1.
  destruct (Re.search r x) as [g|] eqn:E; [|done]. cbn. intros ->.
  induction x as [|c x IH].
  - simpl in E. destruct (Re.match_here r None []) as [[g rest]|] eqn:Hm; [|done].
    injection E as ->.
    apply match_here_consumes in Hm as (consumed & Hx & [?|(m' & a & b & [= <-] & ->)]);
      [done|].
    exists a, (b ++ rest). by rewrite Hx, <- !app_assoc.
  - simpl in E. destruct (Re.match_here r None (c :: x)) as [[g rest]|] eqn:Hm.
    + injection E as ->.
      apply match_here_consumes in Hm
        as (consumed & Hx & [?|(m' & a & b & [= <-] & ->)]); [done|].
      exists a, (b ++ rest). by rewrite Hx, <- !app_assoc.
    + apply IH in E as (a & b & ->). by exists (c :: a), b.
Qed.

Lemma strip_by_part {A} (p : A → bool) (x : list A) :
  ∃ a b, x = a ++ Py.strip_by p x ++ b.
Proof.
  unfold Py.strip_by.
  destruct (lstrip_by_suffix p x) as [a Ha].
  destruct (rstrip_by_prefix p (Py.lstrip_by p x)) as [b Hb].
  exists a, b. by rewrite <- Hb.
Qed.

(** X9: a file name that [_filename_from_cd] returns is a part of the
    header value, character for character: the value of the extended form
    is not percent-decoded, no quote is added or removed beyond those that
    delimit the quoted form, and the blanks stripped from the bare form are
    at its two ends. *)
Theorem filename_is_part_of_header (cd : option str) (name : str) :
  _filename_from_cd cd = Some name →
  ∃ header before behind, cd = Some header ∧ header = before ++ name ++ behind.
Proof.
  destruct cd as [header|]; [|done]. unfold _filename_from_cd.
  destruct (Py.truthy header); [|done]. cbn [negb].
  intros H. exists header.
  destruct (Re.search_group1 re_filename_ext header) as [g|] eqn:E1.
  { injection H as ->. apply search_group1_part in E1 as (a & b & ->). eauto. }
  destruct (Re.search_group1 re_filename_quoted header) as [g|] eqn:E2.
  { injection H as ->. apply search_group1_part in E2 as (a & b & ->). eauto. }
  destruct (Re.search_group1 re_filename_bare header) as [g|] eqn:E3; [|done].
  injection H as <-. apply search_group1_part in E3 as (a & b & ->).
  destruct (strip_by_part Py.isspace g) as (a' & b' & Hg).
  exists (a ++ a'), (b' ++ b). split; [done|].
  rewrite Hg at 1. unfold Py.strip. by rewrite <- !app_assoc.
Qed.

Lemma filename_is_part_of_header_witness :
  ∃ header before behind,
    Some (Py.s "attachment; filename*=UTF-8''na%C3%AFve.pdf") = Some header
    ∧ header = before ++ Py.s "na%C3%AFve.pdf" ++ behind.
Proof.
  apply (filename_is_part_of_header
           (Some (Py.s "attachment; filename*=UTF-8''na%C3%AFve.pdf"))
           (Py.s "na%C3%AFve.pdf")).
  vm_compute. reflexivity.
Defined.

(** ** The text appended to an anchor is the title of its record *)






(** ** The directories [get_acts] creates *)

Lemma safe_dirname_joined (base name : str) :
  Py.truthy base = true → Py.endswith base (Py.s "/") = false →
  let dir := OsPath.join base (_safe_dirname name) in
  Py.truthy dir = true ∧ Py.endswith dir (Py.s "/") = false.
Proof.
  intros Hbase Hend dir. unfold dir.
  destruct (safe_dirname_direct_child base name Hbase Hend) as [-> _].
  destruct (safe_dirname_sound name) as (Hchars & _ & Hne & _).
  apply joined_not_slash_ended; [done|].
  intros Hin. rewrite Forall_forall in Hchars. apply (Hchars 47 Hin).
  vm_compute. repeat constructor.
Qed.

Lemma download_dir_within (folder : str) (title subtitle : option str) :
  Py.truthy folder = true → Py.endswith folder (Py.s "/") = false →
  within_two_levels folder (download_dir folder title subtitle).
Proof.
  intros Hfolder Hend. unfold download_dir, within_two_levels.
  destruct (opt_truthy title), (opt_truthy subtitle); [| | |by left].
  - right. right.
    exists (OsPath.join folder (_safe_dirname (default [] title))).
    split; [by apply safe_dirname_direct_child|].
    by apply safe_dirname_direct_child; apply safe_dirname_joined.
  - right. left. by apply safe_dirname_direct_child.
  - right. left. by apply safe_dirname_direct_child.
Qed.

Section Makedirs.
Variable http_get : str → gmap str str → http_result.
Variable parse_html : str → Bs.node.

Lemma inside_download_file (url : str) (title subtitle : option str) :
  emits_only inside_legal_acts
    (download_file http_get url (Py.s "legal_acts") title subtitle None).
Proof.
  unfold download_file.
  apply emits_only_bind.
  { apply emits_only_emit. intros dir [= <-]. by apply download_dir_within. }
  intros _.
  apply emits_only_bind; [by apply emits_only_download_once|].
  intros [resp content].
  apply emits_only_bind; [apply emits_only_path_exists|].
  intros [|]; [apply emits_only_ret|].
  apply emits_only_bind.
  - destruct (negb _ && _); [by apply emits_only_try_alternates|apply emits_only_ret].
  - intros [d|]; [apply emits_only_ret|].
    apply emits_only_bind; [by apply emits_only_write_file|].
    intros _. apply emits_only_ret.
Qed.

Lemma inside_download_each (title subtitle : option str) (acts : list record) :
  emits_only inside_legal_acts
    (for_each acts (λ act,
       bind (emit (found_document act)) (λ _,
       bind (download_file http_get (rec_link act) (Py.s "legal_acts")
               title subtitle None)
            (λ _, ret tt)))).
Proof.
  apply emits_only_for_each. intros act.
  apply emits_only_bind; [by apply emits_only_emit|]. intros _.
  apply emits_only_bind; [apply inside_download_file|].
  intros _. apply emits_only_ret.
Qed.

Lemma inside_get_acts (url : str) :
  emits_only inside_legal_acts (get_acts http_get parse_html url).
Proof.
  unfold get_acts. cbv zeta. apply emits_only_bind.
  - destruct (Py.contains _ (Py.s "legislacja.rcl.gov.pl")); [|apply emits_only_ret].
    apply emits_only_bind; [by apply emits_only_get_title_from_url|]. intros title.
    apply emits_only_bind; [by apply emits_only_fetch_subpages|]. intros subpages.
    apply emits_only_for_each. intros subpage.
    apply emits_only_bind; [by apply emits_only_downloadable_acts|]. intros acts.
    apply inside_download_each.
  - intros _. destruct (_ || _ || _); [|by apply emits_only_emit].
    apply emits_only_bind; [by apply emits_only_get_title_from_url|]. intros title.
    apply emits_only_bind; [by apply emits_only_downloadable_acts|]. intros acts.
    apply inside_download_each.
Qed.

End Makedirs.

(** X11: every directory a run of [get_acts] creates is legal_acts, an
    entry of legal_acts or an entry of such an entry, whatever titles the
    pages carry and whether the run returns or raises. *)
Theorem get_acts_creates_directories_inside
    (http_get : str → gmap str str → http_result) (parse_html : str → Bs.node)
    (url : str) (w : world) (dir : str) :
  EvMakedirs dir ∈ new_events w (snd (get_acts http_get parse_html url w)) →
  within_two_levels (Py.s "legal_acts") dir.
Proof.
  destruct (inside_get_acts http_get parse_html url w) as (evs & Ht & Hevs).
  unfold new_events. rewrite Ht, drop_app_length. intros Hin.
  rewrite Forall_forall in Hevs. by apply (Hevs _ Hin).
Qed.

Lemma get_acts_creates_directories_inside_witness :
  within_two_levels (Py.s "legal_acts")
    (Py.s "legal_acts/Projekt ustawy/Uzgodnienia").
Proof.
  apply (get_acts_creates_directories_inside Sample.rcl_transport
           Sample.rcl_parse Sample.rcl_url Sample.empty_world).
  vm_compute. do 4 right. left.
Defined.

(** ** What [find_acts] does to the document *)

Lemma same_tag_refl (t : Bs.node) : same_tag t t.
Proof. by destruct t. Qed.

Lemma same_tag_trans (t1 t2 t3 : Bs.node) :
  same_tag t1 t2 → same_tag t2 t3 → same_tag t1 t3.
Proof.
  destruct t1, t2, t3; cbn; try done; try congruence.
  intros [-> ->] [-> ->]. done.
Qed.

Lemma keeps_nodes_refl (doc : Bs.node) : keeps_nodes doc doc.
Proof. intros p el H. exists el. split; [done|apply same_tag_refl]. Qed.

Lemma keeps_nodes_trans (d1 d2 d3 : Bs.node) :
  keeps_nodes d1 d2 → keeps_nodes d2 d3 → keeps_nodes d1 d3.
Proof.
  intros H12 H23 p el H. destruct (H12 p el H) as (el2 & H2 & S2).
  destruct (H23 p el2 H2) as (el3 & H3 & S3). exists el3.
  split; [done|]. by eapply same_tag_trans.
Qed.

(** Appending a string to an element keeps every node where it is. *)
Lemma append_keeps_nodes (a : Bs.ref) (x : str) (doc : Bs.node) :
  keeps_nodes doc (Bs.append a (Bs.Text x) doc).
Proof.
  revert doc. induction a as [|j a IH]; intros doc p el Hel.
  - destruct doc as [t|t|n at_ ch]; [by exists el; split; [|apply same_tag_refl]..|].
    cbn [Bs.append]. destruct p as [|i p].
    + injection Hel as <-. eexists. split; [done|]. by cbn.
    + cbn [Bs.node_at] in *. destruct (ch !! i) as [c|] eqn:Hi; [|done].
      rewrite (lookup_app_l_Some _ _ _ _ Hi). exists el.
      split; [done|apply same_tag_refl].
  - destruct doc as [t|t|n at_ ch]; [by exists el; split; [|apply same_tag_refl]..|].
    cbn [Bs.append]. destruct p as [|i p].
    + injection Hel as <-. eexists. split; [done|]. by cbn.
    + cbn [Bs.node_at] in *. destruct (ch !! i) as [c|] eqn:Hi; [|done].
      cbn [mbind option_bind] in Hel. rewrite list_lookup_alter.
      destruct (decide (j = i)) as [->|Hne]; rewrite Hi; cbn.
      * by apply IH.
      * exists el. split; [done|apply same_tag_refl].
Qed.

Lemma fix_anchor_keeps_nodes (soup : Bs.node) (fixed : list Bs.ref) (a : Bs.ref) :
  keeps_nodes soup (fst (fix_anchor (soup, fixed) a)).
Proof.
  unfold fix_anchor. destruct (Bs.node_at soup a) as [el|]; [|apply keeps_nodes_refl].
  destruct (negb (opt_truthy _)); [apply keeps_nodes_refl|].
  destruct (negb (Py.truthy _)); [apply append_keeps_nodes|apply keeps_nodes_refl].
Qed.

(** The loop keeps every anchor that has a non-empty href in the document
    it started from. *)
Lemma fix_anchors_all (doc : Bs.node) (anchors : list Bs.ref) :
  Forall (λ a, ∃ d href, Bs.node_at doc a = Some d
                         ∧ Bs.get d (Py.s "href") = Some href ∧ href ≠ []) anchors →
  ∀ soup fixed, keeps_nodes doc soup →
    keeps_nodes doc (fst (foldl fix_anchor (soup, fixed) anchors))
    ∧ snd (foldl fix_anchor (soup, fixed) anchors) = fixed ++ anchors.
Proof.
  induction 1 as [|a anchors (d & href & Hd & Hhref & Hne) _ IH];
    intros soup fixed Hkeeps; cbn [foldl].
  - by rewrite app_nil_r.
  - pose proof (fix_anchor_keeps_nodes soup fixed a) as Hstep.
    assert (Hsnd : snd (fix_anchor (soup, fixed) a) = fixed ++ [a]).
    { destruct (Hkeeps a d Hd) as (el & Hel & Hsame).
      unfold fix_anchor. rewrite Hel.
      assert (Hget : Bs.get el (Py.s "href") = Some href).
      { destruct d, el; cbn in *; try done. by destruct Hsame as [_ <-]. }
      rewrite Hget. apply truthy_nonempty in Hne. unfold opt_truthy.
      simpl default. by rewrite Hne. }
    destruct (fix_anchor (soup, fixed) a) as [soup1 fixed1]. cbn [fst snd] in *.
    subst fixed1. destruct (IH soup1 (fixed ++ [a])) as [H1 H2].
    { by eapply keeps_nodes_trans. }
    split; [done|]. by rewrite H2, <- app_assoc.
Qed.

Lemma complex_matches_subject (sel : Bs.complex) (anc : list Bs.node)
    (d : Bs.node) :
  Bs.complex_matches sel anc d = true →
  ∃ subject, last sel = Some subject ∧ Bs.compound_matches subject d = true.
Proof.
  unfold Bs.complex_matches. rewrite <- head_reverse.
  destruct (reverse sel) as [|subject outer]; [done|].
  intros [H _]%andb_true_iff. by exists subject.
Qed.

Lemma href_pdf_not_empty (c : Bs.compound) (d : Bs.node) :
  href_pdf ∈ Bs.c_attrs c → Bs.compound_matches c d = true →
  ∃ href, Bs.get d (Py.s "href") = Some href ∧ href ≠ [].
Proof.
  intros Hin H. destruct d as [t|t|n at_ ch]; [done|done|].
  unfold Bs.compound_matches in H.
  apply andb_true_iff in H as [_ H].
  rewrite forallb_forall in H. apply list_elem_of_In in Hin.
  specialize (H _ Hin). cbn [Bs.attr_matches href_pdf] in H.
  destruct (Bs.get _ _) as [href|]; [|done]. exists href. split; [done|].
  intros ->. by vm_compute in H.
Qed.

(** Every anchor the DZIENNIK selector matches has a non-empty href. *)
Lemma select_dziennik_href (soup : Bs.node) (a : Bs.ref) :
  a ∈ Bs.select soup [] sel_dziennik →
  ∃ d href, Bs.node_at soup a = Some d
            ∧ Bs.get d (Py.s "href") = Some href ∧ href ≠ [].
Proof.
  unfold Bs.select. cbn [Bs.node_at]. intros Hin.
  apply list_elem_of_omap in Hin as ([q d] & Hq & Hsel).
  destruct (existsb _ sel_dziennik) eqn:Hex; [|done].
  cbn [app] in Hsel. injection Hsel as <-.
  exists d. apply descendants_node_at in Hq.
  apply existsb_exists in Hex as (cx & Hcx & Hm).
  apply complex_matches_subject in Hm as (subject & Hlast & Hm).
  assert (Hattr : href_pdf ∈ Bs.c_attrs subject).
  { unfold sel_dziennik in Hcx. cbn [In] in Hcx.
    destruct Hcx as [<-|[<-|[<-|[]]]]; injection Hlast as <-;
      vm_compute; repeat constructor. }
  destruct (href_pdf_not_empty subject d Hattr Hm) as (href & Hhref & Hne).
  by exists href.
Qed.

(** Every anchor the DZIENNIK selector matches is an [a] element. *)
Lemma select_dziennik_anchor (soup : Bs.node) (a : Bs.ref) :
  a ∈ Bs.select soup [] sel_dziennik →
  ∃ at_ ch, Bs.node_at soup a = Some (Bs.Tag (Py.s "a") at_ ch).
Proof.
  unfold Bs.select. cbn [Bs.node_at]. intros Hin.
  apply list_elem_of_omap in Hin as ([q d] & Hq & Hsel).
  destruct (existsb _ sel_dziennik) eqn:Hex; [|done].
  cbn [app] in Hsel. injection Hsel as <-.
  apply descendants_node_at in Hq.
  apply existsb_exists in Hex as (cx & Hcx & Hm).
  apply complex_matches_subject in Hm as (subject & Hlast & Hm).
  assert (Htag : Bs.c_tag subject = Some (Py.s "a")).
  { unfold sel_dziennik in Hcx. cbn [In] in Hcx.
    destruct Hcx as [<-|[<-|[<-|[]]]]; injection Hlast as <-; reflexivity. }
  destruct d as [t|t|n at_ ch]; [done|done|].
  unfold Bs.compound_matches in Hm. rewrite Htag in Hm.
  apply andb_true_iff in Hm as [Hm _]. apply andb_true_iff in Hm as [Hm _].
  apply andb_true_iff in Hm as [Hm _]. apply bool_decide_eq_true in Hm.
  subst n. by exists at_, ch.
Qed.

(** A node [append] adds is the string appended, child of the element it
    is appended to. *)
Lemma append_new_node (a : Bs.ref) (x : str) (doc : Bs.node) (p : Bs.ref)
    (el' : Bs.node) :
  Bs.node_at (Bs.append a (Bs.Text x) doc) p = Some el' →
  Bs.node_at doc p = None →
  el' = Bs.Text x ∧ ∃ i, p = a ++ [i].
Proof.
  revert doc p. induction a as [|j a IH]; intros doc p Hnew Hold.
  - destruct doc as [t|t|n at_ ch]; cbn [Bs.append] in Hnew;
      [by rewrite Hold in Hnew..|].
    destruct p as [|i q]; [done|]. cbn [Bs.node_at] in *.
    destruct (ch !! i) as [c|] eqn:Hi.
    + rewrite (lookup_app_l_Some _ _ _ _ Hi) in Hnew. cbn in Hnew, Hold.
      by rewrite Hold in Hnew.
    + apply lookup_ge_None in Hi. rewrite lookup_app_r in Hnew by done.
      destruct (i - length ch)%nat as [|k] eqn:Hk; [|done].
      cbn in Hnew. destruct q as [|? ?]; [|done].
      injection Hnew as <-. split; [done|]. by exists i.
  - destruct doc as [t|t|n at_ ch]; cbn [Bs.append] in Hnew;
      [by rewrite Hold in Hnew..|].
    destruct p as [|i q]; [done|]. cbn [Bs.node_at] in *.
    rewrite list_lookup_alter in Hnew.
    destruct (decide (j = i)) as [->|Hne]; [|by rewrite Hold in Hnew].
    destruct (ch !! i) as [c|] eqn:Hi; [|done]. cbn in Hnew, Hold.
    destruct (IH c q Hnew Hold) as [-> [k ->]].
    split; [done|]. by exists k.
Qed.

Lemma fix_anchor_new_node (soup : Bs.node) (fixed : list Bs.ref) (a p : Bs.ref)
    (el' : Bs.node) :
  Bs.node_at (fst (fix_anchor (soup, fixed) a)) p = Some el' →
  Bs.node_at soup p = None →
  ∃ x i, el' = Bs.Text x ∧ p = a ++ [i].
Proof.
  unfold fix_anchor. intros Hnew Hold.
  destruct (Bs.node_at soup a) as [el|];
    [|cbn [fst] in Hnew; by rewrite Hold in Hnew].
  destruct (negb (opt_truthy _)); [cbn [fst] in Hnew; by rewrite Hold in Hnew|].
  destruct (negb (Py.truthy _)); cbn [fst] in Hnew; [|by rewrite Hold in Hnew].
  destruct (append_new_node _ _ _ _ _ Hnew Hold) as [-> [i ->]]. eauto.
Qed.

(** The loop adds nothing but strings, children of the anchors it goes
    through. *)
Lemma fix_anchors_append_text (doc : Bs.node) (anchors l : list Bs.ref) :
  l ⊆ anchors →
  ∀ soup fixed, appends_text_to anchors doc soup →
    appends_text_to anchors doc (fst (foldl fix_anchor (soup, fixed) l)).
Proof.
  induction l as [|a l IH]; intros Hl soup fixed Hsoup; cbn [foldl]; [done|].
  pose proof (fix_anchor_keeps_nodes soup fixed a) as Hstep.
  pose proof (fix_anchor_new_node soup fixed a) as Hnew.
  destruct (fix_anchor (soup, fixed) a) as [soup1 fixed1]. cbn [fst] in *.
  apply IH; [intros q Hq; apply Hl; by right|].
  destruct Hsoup as [Hkeeps Hadded]. split; [by eapply keeps_nodes_trans|].
  intros p el' Hp Hdoc.
  destruct (Bs.node_at soup p) as [el0|] eqn:Hsoup.
  - destruct (Hadded p el0 Hsoup Hdoc) as (x & q & i & -> & -> & Hq).
    destruct (Hstep _ _ Hsoup) as (el1 & Hel1 & Hsame).
    rewrite Hp in Hel1. injection Hel1 as <-.
    destruct el' as [y|y|? ? ?]; cbn in Hsame; [|done..].
    subst y. eauto.
  - destruct (Hnew p el' Hp Hsoup) as (x & i & -> & ->).
    exists x, a, i. split; [done|]. split; [done|]. apply Hl. by left.
Qed.

(** X12: what [find_acts] returns and does under the DZIENNIK profile.  It
    returns every anchor its selector matches, in document order (the test
    on the href drops none, a matched href ending in .pdf), each of them an
    [a] element.  In the document it leaves, every node of the document it
    was given is where it was, with the name and the attributes, or the
    text, it had; and a node that was not there is a string, child of one
    of the anchors matched: the only change is text appended to anchors. *)
Theorem find_acts_dziennik_keeps_all (url : str) (soup : Bs.node) :
  let host := Py.lower (Url.netloc (Url.urlparse url)) in
  Py.contains host (Py.s "legislacja.rcl.gov.pl") = false →
  Py.contains host (Py.s "sejm.gov.pl") = false →
  Py.contains host (Py.s "dziennikustaw.gov.pl") = true →
  fst (find_acts url soup) = Bs.select soup [] sel_dziennik
  ∧ (∀ a, a ∈ fst (find_acts url soup) →
       ∃ at_ ch, Bs.node_at soup a = Some (Bs.Tag (Py.s "a") at_ ch))
  ∧ appends_text_to (Bs.select soup [] sel_dziennik) soup
      (snd (find_acts url soup)).
Proof.
  intros host Hrcl Hsejm Hdz.
  assert (Hfst : fst (find_acts url soup) = Bs.select soup [] sel_dziennik
                 ∧ appends_text_to (Bs.select soup [] sel_dziennik) soup
                     (snd (find_acts url soup))).
  { unfold find_acts. fold host. rewrite Hrcl, Hsejm, Hdz.
    destruct (fix_anchors_all soup (Bs.select soup [] sel_dziennik)) with
      (soup := soup) (fixed := @nil Bs.ref) as [_ Hall].
    - apply Forall_forall. intros a Ha. by apply select_dziennik_href.
    - apply keeps_nodes_refl.
    - pose proof (fix_anchors_append_text soup (Bs.select soup [] sel_dziennik)
                    (Bs.select soup [] sel_dziennik)) as Hadd.
      specialize (Hadd (λ q Hq, Hq) soup (@nil Bs.ref)).
      destruct (foldl fix_anchor _ _) as [soup' fixed]. cbn [fst snd] in *.
      subst fixed. split; [done|]. apply Hadd.
      split; [apply keeps_nodes_refl|]. intros p el' Hp Hnone.
      by rewrite Hnone in Hp. }
  destruct Hfst as [Hfst Happ]. split; [done|]. split; [|done].
  intros a Ha. rewrite Hfst in Ha. by apply select_dziennik_anchor.
Qed.

Lemma find_acts_dziennik_keeps_all_witness :
  let url := Py.s "https://dziennikustaw.gov.pl/DU/2024" in
  fst (find_acts url Sample.image_page) = [[0; 0]%nat]
  ∧ (∀ a, a ∈ fst (find_acts url Sample.image_page) →
       ∃ at_ ch, Bs.node_at Sample.image_page a = Some (Bs.Tag (Py.s "a") at_ ch))
  ∧ appends_text_to [[0; 0]%nat] Sample.image_page
      (snd (find_acts url Sample.image_page)).
Proof.
  exact (find_acts_dziennik_keeps_all (Py.s "https://dziennikustaw.gov.pl/DU/2024")
           Sample.image_page eq_refl eq_refl eq_refl).
Defined.

(** ** When a download raises *)



Section Raising.
Variable http_get : str → gmap str str → http_result.
Variable parse_html : str → Bs.node.
Variable Q : str → list event → Prop.
Hypothesis Q_later : ∀ e evs1 evs2, Q e evs2 → Q e (evs1 ++ evs2).

(** A computation that never raises and adds the same events from every
    world. *)
Lemma raises_as_fixed {A} (m : M A) :
  (∀ w, ∃ o evs, m w = (o, after w evs) ∧ ∀ e, o ≠ Raise e) →
  raises_as Q m.
Proof.
  intros Hm w. destruct (Hm w) as (o & evs & -> & Ho).
  exists evs. split; [done|]. intros e He. by destruct (Ho e).
Qed.

Lemma raises_as_ret {A} (a : A) : raises_as Q (ret a).
Proof.
  apply raises_as_fixed. intros w. exists (Return a), [].
  by rewrite after_nil.
Qed.

Lemma raises_as_emit (ev : event) : raises_as Q (emit ev).
Proof.
  apply raises_as_fixed. intros w. exists (Return tt), [ev].
  by rewrite emit_after.
Qed.

Lemma raises_as_bind {A B} (m : M A) (k : A → M B) :
  raises_as Q m →
  (∀ a, (∃ w w1, m w = (Return a, w1)) → raises_as Q (k a)) →
  raises_as Q (bind m k).
Proof.
  intros Hm Hk w. destruct (Hm w) as (evs1 & Ht1 & HQ1). unfold bind.
  destruct (m w) as [[a|e1|] w1] eqn:Hmw; cbn [fst snd] in *.
  - destruct (Hk a (ex_intro _ w (ex_intro _ w1 Hmw)) w1) as (evs2 & Ht2 & HQ2).
    exists (evs1 ++ evs2). split; [by rewrite Ht2, Ht1, app_assoc|].
    intros e He. by apply Q_later, HQ2.
  - exists evs1. split; [done|]. intros e [= ->]. by apply HQ1.
  - exists evs1. split; [done|]. by intros e.
Qed.

Lemma raises_as_for_each {A} (xs : list A) (body : A → M unit) :
  (∀ x, x ∈ xs → raises_as Q (body x)) → raises_as Q (for_each xs body).
Proof.
  induction xs as [|x xs IH]; intros Hbody; cbn [for_each].
  - apply raises_as_ret.
  - apply raises_as_bind; [apply Hbody; by left|].
    intros _ _. apply IH. intros y Hy. apply Hbody. by right.
Qed.

(** The page functions never raise a [RequestException]. *)
Lemma raises_as_get_title_from_url (url : str) :
  raises_as Q (get_title_from_url http_get parse_html url).
Proof.
  apply raises_as_fixed. intros w.
  destruct (http_get url HEADERS) as [page|e] eqn:Hget.
  - destruct (get_title_from_url_answers http_get parse_html url page Hget w)
      as [t Ht].
    by exists (Return (TitleText t)), [EvGet url].
  - eexists _, _. split; [by apply get_title_from_url_error|done].
Qed.

Lemma raises_as_fetch_subpages (url : str) :
  raises_as Q (fetch_subpages http_get parse_html url).
Proof.
  apply raises_as_fixed. intros w.
  destruct (http_get url HEADERS) as [page|e] eqn:Hget.
  - eexists _, _. split; [by apply fetch_subpages_answers|].
    unfold listing. by destruct (existsb _ _).
  - eexists _, _. split; [by apply fetch_subpages_error|done].
Qed.

Lemma raises_as_downloadable_acts (url : str) :
  raises_as Q (downloadable_acts http_get parse_html url).
Proof.
  apply raises_as_fixed. intros w.
  destruct (http_get url HEADERS) as [page|e] eqn:Hget.
  - eexists _, _. split; [by apply downloadable_acts_answers|].
    unfold listing. by destruct (existsb _ _).
  - eexists _, _. split; [by apply downloadable_acts_error|done].
Qed.

(** What they return is what the page lists. *)
Lemma fetch_subpages_lists (url : str) (subpages : list record) :
  (∃ w w1, fetch_subpages http_get parse_html url w = (Return subpages, w1)) →
  ∀ subpage, subpage ∈ subpages → subpage_of http_get parse_html url subpage.
Proof.
  intros (w & w1 & Hrun) subpage Hin.
  destruct (http_get url HEADERS) as [page|e] eqn:Hget.
  - rewrite (fetch_subpages_answers http_get parse_html url page Hget) in Hrun.
    unfold listing in Hrun. destruct (existsb _ _); [done|].
    injection Hrun as <- _. by exists page.
  - rewrite (fetch_subpages_error http_get parse_html url e Hget) in Hrun.
    injection Hrun as <- _. by apply elem_of_nil in Hin.
Qed.

Lemma downloadable_acts_lists (url : str) (acts : list record) :
  (∃ w w1, downloadable_acts http_get parse_html url w = (Return acts, w1)) →
  ∀ act, act ∈ acts → listed_on http_get parse_html url act.
Proof.
  intros (w & w1 & Hrun) act Hin.
  destruct (http_get url HEADERS) as [page|e] eqn:Hget.
  - rewrite (downloadable_acts_answers http_get parse_html url page Hget) in Hrun.
    unfold listing in Hrun. destruct (existsb _ _); [done|].
    injection Hrun as <- _. by exists page.
  - rewrite (downloadable_acts_error http_get parse_html url e Hget) in Hrun.
    injection Hrun as <- _. by apply elem_of_nil in Hin.
Qed.

(** [download_file] raises with the first fetch or not at all. *)
Lemma download_file_raises (url folder : str) (title subtitle referer : option str)
    (w : world) :
  let w1 := after w [EvMakedirs (download_dir folder title subtitle); EvGet url] in
  match http_get url (download_headers referer) with
  | HttpError e =>
      download_file http_get url folder title subtitle referer w = (Raise e, w1)
  | HttpOk _ =>
      ∀ e, fst (download_file http_get url folder title subtitle referer w)
           ≠ Raise e
  end.
Proof.
  intros w1. rewrite download_file_eq. cbv zeta. fold w1.
  destruct (http_get url (download_headers referer)) as [resp|e]; [|done].
  intros e. destruct (bool_decide _); [done|].
  destruct (negb _ && _); [|done].
  destruct (try_alternates_cases http_get (download_dir folder title subtitle)
              (primary_filename url resp) (download_headers referer)
              (candidates url))
    as [(evs & _ & Hall) | (evs & d & c & _ & Hall)]; by rewrite Hall.
Qed.

End Raising.

Lemma raises_as_weaken (Q Q' : str → list event → Prop) {A} (m : M A) :
  (∀ e evs, Q e evs → Q' e evs) → raises_as Q m → raises_as Q' m.
Proof.
  intros HQ Hm w. destruct (Hm w) as (evs & Ht & He).
  exists evs. split; [done|]. intros e H. by apply HQ, He.
Qed.

Section RaisingRun.
Variable http_get : str → gmap str str → http_result.
Variable parse_html : str → Bs.node.

Lemma ends_with_document_later (acts : record → Prop) (e : str)
    (evs1 evs2 : list event) :
  ends_with_document http_get acts e evs2 → ends_with_document http_get acts e (evs1 ++ evs2).
Proof.
  intros (act & pre & dir & Hact & Hget & ->).
  exists act, (evs1 ++ pre), dir. by rewrite <- app_assoc.
Qed.

Lemma raises_as_download_listed (acts : list record) (folder : str)
    (title subtitle : option str) :
  raises_as (ends_with_document http_get (λ act, act ∈ acts))
    (for_each acts (λ act,
       bind (emit (found_document act)) (λ _,
       bind (download_file http_get (rec_link act) folder title subtitle None)
            (λ _, ret tt)))).
Proof.
  apply raises_as_for_each; [apply ends_with_document_later|].
  intros act Hact.
  eapply (raises_as_weaken
            (λ e evs, ∃ dir,
               http_get (rec_link act) (download_headers None) = HttpError e
               ∧ evs = [found_document act; EvMakedirs dir; EvGet (rec_link act)])).
  { intros e evs (dir & Hget & ->). by exists act, [], dir. }
  intros w.
  assert (Hrun :
    bind (emit (found_document act)) (λ _,
      bind (download_file http_get (rec_link act) folder title subtitle None)
           (λ _, ret tt)) w
    = match download_file http_get (rec_link act) folder title subtitle None
              (after w [found_document act]) with
      | (Return _, w2) => (Return tt, w2)
      | (Raise e, w2) => (Raise e, w2)
      | (RaiseValueError, w2) => (RaiseValueError, w2)
      end).
  { unfold bind. rewrite emit_after.
    by destruct (download_file _ _ _ _ _ _ _) as [[?|?|] ?]. }
  rewrite Hrun. clear Hrun.
  pose proof (download_file_raises http_get (rec_link act) folder title subtitle
                None (after w [found_document act])) as Hd.
  cbv zeta in Hd.
  destruct (emits_only_download_file (λ _, True) http_get (λ _, I) (λ _ _, I)
              (λ _, I) (rec_link act) folder title subtitle None
              (after w [found_document act])) as (evs & Hevs & _).
  destruct (http_get (rec_link act) (download_headers None)) as [resp|e] eqn:Hget.
  - exists ([found_document act] ++ evs).
    destruct (download_file _ _ _ _ _ _ _) as [[p|e|] w2];
      cbn [fst snd ret] in *.
    + split; [|done]. rewrite Hevs. cbn [after trace]. by rewrite <- app_assoc.
    + by destruct (Hd e).
    + split; [|done]. rewrite Hevs. cbn [after trace]. by rewrite <- app_assoc.
  - rewrite Hd. cbn [fst snd after trace].
    exists [found_document act;
            EvMakedirs (download_dir folder title subtitle);
            EvGet (rec_link act)].
    split; [by rewrite <- !app_assoc|].
    intros e' [= <-]. eauto.
Qed.

Lemma raises_as_get_acts (url : str) :
  raises_as (ends_with_document http_get (document_of http_get parse_html url))
    (get_acts http_get parse_html url).
Proof.
  set (Q := ends_with_document http_get (document_of http_get parse_html url)).
  assert (Hlater : ∀ e evs1 evs2, Q e evs2 → Q e (evs1 ++ evs2))
    by apply ends_with_document_later.
  unfold get_acts. cbv zeta. apply raises_as_bind; [done| |].
  - destruct (Py.contains _ (Py.s "legislacja.rcl.gov.pl"));
      [|by apply raises_as_ret].
    apply raises_as_bind; [done|by apply raises_as_get_title_from_url|].
    intros title _.
    apply raises_as_bind; [done|by apply raises_as_fetch_subpages|].
    intros subpages Hsubpages.
    apply raises_as_for_each; [done|]. intros subpage Hsubpage.
    apply raises_as_bind; [done|by apply raises_as_downloadable_acts|].
    intros acts Hacts.
    eapply raises_as_weaken; [|apply raises_as_download_listed].
    intros e evs (act & pre & dir & Hact & Hget & ->).
    exists act, pre, dir. split; [|done]. right. exists subpage.
    split; [by eapply fetch_subpages_lists|by eapply downloadable_acts_lists].
  - intros _ _. destruct (_ || _ || _); [|by apply raises_as_emit].
    apply raises_as_bind; [done|by apply raises_as_get_title_from_url|].
    intros title _.
    apply raises_as_bind; [done|by apply raises_as_downloadable_acts|].
    intros acts Hacts.
    eapply raises_as_weaken; [|apply raises_as_download_listed].
    intros e evs (act & pre & dir & Hact & Hget & ->).
    exists act, pre, dir. split; [|done]. left.
    by eapply downloadable_acts_lists.
Qed.

End RaisingRun.

(** X14: the only [RequestException] [get_acts] lets through is the one
    the first fetch of a document raises.  When a run raises, it ends with
    the announcement of a document, the creation of its directory and the
    fetch of its link, which raises that exception; the document is a
    record of the list of acts of the page of the URL, or of a subpage
    listed on that page.  The errors of the page fetches and of the
    alternate forms never surface. *)
Theorem get_acts_raises_only_document_errors
    (http_get : str → gmap str str → http_result) (parse_html : str → Bs.node)
    (url : str) (w : world) (e : str) :
  fst (get_acts http_get parse_html url w) = Raise e →
  ∃ act evs dir,
    document_of http_get parse_html url act
    ∧ http_get (rec_link act) (download_headers None) = HttpError e
    ∧ trace (snd (get_acts http_get parse_html url w))
      = trace w ++ evs
        ++ [found_document act; EvMakedirs dir; EvGet (rec_link act)].
Proof.
  intros Hraise.
  destruct (raises_as_get_acts http_get parse_html url w) as (evs & Ht & HQ).
  destruct (HQ e Hraise) as (act & pre & dir & Hact & Hget & ->).
  by exists act, pre, dir.
Qed.

Lemma get_acts_raises_only_document_errors_witness :
  ∃ act evs dir,
    document_of Sample.sejm_transport Sample.sejm_parse Sample.sejm_url act
    ∧ Sample.sejm_transport (rec_link act) (download_headers None)
      = HttpError (Py.s "503 Server Error")
    ∧ trace (snd (get_acts Sample.sejm_transport Sample.sejm_parse
                    Sample.sejm_url Sample.empty_world))
      = trace Sample.empty_world ++ evs
        ++ [found_document act; EvMakedirs dir; EvGet (rec_link act)].
Proof.
  apply (get_acts_raises_only_document_errors Sample.sejm_transport
           Sample.sejm_parse Sample.sejm_url Sample.empty_world).
  vm_compute. reflexivity.
Defined.

(** ** Running [get_acts] again *)

Section Rerun.
Variable http_get : str → gmap str str → http_result.
Variable parse_html : str → Bs.node.

#[local] Abbreviation grows := (moves_along (only_adds_downloads http_get)).

Lemma settles_ret {A} (a : A) : settles (ret a).
Proof.
  intros w a' w1 [= <- <-] w2 _. exists []. by rewrite after_nil.
Qed.

Lemma settles_emit (ev : event) : is_write ev = false → settles (emit ev).
Proof.
  intros Hev w [] w1 _ w2 _. exists [ev]. rewrite emit_after. by repeat constructor.
Qed.

Lemma settles_bind {A B} (m : M A) (k : A → M B) :
  settles m → (∀ a, settles (k a)) → (∀ a, grows (k a)) → settles (bind m k).
Proof.
  intros Hm Hk Hgrow w b w1 Hrun w2 Hsub. unfold bind in *.
  destruct (m w) as [[a|e|] wa] eqn:Hmw; [|done|done].
  destruct (Hgrow a wa) as [Hwa _]. rewrite Hrun in Hwa. cbn [snd] in Hwa.
  destruct (Hm w a wa Hmw w2) as (evs & -> & Hevs); [by etrans|].
  destruct (Hk a wa b w1 Hrun (after w2 evs) Hsub) as (evs' & -> & Hevs').
  exists (evs ++ evs'). rewrite after_after. split; [done|by apply Forall_app].
Qed.

Lemma settles_for_each {A} (xs : list A) (body : A → M unit) :
  (∀ x, settles (body x)) → (∀ x, grows (body x)) → settles (for_each xs body).
Proof.
  intros Hs Hg. induction xs as [|x xs IH]; cbn [for_each].
  - apply settles_ret.
  - apply settles_bind; [apply Hs|done|]. intros _.
    apply moves_along_for_each;
      [apply only_adds_refl|apply only_adds_trans|apply Hg].
Qed.

(** A computation that returns the same value and adds the same events,
    none of them a write, from every world. *)
Lemma settles_fixed {A} (m : M A) (o : outcome A) (evs : list event) :
  (∀ w, m w = (o, after w evs)) →
  Forall (λ ev, is_write ev = false) evs → settles m.
Proof.
  intros Hm Hevs w a' w1 Hrun w2 _. rewrite Hm in Hrun. injection Hrun as -> _.
  exists evs. by rewrite Hm.
Qed.

Lemma settles_get_title_from_url (url : str) :
  settles (get_title_from_url http_get parse_html url).
Proof.
  destruct (http_get url HEADERS) as [page|e] eqn:Hget.
  - eapply (settles_fixed _ _ [EvGet url]); [|by repeat constructor].
    intros w. unfold get_title_from_url. run_m. by rewrite Hget.
  - eapply settles_fixed; [|shelve].
    intros w. by apply get_title_from_url_error.
    Unshelve. by repeat constructor.
Qed.

Lemma settles_fetch_subpages (url : str) :
  settles (fetch_subpages http_get parse_html url).
Proof.
  destruct (http_get url HEADERS) as [page|e] eqn:Hget.
  - eapply settles_fixed; [|shelve].
    intros w. by apply fetch_subpages_answers.
    Unshelve. by repeat constructor.
  - eapply settles_fixed; [|shelve].
    intros w. by apply fetch_subpages_error.
    Unshelve. by repeat constructor.
Qed.

Lemma settles_downloadable_acts (url : str) :
  settles (downloadable_acts http_get parse_html url).
Proof.
  destruct (http_get url HEADERS) as [page|e] eqn:Hget.
  - eapply settles_fixed; [|shelve].
    intros w. by apply downloadable_acts_answers.
    Unshelve. by repeat constructor.
  - eapply settles_fixed; [|shelve].
    intros w. by apply downloadable_acts_error.
    Unshelve. by repeat constructor.
Qed.

(** Once [download_file] has returned, a later call for the same target
    finds a file where it looks and writes nothing, even if other files
    have appeared in between. *)
Lemma download_file_settled (url folder : str) (title subtitle referer : option str)
    (w w1 w2 : world) (p : str) :
  download_file http_get url folder title subtitle referer w = (Return p, w1) →
  files w1 ⊆ files w2 →
  ∃ p' evs,
    download_file http_get url folder title subtitle referer w2
    = (Return p', after w2 evs)
    ∧ Forall (λ ev, is_write ev = false) evs.
Proof.
  rewrite !download_file_eq. cbv zeta.
  set (base_dir := download_dir folder title subtitle).
  set (hdrs := download_headers referer).
  destruct (http_get url hdrs) as [resp|e]; [|done].
  set (filename := primary_filename url resp).
  set (dest := OsPath.join base_dir filename).
  intros Hrun Hsub.
  assert (Hquiet : Forall (λ ev, is_write ev = false) [EvMakedirs base_dir; EvGet url])
    by (by repeat constructor).
  destruct (bool_decide (is_Some (files w2 !! dest))) eqn:Hdest2; [eauto|].
  apply bool_decide_eq_false in Hdest2.
  assert (Hdest1 : ¬ is_Some (files w1 !! dest)).
  { intros H. apply Hdest2. by eapply lookup_weaken_is_Some. }
  assert (Hwritten : ∀ w', is_Some (files (written w' dest (resp_content resp)) !! dest)).
  { intros w'. unfold written. cbn [files]. rewrite lookup_insert_eq. by eexists. }
  revert Hrun.
  destruct (bool_decide (is_Some (files w !! dest))) eqn:Hdest.
  { apply bool_decide_eq_true in Hdest. intros [= _ <-]. by destruct Hdest1. }
  destruct (negb _ && _).
  2:{ intros [= _ <-]. by destruct Hdest1. }
  destruct (try_alternates_cases http_get base_dir filename hdrs (candidates url))
    as [(evs & _ & Hall) | (evs & d & c & Hevs & Hall)]; rewrite !Hall.
  { intros [= _ <-]. by destruct Hdest1. }
  intros [= _ <-].
  assert (Hd : is_Some (files w2 !! d)).
  { eapply lookup_weaken_is_Some; [|exact Hsub]. apply saved_present. }
  rewrite saved_again by done. rewrite after_after.
  eexists _, _. split; [done|]. by apply Forall_app.
Qed.

Lemma settles_download_file (url folder : str) (title subtitle : option str) :
  settles (bind (download_file http_get url folder title subtitle None)
                (λ _, ret tt)).
Proof.
  intros w [] w1 Hrun w2 Hsub. unfold bind, ret in *.
  destruct (download_file _ _ _ _ _ _ w) as [[p|e|] w'] eqn:Hfirst; [|done|done].
  injection Hrun as ->.
  destruct (download_file_settled url folder title subtitle None w w1 w2 p
              Hfirst Hsub) as (p' & evs & -> & Hevs).
  by exists evs.
Qed.

Lemma settles_download_each (folder : str) (title subtitle : option str)
    (acts : list record) :
  settles
    (for_each acts (λ act,
       bind (emit (found_document act)) (λ _,
       bind (download_file http_get (rec_link act) folder title subtitle None)
            (λ _, ret tt)))).
Proof.
  apply settles_for_each; intros act.
  - apply settles_bind; [by apply settles_emit| |].
    + intros _. apply settles_download_file.
    + intros _. apply grows_bind; [apply grows_download_file|].
      intros _. apply grows_ret.
  - apply grows_bind; [apply grows_emit|]. intros _.
    apply grows_bind; [apply grows_download_file|]. intros _. apply grows_ret.
Qed.

Lemma settles_get_acts (url : str) : settles (get_acts http_get parse_html url).
Proof.
  unfold get_acts. cbv zeta. apply settles_bind.
  - destruct (Py.contains _ (Py.s "legislacja.rcl.gov.pl")); [|apply settles_ret].
    apply settles_bind; [apply settles_get_title_from_url| |].
    + intros title. apply settles_bind; [apply settles_fetch_subpages| |].
      * intros subpages. apply settles_for_each; intros subpage.
        -- apply settles_bind; [apply settles_downloadable_acts| |];
             intros acts; [apply settles_download_each|apply grows_download_each].
        -- apply grows_bind; [apply grows_downloadable_acts|].
           intros acts. apply grows_download_each.
      * intros subpages.
        apply moves_along_for_each; [apply only_adds_refl|apply only_adds_trans|].
        intros subpage. apply grows_bind; [apply grows_downloadable_acts|].
        intros acts. apply grows_download_each.
    + intros title. apply grows_bind; [apply grows_fetch_subpages|].
      intros subpages.
      apply moves_along_for_each; [apply only_adds_refl|apply only_adds_trans|].
      intros subpage. apply grows_bind; [apply grows_downloadable_acts|].
      intros acts. apply grows_download_each.
  - intros _. destruct (_ || _ || _); [|by apply settles_emit].
    apply settles_bind; [apply settles_get_title_from_url| |]; intros title.
    + apply settles_bind; [apply settles_downloadable_acts| |];
        intros acts; [apply settles_download_each|apply grows_download_each].
    + apply grows_bind; [apply grows_downloadable_acts|].
      intros acts. apply grows_download_each.
  - intros _. destruct (_ || _ || _); [|apply grows_emit].
    apply grows_bind; [apply grows_get_title_from_url|]. intros title.
    apply grows_bind; [apply grows_downloadable_acts|]. intros acts.
    apply grows_download_each.
Qed.

End Rerun.

(** X15: a run of [get_acts] that has returned leaves nothing to write.
    Run again for the same URL against the same remote state, on the files
    the first run left (and any others), [get_acts] returns and writes no
    file: every document is fetched again, found on the disk and left as
    it is. *)
Theorem get_acts_again_writes_nothing
    (http_get : str → gmap str str → http_result) (parse_html : str → Bs.node)
    (url : str) (w w1 w2 : world) :
  get_acts http_get parse_html url w = (Return tt, w1) →
  files w1 ⊆ files w2 →
  ∃ evs,
    get_acts http_get parse_html url w2 = (Return tt, after w2 evs)
    ∧ Forall (λ ev, is_write ev = false) evs.
Proof.
  intros Hrun Hsub.
  by apply (settles_get_acts http_get parse_html url w tt w1 Hrun w2 Hsub).
Qed.

Lemma get_acts_again_writes_nothing_witness :
  let w1 := snd (get_acts Sample.rcl_transport Sample.rcl_parse Sample.rcl_url
                   Sample.empty_world) in
  ∃ evs,
    get_acts Sample.rcl_transport Sample.rcl_parse Sample.rcl_url w1
    = (Return tt, after w1 evs)
    ∧ Forall (λ ev, is_write ev = false) evs.
Proof.
  intros w1.
  apply (get_acts_again_writes_nothing Sample.rcl_transport Sample.rcl_parse
           Sample.rcl_url Sample.empty_world w1 w1); [|done].
  vm_compute. reflexivity.
Defined.

(** ** The path [download_file] returns *)


